(** * WGAN training notebook (WGAN.ipynb): a shallow embedding

    The notebook trains a Wasserstein GAN with Keras.  This development
    embeds the code cells of the notebook: the loss ([wasserstein_loss]),
    the weight constraint ([ClipConstraint]), the two network builders
    ([define_critic], [define_generator]), the composite ([define_wgan]),
    the image loader ([load_real_samples]), the batch samplers and the
    orchestrating loop ([train]).

    Conventions.
    - The values of weights, images and scores are finite floats, held
      as exact rationals ([Q]); rounding inside Keras stays behind the
      backend interface.  Where the notebook's own code works in single
      precision (the clip of the weight constraint, whose bound
      TensorFlow converts to the precision of the weights, and the
      rescaling of the grey levels), it is computed on floats, nan and
      the infinities included, with the specification of IEEE 754
      arithmetic of the standard library.
    - Python objects that are mutated after being shared (the layers of
      the critic) live in a heap and are named by their address.
    - numpy's random generator, the Keras numerical kernels and the file
      system are an explicit interface ([Backend], and [Imaging] for
      the image files); every theorem holds for all of its
      implementations.
    - Python exceptions are the [Err] results of a small state and error
      monad. *)

From Stdlib Require Import QArith Qpower Lia Lqa.
From Stdlib Require SpecFloat.
From stdpp Require Import base list strings.

Set Default Proof Using "Type".

(* ================================================================== *)
(** * Part I: definitions                                              *)
(* ================================================================== *)

(** ** Arrays *)

(** A tensor, flattened in row-major order. *)
Definition tensor := list Q.

(** The shape of one sample (what follows the batch axis). *)
Definition shape := list nat.

(** A Python float as [numpy.mean] and [train_on_batch] return it: a
    finite value or nan. *)
Inductive npfloat :=
| Finite (q : Q)
| NaN.

(** Equality of results up to the representation of rationals. *)
Definition npfloat_eq (a b : npfloat) : Prop :=
  match a, b with
  | Finite x, Finite y => x == y
  | NaN, NaN => True
  | _, _ => False
  end.

Definition npfloat_opp (a : npfloat) : npfloat :=
  match a with
  | Finite x => Finite (- x)
  | NaN => NaN
  end.

Definition Qsum (l : list Q) : Q := foldr Qplus 0%Q l.

(** [backend.mean] of Keras and [mean] of numpy over all entries: the
    sum divided by the count, nan for no entries. *)
Definition mean (l : list Q) : npfloat :=
  match l with
  | [] => NaN
  | _ :: _ => Finite (Qsum l / inject_Z (Z.of_nat (length l)))
  end.

(** [ones((n, m))] of numpy, as [n] rows of [m] entries. *)
Definition ones (n m : nat) : list (list Q) := replicate n (replicate m 1%Q).

(** Unary minus on a two-dimensional array. *)
Definition neg2 (a : list (list Q)) : list (list Q) := map (map Qopp) a.

(** ** Cell 2: the loss *)

(** [def wasserstein_loss(y_true, y_pred):
       return backend.mean(y_true * y_pred)]
    on two vectors of one length ([zip_with] stops at the shorter one,
    where numpy would broadcast or raise). *)
Definition wasserstein_loss (y_true y_pred : list Q) : npfloat :=
  mean (zip_with Qmult y_true y_pred).

(** The loss in the words of its description: the products of the
    entries at the same index, summed over the indices and divided by
    the number of entries. *)
Definition mean_of_products (y_true y_pred : list Q) : npfloat :=
  match length y_pred with
  | O => NaN
  | S _ as n =>
      Finite (Qsum (map (fun i => (nth i y_true 0 * nth i y_pred 0)%Q) (seq 0 n))
              / inject_Z (Z.of_nat n))
  end.

(** ** Single precision *)

(** Single-precision floats, after the specification of IEEE 754
    arithmetic of the standard library: 24 bits of mantissa, infinities
    at exponent 128, rounding to nearest even. *)
Definition float32 : Type := SpecFloat.spec_float.

Definition float32_of_Z (z : Z) : float32 :=
  SpecFloat.binary_normalize 24 128 z 0 false.

Definition float32_sub : float32 -> float32 -> float32 := SpecFloat.SFsub 24 128.
Definition float32_div : float32 -> float32 -> float32 := SpecFloat.SFdiv 24 128.
Definition float32_opp : float32 -> float32 := SpecFloat.SFopp.

(** The rational a float stands for.  Infinities and nan have none and
    read as 0. *)
Definition float32_to_Q (x : float32) : Q :=
  match x with
  | SpecFloat.S754_finite s m e =>
      let v := (inject_Z (Z.pos m) * Qpower 2 e)%Q in
      if s then (- v)%Q else v
  | _ => 0%Q
  end.

Definition is_finite (x : float32) : bool :=
  match x with
  | SpecFloat.S754_finite _ _ _ | SpecFloat.S754_zero _ => true
  | _ => false
  end.

Definition is_nan (x : float32) : bool :=
  match x with
  | SpecFloat.S754_nan => true
  | _ => false
  end.

(** The conversion of a Python float to single precision: the nearest
    float, ties to even, an infinity beyond the largest float.  The
    quotient of numerator and denominator is rounded once. *)
Definition float32_of_Q (q : Q) : float32 :=
  match Qnum q with
  | Z0 => SpecFloat.S754_zero false
  | Zpos n =>
      float32_div (SpecFloat.S754_finite false n 0)
        (SpecFloat.S754_finite false (Qden q) 0)
  | Zneg n =>
      float32_div (SpecFloat.S754_finite true n 0)
        (SpecFloat.S754_finite false (Qden q) 0)
  end.

(** [x <= y] as IEEE 754 compares: by value, false when an operand is
    nan. *)
Definition float32_leb (x y : float32) : bool :=
  match x, y with
  | SpecFloat.S754_nan, _ => false
  | _, SpecFloat.S754_nan => false
  | SpecFloat.S754_infinity true, _ => true
  | _, SpecFloat.S754_infinity false => true
  | SpecFloat.S754_infinity false, _ => false
  | _, SpecFloat.S754_infinity true => false
  | _, _ => Qle_bool (float32_to_Q x) (float32_to_Q y)
  end.

(** [minimum] and [maximum] of TensorFlow on one entry: nan when an
    operand is nan.  Of two operands of one value (the two zeros) the
    first is kept here; the theorems compare values. *)
Definition float32_minimum (x y : float32) : float32 :=
  if is_nan x || is_nan y then SpecFloat.S754_nan
  else if float32_leb x y then x else y.

Definition float32_maximum (x y : float32) : float32 :=
  if is_nan x || is_nan y then SpecFloat.S754_nan
  else if float32_leb y x then x else y.

(** ** Cell 3: the weight constraint *)

(** [backend.clip(x, min_value, max_value)] of Keras on a tensor of
    single-precision weights:
    [if max_value < min_value: max_value = min_value] on the Python
    floats, then [tf.clip_by_value], which converts the two bounds to
    the precision of [x] and takes [maximum(minimum(x, max), min)] on
    every entry. *)
Definition backend_clip (x : list float32) (min_value max_value : Q)
  : list float32 :=
  let max_value :=
    if Qlt_le_dec max_value min_value then min_value else max_value in
  map (fun v => float32_maximum (float32_minimum v (float32_of_Q max_value))
                  (float32_of_Q min_value)) x.

(** [class ClipConstraint(Constraint)]: [__init__] stores the bound, a
    Python float, held here by its value. *)
Record ClipConstraint := { clip_value : Q }.

(** [__call__(self, weights)]. *)
Definition ClipConstraint_call (self : ClipConstraint) (weights : list float32)
  : list float32 :=
  backend_clip weights (- clip_value self) (clip_value self).

(** Every entry of [w] lies in the closed interval [[-c, c]]. *)
Definition within (c : Q) (w : tensor) : Prop :=
  Forall (fun v => (- c <= v)%Q /\ (v <= c)%Q) w.

(** The float [x] lies between [-b] and [b]. *)
Definition float32_within (b x : float32) : Prop :=
  float32_leb (float32_opp b) x = true /\ float32_leb x b = true.

(** Two floats are the same number, or both nan. *)
Definition float32_same (x y : float32) : Prop :=
  if is_nan x then is_nan y = true
  else float32_leb x y = true /\ float32_leb y x = true.

(** The sign of a float is not negative. *)
Definition signless (x : float32) : Prop :=
  match x with
  | SpecFloat.S754_zero s | SpecFloat.S754_infinity s
  | SpecFloat.S754_finite s _ _ => s = false
  | SpecFloat.S754_nan => True
  end.

(** ** Keras layers *)

Inductive initializer :=
| Zeros
| Ones
| RandomNormal (stddev : Q)
| GlorotUniform.

Inductive activation := Linear | Tanh.

(** The layer classes the notebook imports.  Every convolution of the
    notebook has [padding='same']. *)
Inductive layer_kind :=
| Conv2D (filters : nat) (kernel_size strides : nat * nat) (act : activation)
| Conv2DTranspose (filters : nat) (kernel_size strides : nat * nat)
| BatchNormalization
| LeakyReLU (alpha : Q)
| Flatten
| Reshape (target_shape : shape)
| Dense (units : nat).

(** [isinstance(layer, BatchNormalization)]. *)
Definition is_BatchNormalization (k : layer_kind) : bool :=
  match k with
  | BatchNormalization => true
  | _ => false
  end.

(** One weight variable of a layer.  [v_trainable] is false for the
    moving statistics of a normalization layer; [v_constraint] is the
    [kernel_constraint] the layer was built with. *)
Record variable := mkVariable {
  v_name : string;
  v_shape : shape;
  v_trainable : bool;
  v_constraint : option ClipConstraint;
  v_value : tensor }.

(** A layer object.  [l_trainable] is the attribute [layer.trainable]. *)
Record layer := mkLayer {
  l_kind : layer_kind;
  l_trainable : bool;
  l_output_shape : shape;
  l_weights : list variable }.

Definition set_value (v : variable) (x : tensor) : variable :=
  mkVariable (v_name v) (v_shape v) (v_trainable v) (v_constraint v) x.

Definition set_trainable (l : layer) (b : bool) : layer :=
  mkLayer (l_kind l) b (l_output_shape l) (l_weights l).

Definition set_weights (l : layer) (ws : list variable) : layer :=
  mkLayer (l_kind l) (l_trainable l) (l_output_shape l) ws.

(** Number of entries of a tensor of the given shape. *)
Definition tensor_size (s : shape) : nat := foldr Nat.mul 1 s.

(** [a[-1]] on a shape. *)
Definition last_dim (s : shape) : nat := default 0 (last s).

(** ** The interface to numpy, Keras and the file system *)

Inductive file :=
| PlotFile (tag : nat)       (* 'generated_plot_%04d.png' % tag *)
| ModelFile (tag : nat)      (* 'model_%04d.h5' % tag *)
| LossPlotFile.              (* 'plot_line_plot_loss.png' *)

Definition loss_function := list Q -> list Q -> npfloat.

(** What the notebook takes from its libraries.
    - [random_init i seed n]: the [n] entries a random initializer draws
      for the layer at address [seed];
    - [randint_raw], [randn_raw]: the stream of numpy's global generator,
      read at the current position;
    - [predict_sample ls x]: the forward pass, in inference mode, of the
      stack of layers [ls] (each with its address) on one sample;
    - [fit k loss ls X y]: the [k]-th call of a training function on the
      stack [ls] and the batch [(X, y)]: [None] when the numerical
      kernels raise, else the loss of the batch and, per layer address
      and weight index, the value the optimizer computes for the weight
      (and the training-mode forward pass for a moving statistic).  The
      call counter stands for the hidden state of the optimizers;
    - [write_ok f]: whether writing the file [f] succeeds. *)
Class Backend := {
  random_init : initializer -> nat -> nat -> tensor;
  randint_raw : nat -> nat;
  randn_raw : nat -> Q;
  predict_sample : list (nat * layer) -> tensor -> tensor;
  fit : nat -> loss_function -> list (nat * layer) ->
        list tensor -> list tensor ->
        option (npfloat * (nat -> nat -> tensor));
  write_ok : file -> bool }.

(** ** Arrays with a batch axis *)

(** A numpy array of shape [(n, d1, ..., dk)]: [n] items of shape
    [(d1, ..., dk)]. *)
Record ndarray := mkArray {
  item_shape : shape;
  items : list tensor }.

(** [a.shape[0]]. *)
Definition shape0 (a : ndarray) : nat := length (items a).

(** [ones((n, 1))] and unary minus. *)
Definition ones_n1 (n : nat) : ndarray := mkArray [1] (ones n 1).
Definition neg (a : ndarray) : ndarray := mkArray (item_shape a) (neg2 (items a)).

(** [x.reshape(n, d)] on a vector of [n * d] entries: row [i] holds the
    entries [i * d .. i * d + d - 1]. *)
Definition reshape (x : tensor) (n d : nat) : ndarray :=
  mkArray [d] (map (fun i => take d (drop (i * d) x)) (seq 0 n)).

(** ** The run-time state and the monad of the notebook *)

(** What a run leaves behind, in order. *)
Inductive event :=
| EvTrainOnBatch (model_layers : list nat) (X y : ndarray) (loss : npfloat)
| EvPrintLosses (step : nat) (c1 c2 g : npfloat)
| EvSaved (f : file)
| EvPrintSaved (tag : nat)
| EvPlotHistory (d1_hist d2_hist g_hist : list npfloat).

(** [heap]: the layer objects by address; [rng_pos]: how much of
    numpy's random stream is used up; [calls]: the number of training
    calls made so far; [trace]: the events so far. *)
Record state := mkState {
  heap : list layer;
  rng_pos : nat;
  calls : nat;
  trace : list event }.

Inductive error :=
| ValueError
| ZeroDivisionError
| IndexError
| RuntimeError
| OSError
| BackendError.

Inductive result (A : Type) :=
| Ok (a : A) (s : state)
| Err (e : error) (s : state).
Arguments Ok {A} a s.
Arguments Err {A} e s.

Definition M (A : Type) : Type := state -> result A.

Definition ret {A} (a : A) : M A := fun s => Ok a s.

Definition bind {A B} (m : M A) (k : A -> M B) : M B :=
  fun s =>
    match m s with
    | Ok a s' => k a s'
    | Err e s' => Err e s'
    end.

Definition raise {A} (e : error) : M A := fun s => Err e s.

Notation "'let!' x ':=' c1 'in' c2" := (bind c1 (fun x => c2))
  (at level 10, x name, c1 at level 100, c2 at level 200).
Notation "'let!' ' pat ':=' c1 'in' c2" :=
  (bind c1 (fun x => match x with pat => c2 end))
  (at level 10, pat pattern, c1 at level 100, c2 at level 200).
Notation "'do!' c1 'in' c2" := (bind c1 (fun _ => c2))
  (at level 10, c1 at level 100, c2 at level 200).

Definition get_heap : M (list layer) := fun s => Ok (heap s) s.

Definition put_heap (h : list layer) : M unit :=
  fun s => Ok tt (mkState h (rng_pos s) (calls s) (trace s)).

Definition emit (e : event) : M unit :=
  fun s => Ok tt (mkState (heap s) (rng_pos s) (calls s) (trace s ++ [e])).

(** The state a result ends in, and whether it is a normal return. *)
Definition final_state {A} (r : result A) : state :=
  match r with
  | Ok _ s => s
  | Err _ s => s
  end.

Definition is_ok {A} (r : result A) : bool :=
  match r with
  | Ok _ _ => true
  | Err _ _ => false
  end.

Definition value_of {A} (r : result A) : option A :=
  match r with
  | Ok a _ => Some a
  | Err _ _ => None
  end.

(** The error a result raises, if any. *)
Definition error_of {A} (r : result A) : option error :=
  match r with
  | Ok _ _ => None
  | Err e _ => Some e
  end.

(** ** Keras: building layers and models *)

Record optimizer := RMSprop { lr : Q }.

(** What [model.compile] fixes: the loss, the optimizer and the list of
    weights the training function will update
    ([_collected_trainable_weights]), each weight named by the address
    of its layer and its index in the layer. *)
Record compile_info := mkCompile {
  c_loss : loss_function;
  c_optimizer : optimizer;
  c_trainable_weights : list (nat * nat) }.

(** A [Sequential] model: the addresses of its layers, in order, the
    shape of its input (none before the first layer), the shape of its
    current output and what [compile] fixed (none before [compile]).  A
    model added to a model contributes its layers: the composite holds
    the same layer objects as its parts. *)
Record Sequential := mkSequential {
  s_layers : list nat;
  s_input_shape : option shape;
  s_output_shape : shape;
  s_compiled : option compile_info }.

(** The keyword arguments the notebook gives to a layer constructor. *)
Record layer_config := mkConfig {
  lc_kind : layer_kind;
  kernel_initializer : initializer;
  kernel_constraint : option ClipConstraint;
  input_shape : option shape }.

(** A layer with the defaults of Keras: Glorot initializer, no
    constraint, no input shape. *)
Definition plain (k : layer_kind) : layer_config :=
  mkConfig k GlorotUniform None None.

(** Output length of a strided convolution with [padding='same']. *)
Definition same_out (n stride : nat) : nat := (n + stride - 1) / stride.

Section Notebook.
Context `{B : Backend}.

Definition initial_value (i : initializer) (seed n : nat) : tensor :=
  match i with
  | Zeros => replicate n 0%Q
  | Ones => replicate n 1%Q
  | RandomNormal _ | GlorotUniform => random_init i seed n
  end.

Definition new_variable (name : string) (s : shape) (trainable : bool)
    (i : initializer) (c : option ClipConstraint) (seed : nat) : variable :=
  mkVariable name s trainable c (initial_value i seed (tensor_size s)).

(** [layer.build(input_shape)] for the layer allocated at address [a]:
    the weights Keras creates and the output shape; [None] where Keras
    raises for the input shape.  Layers are born trainable; biases and
    the parameters of normalization layers have the default initializers
    and no constraint. *)
Definition build (c : layer_config) (inp : shape) (a : nat) : option layer :=
  match lc_kind c with
  | Conv2D f (kh, kw) (sh, sw) _ =>
      (* the last three axes are rows, columns and channels; the axes
         before them are kept *)
      match reverse inp with
      | ch :: w :: h :: pre =>
          Some (mkLayer (lc_kind c) true
                  (reverse pre ++ [same_out h sh; same_out w sw; f])
                  [new_variable "kernel" [kh; kw; ch; f] true
                     (kernel_initializer c) (kernel_constraint c) a;
                   new_variable "bias" [f] true Zeros None a])
      | _ => None
      end
  | Conv2DTranspose f (kh, kw) (sh, sw) =>
      match inp with
      | [h; w; ch] =>
          Some (mkLayer (lc_kind c) true [h * sh; w * sw; f]
                  [new_variable "kernel" [kh; kw; f; ch] true
                     (kernel_initializer c) (kernel_constraint c) a;
                   new_variable "bias" [f] true Zeros None a])
      | _ => None
      end
  | BatchNormalization =>
      let ch := last_dim inp in
      Some (mkLayer (lc_kind c) true inp
              [new_variable "gamma" [ch] true Ones None a;
               new_variable "beta" [ch] true Zeros None a;
               new_variable "moving_mean" [ch] false Zeros None a;
               new_variable "moving_variance" [ch] false Ones None a])
  | LeakyReLU _ => Some (mkLayer (lc_kind c) true inp [])
  | Flatten => Some (mkLayer (lc_kind c) true [tensor_size inp] [])
  | Reshape t =>
      if decide (tensor_size t = tensor_size inp)
      then Some (mkLayer (lc_kind c) true t [])
      else None
  | Dense u =>
      match inp with
      | [] => None
      | _ :: _ =>
          Some (mkLayer (lc_kind c) true (removelast inp ++ [u])
                  [new_variable "kernel" [last_dim inp; u] true
                     (kernel_initializer c) (kernel_constraint c) a;
                   new_variable "bias" [u] true Zeros None a])
      end
  end.

(** [Sequential()]. *)
Definition Sequential_new : Sequential := mkSequential [] None [] None.

(** [model.add(layer)]: the layer object is allocated, built on the
    current output shape (on its own [input_shape] when it is the first
    layer) and appended.  The notebook always gives the first layer its
    input shape; a first layer without one raises here. *)
Definition add (m : Sequential) (c : layer_config) : M Sequential :=
  let inp :=
    match s_input_shape m with
    | None => input_shape c
    | Some _ => Some (s_output_shape m)
    end in
  match inp with
  | None => raise ValueError
  | Some i =>
      let! h := get_heap in
      match build c i (length h) with
      | None => raise ValueError
      | Some l =>
          do! put_heap (h ++ [l]) in
          ret (mkSequential (s_layers m ++ [length h])
                 (Some (default i (s_input_shape m)))
                 (l_output_shape l) (s_compiled m))
      end
  end.

(** [model.add(other_model)]: the layers of [other] are appended, the
    same objects, not copies; Keras raises when [other] does not accept
    the current output. *)
Definition add_model (m other : Sequential) : M Sequential :=
  match s_input_shape other with
  | None => raise ValueError
  | Some i =>
      match s_input_shape m with
      | None =>
          ret (mkSequential (s_layers other) (Some i)
                 (s_output_shape other) (s_compiled m))
      | Some i0 =>
          if decide (s_output_shape m = i)
          then ret (mkSequential (s_layers m ++ s_layers other) (Some i0)
                      (s_output_shape other) (s_compiled m))
          else raise ValueError
      end
  end.

(** The weights of the layer at [a] that a training function updates:
    the trainable variables of the layer when the layer is trainable. *)
Definition trainable_weights_of (h : list layer) (a : nat) : list (nat * nat) :=
  match h !! a with
  | Some l =>
      if l_trainable l
      then omap (fun '(j, v) => if v_trainable v then Some (a, j) else None)
             (imap pair (l_weights l))
      else []
  | None => []
  end.

(** [model.compile(loss=..., optimizer=...)]: the trainable weights are
    collected now, from the flags the layers have now. *)
Definition compile (m : Sequential) (loss : loss_function) (opt : optimizer)
  : M Sequential :=
  let! h := get_heap in
  ret (mkSequential (s_layers m) (s_input_shape m) (s_output_shape m)
         (Some (mkCompile loss opt
                  (flat_map (trainable_weights_of h) (s_layers m))))).

(** [p.constraint(new_p)] when the weight has a constraint: the
    constraint is called on the single-precision tensor of the new
    values.  (An infinity, which the clip gives only for a bound beyond
    the largest float, has no value and reads as 0, as in
    [float32_to_Q].) *)
Definition constrain (c : option ClipConstraint) (x : tensor) : tensor :=
  match c with
  | Some k => map float32_to_Q (ClipConstraint_call k (map float32_of_Q x))
  | None => x
  end.

(** The update of one weight by a training function whose collected
    weights are [cw]: a collected weight takes the value the optimizer
    computed, passed through the constraint of the weight; a moving
    statistic of a normalization layer takes the value of the
    training-mode forward pass; every other weight is left alone. *)
Definition update_variable (cw : list (nat * nat)) (bn : bool)
    (new : nat -> nat -> tensor) (a j : nat) (v : variable) : variable :=
  if bool_decide ((a, j) ∈ cw)
  then set_value v (constrain (v_constraint v) (new a j))
  else if bn && negb (v_trainable v)
       then set_value v (new a j)
       else v.

Definition update_layer (cw : list (nat * nat)) (new : nat -> nat -> tensor)
    (a : nat) (l : layer) : layer :=
  set_weights l
    (imap (update_variable cw (is_BatchNormalization (l_kind l)) new a)
       (l_weights l)).

Definition apply_updates (ls : list nat) (cw : list (nat * nat))
    (new : nat -> nat -> tensor) (h : list layer) : list layer :=
  imap (fun a l => if bool_decide (a ∈ ls) then update_layer cw new a l else l) h.

(** The layer objects of a model, read from the heap, each with its
    address. *)
Definition resolve (h : list layer) (ls : list nat) : list (nat * layer) :=
  omap (fun a => pair a <$> h !! a) ls.

(** [model.train_on_batch(X, y)]: raises when the model is not compiled
    or the arrays do not fit the model; else runs one step of the
    training function on the weights collected by [compile] and returns
    the loss. *)
Definition train_on_batch (m : Sequential) (X y : ndarray) : M npfloat :=
  match s_compiled m with
  | None => raise RuntimeError
  | Some c =>
      if decide (Some (item_shape X) = s_input_shape m
                 /\ item_shape y = s_output_shape m
                 /\ shape0 X = shape0 y)
      then fun s =>
        match fit (calls s) (c_loss c) (resolve (heap s) (s_layers m))
                (items X) (items y) with
        | None => Err BackendError s
        | Some (loss, new) =>
            Ok loss
              (mkState
                 (apply_updates (s_layers m) (c_trainable_weights c) new (heap s))
                 (rng_pos s) (S (calls s))
                 (trace s ++ [EvTrainOnBatch (s_layers m) X y loss]))
        end
      else raise ValueError
  end.

(** [model.predict(X)]: the forward pass on every item of the batch;
    Keras raises for items of another shape and for an empty batch. *)
Definition predict (m : Sequential) (X : ndarray) : M ndarray :=
  if decide (Some (item_shape X) = s_input_shape m /\ 0 < shape0 X)
  then
    let! h := get_heap in
    ret (mkArray (s_output_shape m)
           (map (predict_sample (resolve h (s_layers m))) (items X)))
  else raise ValueError.

(** ** numpy's random generator *)

(** [randint(low, high, size)]: [size] integers of [[low, high)];
    ValueError for an empty range, unless no integer is asked for. *)
Definition randint (low high size : nat) : M (list nat) :=
  fun s =>
    if decide (low < high \/ size = 0)
    then Ok (map (fun k => low + randint_raw (rng_pos s + k) mod (high - low))
               (seq 0 size))
           (mkState (heap s) (rng_pos s + size) (calls s) (trace s))
    else Err ValueError s.

(** [randn(size)]. *)
Definition randn (size : nat) : M tensor :=
  fun s =>
    Ok (map (fun k => randn_raw (rng_pos s + k)) (seq 0 size))
      (mkState (heap s) (rng_pos s + size) (calls s) (trace s)).

(** [a[ix]] for a list of indices: the items at these indices, or
    IndexError. *)
Definition take_items (a : ndarray) (ix : list nat) : M ndarray :=
  match mapM (fun i => items a !! i) ix with
  | Some xs => ret (mkArray (item_shape a) xs)
  | None => raise IndexError
  end.

(** ** Cell 4: the critic *)

(** [const = ClipConstraint(0.005)]. *)
Definition const : ClipConstraint := {| clip_value := 5 # 1000 |}.

(** [init = RandomNormal(stddev=0.02)]. *)
Definition init : initializer := RandomNormal (2 # 100).

(** [Conv2D(64, (4,4), strides=(2,2), padding='same',
            kernel_initializer=init, kernel_constraint=const, ...)]. *)
Definition critic_conv (inp : option shape) : layer_config :=
  mkConfig (Conv2D 64 (4, 4) (2, 2) Linear) init (Some const) inp.

Definition define_critic (in_shape : shape) : M Sequential :=
  let model := Sequential_new in
  (* downsize to 40x40 *)
  let! model := add model (critic_conv (Some in_shape)) in
  let! model := add model (plain BatchNormalization) in
  let! model := add model (plain (LeakyReLU (2 # 10))) in
  (* downsize to 20x20 *)
  let! model := add model (critic_conv (Some in_shape)) in
  let! model := add model (plain BatchNormalization) in
  let! model := add model (plain (LeakyReLU (2 # 10))) in
  (* downsize to 10x10 *)
  let! model := add model (critic_conv None) in
  let! model := add model (plain BatchNormalization) in
  let! model := add model (plain (LeakyReLU (2 # 10))) in
  (* downsize to 5x5 *)
  let! model := add model (critic_conv None) in
  let! model := add model (plain BatchNormalization) in
  let! model := add model (plain (LeakyReLU (2 # 10))) in
  (* preparing and applying linear activation *)
  let! model := add model (plain Flatten) in
  let! model := add model (plain (Dense 1)) in
  (* compile model *)
  let opt := RMSprop (5 # 100000) in
  compile model wasserstein_loss opt.

(** ** Cell 5: the generator *)

(** [Conv2DTranspose(128, (4,4), strides=(2,2), padding='same',
                     kernel_initializer=init)]. *)
Definition generator_upsample : layer_config :=
  mkConfig (Conv2DTranspose 128 (4, 4) (2, 2)) init None None.

Definition define_generator (latent_dim : nat) : M Sequential :=
  let model := Sequential_new in
  (* prepare 5x5 image *)
  let n_nodes := 128 * 5 * 5 in
  let! model := add model (mkConfig (Dense n_nodes) init None (Some [latent_dim])) in
  let! model := add model (plain (LeakyReLU (2 # 10))) in
  let! model := add model (plain (Reshape [5; 5; 128])) in
  (* upsize to 10x10 *)
  let! model := add model generator_upsample in
  let! model := add model (plain BatchNormalization) in
  let! model := add model (plain (LeakyReLU (2 # 10))) in
  (* upsize to 20x20 *)
  let! model := add model generator_upsample in
  let! model := add model (plain BatchNormalization) in
  let! model := add model (plain (LeakyReLU (2 # 10))) in
  (* upsize to 40x40 *)
  let! model := add model generator_upsample in
  let! model := add model (plain BatchNormalization) in
  let! model := add model (plain (LeakyReLU (2 # 10))) in
  (* upsize to 80x80 *)
  let! model := add model generator_upsample in
  let! model := add model (plain BatchNormalization) in
  let! model := add model (plain (LeakyReLU (2 # 10))) in
  (* output 80x80x1 *)
  let! model := add model (mkConfig (Conv2D 1 (5, 5) (1, 1) Tanh) init None None) in
  ret model.

(** ** Cell 6: the composite *)

(** The body of the loop of [define_wgan] on one layer object. *)
Definition freeze_unless_bn (l : layer) : layer :=
  if negb (is_BatchNormalization (l_kind l))
  then set_trainable l false
  else l.

(** [for layer in critic.layers: ...], on the layer objects in place. *)
Definition freeze_layers (ls : list nat) (h : list layer) : list layer :=
  foldl (fun h a => alter freeze_unless_bn a h) h ls.

Definition define_wgan (generator critic : Sequential) : M Sequential :=
  (* make weights in the critic not trainable when the generator updates *)
  let! h := get_heap in
  do! put_heap (freeze_layers (s_layers critic) h) in
  (* create the environment to connect both *)
  let model := Sequential_new in
  let! model := add_model model generator in
  let! model := add_model model critic in
  let opt := RMSprop (5 # 100000) in
  compile model wasserstein_loss opt.

(** ** Cells 8 to 10: the samplers *)

Definition generate_real_samples (dataset : ndarray) (n_samples : nat)
  : M (ndarray * ndarray) :=
  (* obtain random indexes to sample the real images *)
  let! ix := randint 0 (shape0 dataset) n_samples in
  (* sample the real images *)
  let! X := take_items dataset ix in
  (* assign the -1 label *)
  let y := neg (ones_n1 n_samples) in
  ret (X, y).

Definition generate_latent_points (latent_dim n_samples : nat) : M ndarray :=
  let! x_input := randn (latent_dim * n_samples) in
  let x_input := reshape x_input n_samples latent_dim in
  ret x_input.

Definition generate_fake_samples (generator : Sequential)
    (latent_dim n_samples : nat) : M (ndarray * ndarray) :=
  let! x_input := generate_latent_points latent_dim n_samples in
  (* predict outputs *)
  let! X := predict generator x_input in
  (* assign the 1 label *)
  let y := ones_n1 n_samples in
  ret (X, y).

(** ** Cells 11 and 12: reporting *)

(** [pyplot.savefig(name)] and [model.save(name)]. *)
Definition write_file (f : file) : M unit :=
  if write_ok f then emit (EvSaved f) else raise OSError.

Definition summarize_performance (step : nat) (g_model : Sequential)
    (latent_dim : nat) (n_samples : nat) : M unit :=
  (* use the generator to create fake data *)
  let! '(X, _) := generate_fake_samples g_model latent_dim n_samples in
  (* scale from [-1,1] to [0,1] *)
  let X := mkArray (item_shape X)
             (map (map (fun v => ((v + 1) / 2)%Q)) (items X)) in
  (* plot images: X[i, :, :, 0] for i in range(4 * 6) *)
  if decide (4 * 6 <= shape0 X /\ length (item_shape X) = 3)
  then
    (* save plot *)
    do! write_file (PlotFile (step + 1)) in
    (* save the model *)
    do! write_file (ModelFile (step + 1)) in
    emit (EvPrintSaved (step + 1))
  else raise IndexError.

Definition plot_history (d1_hist d2_hist g_hist : list npfloat) : M unit :=
  if write_ok LossPlotFile
  then do! emit (EvPlotHistory d1_hist d2_hist g_hist) in
       emit (EvSaved LossPlotFile)
  else raise OSError.

(** ** Cell 13: the training loop *)

(** [mean] of numpy on a list of Python floats. *)
Definition finite_values (l : list npfloat) : option (list Q) :=
  mapM (fun x => match x with Finite q => Some q | NaN => None end) l.

Definition np_mean (l : list npfloat) : npfloat :=
  match finite_values l with
  | Some qs => mean qs
  | None => NaN
  end.

(** [int(a / b)] and [a % b] on natural numbers. *)
Definition int_div (a b : nat) : M nat :=
  match b with
  | O => raise ZeroDivisionError
  | S _ => ret (a / b)
  end.

Definition py_mod (a b : nat) : M nat :=
  match b with
  | O => raise ZeroDivisionError
  | S _ => ret (a mod b)
  end.

(** The three lists [c1_hist, c2_hist, g_hist] of [train]. *)
Record history := mkHistory {
  c1_hist : list npfloat;
  c2_hist : list npfloat;
  g_hist : list npfloat }.

(** The arguments of [train]. *)
Record train_args := mkArgs {
  g_model : Sequential;
  c_model : Sequential;
  gan_model : Sequential;
  dataset : ndarray;
  latent_dim : nat;
  n_epochs : nat;
  n_batch : nat;
  n_critic : nat }.

Section Train.
Variable args : train_args.

(** The first half of the body of [for _ in range(n_critic)]. *)
Definition critic_real_update (half_batch : nat) : M npfloat :=
  (* sample from the data *)
  let! '(X_real, y_real) := generate_real_samples (dataset args) half_batch in
  (* update critic based on real images *)
  train_on_batch (c_model args) X_real y_real.

(** The second half. *)
Definition critic_fake_update (half_batch : nat) : M npfloat :=
  (* use the latest iteration of the generator to create fake images *)
  let! '(X_fake, y_fake) :=
    generate_fake_samples (g_model args) (latent_dim args) half_batch in
  (* update critic based on fake images *)
  train_on_batch (c_model args) X_fake y_fake.

(** One pass of the body of [for _ in range(n_critic)]. *)
Definition critic_substep (half_batch : nat) (tmp : list npfloat * list npfloat)
  : M (list npfloat * list npfloat) :=
  let '(c1_tmp, c2_tmp) := tmp in
  let! c_loss1 := critic_real_update half_batch in
  let c1_tmp := c1_tmp ++ [c_loss1] in
  let! c_loss2 := critic_fake_update half_batch in
  let c2_tmp := c2_tmp ++ [c_loss2] in
  ret (c1_tmp, c2_tmp).

(** [for _ in range(k)] over [critic_substep]. *)
Fixpoint critic_loop (half_batch k : nat) (tmp : list npfloat * list npfloat)
  : M (list npfloat * list npfloat) :=
  match k with
  | O => ret tmp
  | S k' =>
      let! tmp := critic_substep half_batch tmp in
      critic_loop half_batch k' tmp
  end.

(** What one training step does after the critic loop. *)
Definition generator_phase (bat_per_epo i : nat)
    (tmp : list npfloat * list npfloat) (hist : history) : M history :=
  let '(c1_tmp, c2_tmp) := tmp in
  (* store critic loss *)
  let c1_hist := c1_hist hist ++ [np_mean c1_tmp] in
  let c2_hist := c2_hist hist ++ [np_mean c2_tmp] in
  (* prepare the latent points and label them *)
  let! X_gan := generate_latent_points (latent_dim args) (n_batch args) in
  let y_gan := neg (ones_n1 (n_batch args)) in
  (* update the generator through the critic *)
  let! g_loss := train_on_batch (gan_model args) X_gan y_gan in
  let g_hist := g_hist hist ++ [g_loss] in
  (* summarize loss for current iteration *)
  do! emit (EvPrintLosses (i + 1) (default NaN (last c1_hist))
              (default NaN (last c2_hist)) g_loss) in
  (* assess the evolution for the current iteration *)
  let! r := py_mod (i + 1) bat_per_epo in
  do! (if decide (r = 0)
       then summarize_performance i (g_model args) (latent_dim args) 100
       else ret tt) in
  ret (mkHistory c1_hist c2_hist g_hist).

(** The body of [for i in range(n_steps)]. *)
Definition train_step (bat_per_epo half_batch i : nat) (hist : history)
  : M history :=
  (* update the critic more than the generator *)
  let! tmp := critic_loop half_batch (n_critic args) ([], []) in
  generator_phase bat_per_epo i tmp hist.

(** [for i in range(first, first + n)] over [train_step]. *)
Fixpoint train_loop (bat_per_epo half_batch first n : nat) (hist : history)
  : M history :=
  match n with
  | O => ret hist
  | S n' =>
      let! hist := train_step bat_per_epo half_batch first hist in
      train_loop bat_per_epo half_batch (S first) n' hist
  end.

(** [train]; the three lists are returned for the statements below (the
    Python function hands them to [plot_history] and returns nothing). *)
Definition train : M history :=
  (* batches per training epoch and training iterations *)
  let! bat_per_epo := int_div (shape0 (dataset args)) (n_batch args) in
  let n_steps := bat_per_epo * n_epochs args in
  let! half_batch := int_div (n_batch args) 2 in
  (* lists for keeping track of loss *)
  let hist := mkHistory [] [] [] in
  let! hist := train_loop bat_per_epo half_batch 0 n_steps hist in
  (* plot the evolution of the losses *)
  do! plot_history (c1_hist hist) (c2_hist hist) (g_hist hist) in
  ret hist.


End Train.

(** ** Cell 14: the set-up *)

(** [critic = define_critic(); generator = define_generator(latent_dim);
     wgan_model = define_wgan(generator, critic)]. *)
Definition setup (latent_dim : nat) : M (Sequential * Sequential * Sequential) :=
  let! critic := define_critic [80; 80; 1] in
  let! generator := define_generator latent_dim in
  let! wgan_model := define_wgan generator critic in
  ret (generator, critic, wgan_model).

(** The state of a fresh Python process. *)
Definition fresh : state := mkState [] 0 0 [].

(** The models of the set-up (empty models should the set-up raise) and
    the state it leaves. *)
Definition models (latent_dim : nat) : Sequential * Sequential * Sequential :=
  default (Sequential_new, Sequential_new, Sequential_new)
    (value_of (setup latent_dim fresh)).

Definition generator (latent_dim : nat) : Sequential := (models latent_dim).1.1.
Definition critic (latent_dim : nat) : Sequential := (models latent_dim).1.2.
Definition wgan_model (latent_dim : nat) : Sequential := (models latent_dim).2.

Definition ready (latent_dim : nat) : state :=
  final_state (setup latent_dim fresh).

(** [train(generator, critic, wgan_model, dataset, latent_dim, ...)]. *)
Definition notebook_args (latent_dim : nat) (data : ndarray)
    (n_epochs n_batch n_critic : nat) : train_args :=
  mkArgs (generator latent_dim) (critic latent_dim) (wgan_model latent_dim)
    data latent_dim n_epochs n_batch n_critic.

End Notebook.

(** ** Two implementations of the interface *)

Module Demo.

(** The value the stack [ls] holds for the weight [j] of the layer at
    address [a]. *)
Definition current (ls : list (nat * layer)) (a j : nat) : tensor :=
  match list_find (fun p => fst p = a) ls with
  | Some (_, (_, l)) => default [] (v_value <$> l_weights l !! j)
  | None => []
  end.

(** A backend whose gradients are all zero: the optimizer computes, for
    every weight, the value the weight has.  Initializers draw zeros,
    the random integers count up, the generator paints black images of
    its output size, every write succeeds. *)
Definition still : Backend := {|
  random_init _ _ n := replicate n 0%Q;
  randint_raw k := k;
  randn_raw _ := 0%Q;
  predict_sample ls _ :=
    replicate (tensor_size (default [] (l_output_shape ∘ snd <$> last ls))) 0%Q;
  fit _ _ ls _ _ := Some (Finite 0, current ls);
  write_ok _ := true |}.

(** As [still], with an optimizer that moves every entry of every
    weight to 1. *)
Definition push : Backend := {|
  random_init _ _ n := replicate n 0%Q;
  randint_raw k := k;
  randn_raw _ := 0%Q;
  predict_sample ls _ :=
    replicate (tensor_size (default [] (l_output_shape ∘ snd <$> last ls))) 0%Q;
  fit k _ ls _ _ :=
    Some (Finite (inject_Z (Z.of_nat k)),
          fun a j => map (fun _ => 1%Q) (current ls a j));
  write_ok _ := true |}.

(** As [still], on a disk that refuses every checkpoint file. *)
Definition disk_full : Backend := {|
  random_init _ _ n := replicate n 0%Q;
  randint_raw k := k;
  randn_raw _ := 0%Q;
  predict_sample ls _ :=
    replicate (tensor_size (default [] (l_output_shape ∘ snd <$> last ls))) 0%Q;
  fit _ _ ls _ _ := Some (Finite 0, current ls);
  write_ok f := match f with LossPlotFile => true | _ => false end |}.

(** As [still], on a disk that takes the checkpoint files and refuses
    the plot of the loss curves. *)
Definition no_curves : Backend := {|
  random_init _ _ n := replicate n 0%Q;
  randint_raw k := k;
  randn_raw _ := 0%Q;
  predict_sample ls _ :=
    replicate (tensor_size (default [] (l_output_shape ∘ snd <$> last ls))) 0%Q;
  fit _ _ ls _ _ := Some (Finite 0, current ls);
  write_ok f := match f with LossPlotFile => false | _ => true end |}.

(** A data set of [n] black images of the given shape. *)
Definition black (n : nat) (s : shape) : ndarray :=
  mkArray s (replicate n (replicate (tensor_size s) 0%Q)).

End Demo.

(** ** Notions used in the statements *)

(** The indices [generate_real_samples] draws in state [s] for a data
    set of [N] images. *)
Definition drawn_indices `{Backend} (N n : nat) (s : state) : list nat :=
  map (fun k => 0 + randint_raw (rng_pos s + k) mod (N - 0)) (seq 0 n).

(** A layer without the values of its weights: what is fixed when the
    layer is built, and its flag. *)
Definition erase_variable (v : variable) : variable := set_value v [].

Definition erase_layer (l : layer) : layer :=
  set_weights l (map erase_variable (l_weights l)).

Definition skeleton (h : list layer) : list layer := map erase_layer h.

#[global] Instance Q_eq_dec : EqDecision Q.
Proof. solve_decision. Defined.

#[global] Instance ClipConstraint_eq_dec : EqDecision ClipConstraint.
Proof. solve_decision. Defined.

(** Every weight of [l], with its index, passes the test [P]. *)
Definition weights_all (P : nat -> variable -> bool) (l : layer) : bool :=
  forallb (fun p => P p.1 p.2) (imap pair (l_weights l)).

(** Every address of [ls] holds a layer in [h] that passes the test [P]. *)
Definition layers_all (h : list layer) (ls : list nat)
    (P : nat -> layer -> bool) : bool :=
  forallb (fun a => match h !! a with Some l => P a l | None => false end) ls.

Definition is_Conv2D (k : layer_kind) : bool :=
  match k with
  | Conv2D _ _ _ _ => true
  | _ => false
  end.

(** The weights a compiled model collected (none when not compiled). *)
Definition collected (m : Sequential) : list (nat * nat) :=
  match s_compiled m with
  | Some c => c_trainable_weights c
  | None => []
  end.

(** The critic [c] is compiled and has collected every trainable
    variable of its layers; a variable with a constraint is trainable
    and its constraint is [const]; the kernels of the [Conv2D] layers
    have this constraint. *)
Definition critic_collects (h : list layer) (c : Sequential) : bool :=
  bool_decide (is_Some (s_compiled c))
  && layers_all h (s_layers c) (fun a l =>
       weights_all (fun j v =>
         implb (v_trainable v) (bool_decide ((a, j) ∈ collected c))
         && match v_constraint v with
            | Some k => v_trainable v && bool_decide (k = const)
            | None => true
            end
         && implb (is_Conv2D (l_kind l) && bool_decide (v_name v = "kernel"%string))
              (bool_decide (v_constraint v = Some const))) l).

(** In the critic [c], the normalization layers are trainable and have
    no constrained variable; the other layers are not trainable and the
    composite [gan] has collected none of their variables. *)
Definition composite_spares (h : list layer) (c gan : Sequential) : bool :=
  bool_decide (is_Some (s_compiled gan))
  && layers_all h (s_layers c) (fun a l =>
       if is_BatchNormalization (l_kind l)
       then l_trainable l
            && weights_all (fun _ v => bool_decide (v_constraint v = None)) l
       else negb (l_trainable l)
            && weights_all (fun j _ => negb (bool_decide ((a, j) ∈ collected gan))) l).





(** The events of one checkpoint, for the step with one-based index
    [tag]. *)
Definition checkpoint_events (tag : nat) : list event :=
  [EvSaved (PlotFile tag); EvSaved (ModelFile tag); EvPrintSaved tag].

(** One update of the critic on [n] images of the data set, all
    labelled -1, with the loss it returned. *)
Definition is_real_update (args : train_args) (n : nat) (loss : npfloat)
    (e : event) : Prop :=
  exists X,
    e = EvTrainOnBatch (s_layers (c_model args)) X (neg (ones_n1 n)) loss
    /\ shape0 X = n
    /\ Forall (fun x => x ∈ items (dataset args)) (items X).

(** One update of the critic on [n] outputs of the generator, all
    labelled +1. *)
Definition is_fake_update `{Backend} (args : train_args) (n : nat)
    (loss : npfloat) (e : event) : Prop :=
  exists X h zs,
    e = EvTrainOnBatch (s_layers (c_model args)) X (ones_n1 n) loss
    /\ shape0 X = n
    /\ length zs = n
    /\ items X = map (predict_sample (resolve h (s_layers (g_model args)))) zs.

(** One update through the composite on [n_batch] latent points, all
    labelled -1. *)
Definition is_generator_update (args : train_args) (loss : npfloat)
    (e : event) : Prop :=
  exists X,
    e = EvTrainOnBatch (s_layers (gan_model args)) X
          (neg (ones_n1 (n_batch args))) loss
    /\ shape0 X = n_batch args
    /\ item_shape X = [latent_dim args].

(** The events of a critic loop: per pass, an update on real images and
    then an update on generated images; with the losses of the two kinds
    of update, in order. *)
Inductive critic_phase `{Backend} (args : train_args) (n : nat)
  : list npfloat -> list npfloat -> list event -> Prop :=
| critic_phase_nil : critic_phase args n [] [] []
| critic_phase_cons l1 l2 e1 e2 c1 c2 evs :
    is_real_update args n l1 e1 ->
    is_fake_update args n l2 e2 ->
    critic_phase args n c1 c2 evs ->
    critic_phase args n (l1 :: c1) (l2 :: c2) (e1 :: e2 :: evs).

(** What the training step with zero-based index [i] does: the events
    [tr] it adds to the trace and the history it returns. *)
Definition step_shape `{Backend} (args : train_args)
    (bat_per_epo half_batch i : nat) (hist hist' : history)
    (tr : list event) : Prop :=
  exists c1 c2 evs g_loss g_ev,
    critic_phase args half_batch c1 c2 evs
    /\ length c1 = n_critic args /\ length c2 = n_critic args
    /\ is_generator_update args g_loss g_ev
    /\ hist' = mkHistory (c1_hist hist ++ [np_mean c1])
                 (c2_hist hist ++ [np_mean c2]) (g_hist hist ++ [g_loss])
    /\ tr = evs
            ++ [g_ev; EvPrintLosses (i + 1) (np_mean c1) (np_mean c2) g_loss]
            ++ (if decide ((i + 1) mod bat_per_epo = 0)
                then checkpoint_events (i + 1) else []).

(** The steps [first, first + 1, ..., first + n - 1] in a row. *)
Inductive loop_shape `{Backend} (args : train_args)
    (bat_per_epo half_batch : nat)
  : nat -> nat -> history -> history -> list event -> Prop :=
| loop_shape_nil first hist :
    loop_shape args bat_per_epo half_batch first 0 hist hist []
| loop_shape_cons first n hist hist1 hist2 tr1 tr2 :
    step_shape args bat_per_epo half_batch first hist hist1 tr1 ->
    loop_shape args bat_per_epo half_batch (S first) n hist1 hist2 tr2 ->
    loop_shape args bat_per_epo half_batch first (S n) hist hist2 (tr1 ++ tr2).

(** The one-based indices of the steps a trace completed (each step
    prints its losses once) and of the checkpoints it saved. *)
Definition completed_steps (tr : list event) : list nat :=
  omap (fun e => match e with EvPrintLosses i _ _ _ => Some i | _ => None end) tr.

Definition checkpoints (tr : list event) : list nat :=
  omap (fun e => match e with EvSaved (ModelFile t) => Some t | _ => None end) tr.

(** The numerical kernels never raise and every file can be written. *)
Definition healthy `{Backend} : Prop :=
  (forall k loss ls X y, is_Some (fit k loss ls X y))
  /\ (forall f, write_ok f = true).

(** The arguments of [train] fit together: the models are compiled, the
    critic takes the images of the data set and of the generator, the
    generator and the composite take latent points of [latent_dim]
    entries, critic and composite give one score per sample, the batch
    is not empty and, when the critic loop runs, neither is half a
    batch. *)
Definition fits (args : train_args) : Prop :=
  is_Some (s_compiled (c_model args))
  /\ is_Some (s_compiled (gan_model args))
  /\ s_input_shape (c_model args) = Some (item_shape (dataset args))
  /\ s_output_shape (c_model args) = [1]
  /\ s_input_shape (g_model args) = Some [latent_dim args]
  /\ s_output_shape (g_model args) = item_shape (dataset args)
  /\ length (item_shape (dataset args)) = 3
  /\ s_input_shape (gan_model args) = Some [latent_dim args]
  /\ s_output_shape (gan_model args) = [1]
  /\ 0 < n_batch args
  /\ (1 <= n_critic args -> 2 <= n_batch args).


(** The state a checkpoint leaves: only the random generator and the
    trace have moved. *)
Definition after_checkpoint (L n tag : nat) (s : state) : state :=
  mkState (heap s) (rng_pos s + L * n) (calls s)
    (trace s ++ checkpoint_events tag).


(** ** Concrete runs *)

Module Runs.

(** The notebook's models on two black images: one epoch of one step,
    batches of two, one pass of the critic loop per step. *)
Definition tiny : train_args :=
  @notebook_args Demo.still 3 (Demo.black 2 [80; 80; 1]) 1 2 1.

(** The scenario of the specification with images of the size the
    networks are built for: 100 images, batches of 10, two passes of the
    critic loop per step, one epoch. *)
Definition scenario : train_args :=
  @notebook_args Demo.still 10 (Demo.black 100 [80; 80; 1]) 1 10 2.

(** Three images and batches of ten. *)
Definition starved : train_args :=
  @notebook_args Demo.still 10 (Demo.black 3 [80; 80; 1]) 1 10 2.

(** Twenty images, batches of ten, two epochs, on a disk that refuses
    the checkpoint files: four steps are due, checkpoints after the
    second and the fourth. *)
Definition unsaved : train_args :=
  @notebook_args Demo.disk_full 10 (Demo.black 20 [80; 80; 1]) 2 10 1.

(** Images of 8 by 8 pixels for the critic built for 80 by 80. *)
Definition misshaped : train_args :=
  @notebook_args Demo.still 10 (Demo.black 100 [8; 8; 1]) 1 10 2.



(** As [tiny], with a batch size of zero. *)
Definition unbatched : train_args :=
  @notebook_args Demo.still 3 (Demo.black 2 [80; 80; 1]) 1 0 1.

(** As [tiny], without a pass of the critic loop. *)
Definition generator_only : train_args :=
  @notebook_args Demo.still 3 (Demo.black 2 [80; 80; 1]) 1 2 0.

(** As [tiny], on the disk that refuses the plot of the loss curves. *)
Definition uncharted : train_args :=
  @notebook_args Demo.no_curves 3 (Demo.black 2 [80; 80; 1]) 1 2 1.

(** Twenty images, batches of ten, two epochs: four steps. *)
Definition two_epochs : train_args :=
  @notebook_args Demo.still 10 (Demo.black 20 [80; 80; 1]) 2 10 1.

(** As [tiny], with the optimizer that moves every entry to 1. *)
Definition tiny_pushed : train_args :=
  @notebook_args Demo.push 3 (Demo.black 2 [80; 80; 1]) 1 2 1.

(** As [tiny], with batches of one image: the half batch is empty. *)
Definition single : train_args :=
  @notebook_args Demo.still 3 (Demo.black 2 [80; 80; 1]) 1 1 1.

End Runs.


(** In the critic [c], the composite [gan] has collected the trainable
    variables of the normalization layers. *)
Definition composite_trains_norm (h : list layer) (c gan : Sequential) : bool :=
  layers_all h (s_layers c) (fun a l =>
    if is_BatchNormalization (l_kind l)
    then weights_all (fun j v =>
           implb (v_trainable v) (bool_decide ((a, j) ∈ collected gan))) l
    else true).


(** Between the states [s] and [s'], [k] layer objects were allocated
    behind the layers of [s], which are as they were; the model [m]
    holds exactly the new layers, in order; nothing else has changed. *)
Definition grown (s : state) (k : nat) (m : Sequential) (s' : state) : Prop :=
  (exists new, heap s' = heap s ++ new /\ length new = k)
  /\ s_layers m = seq (length (heap s)) k
  /\ rng_pos s' = rng_pos s /\ calls s' = calls s /\ trace s' = trace s.

(** The side of a feature map after a convolution of stride 2 with
    [padding='same']. *)
Definition halved (n : nat) : nat := same_out n 2.



(** ** Cell 7: loading the images *)

(** The Python float [127.5]; single precision holds it exactly. *)
Definition f127_5 : float32 := SpecFloat.binary_normalize 24 128 255 (-1) false.

(** [x.astype('float32')] on one grey level of a [uint8] array. *)
Definition astype_float32 (b : Byte.byte) : float32 :=
  float32_of_Z (Z.of_N (Byte.to_N b)).

(** [-(x - 127.5) / 127.5] on one entry of a [float32] array. *)
Definition rescale (x : float32) : float32 :=
  float32_div (float32_opp (float32_sub x f127_5)) f127_5.

(** The entry a grey level ends up as. *)
Definition level (b : Byte.byte) : Q := float32_to_Q (rescale (astype_float32 b)).

(** [(127.5 - p) / 127.5] without rounding. *)
Definition exact_level (b : Byte.byte) : Q :=
  ((255 - 2 * inject_Z (Z.of_N (Byte.to_N b))) / 255)%Q.

(** [l[lo:hi]] for [0 <= lo <= hi]. *)
Definition py_slice {A} (lo hi : nat) (l : list A) : list A :=
  take (hi - lo) (drop lo l).

(** [X[0, :, 0] = v] on an array given by its rows: index 0 must exist
    on the first axis. *)
Definition set_first_row {A} (v : A) (X : list (list A))
  : option (list (list A)) :=
  match X with
  | [] => None
  | r :: rest => Some (map (fun _ => v) r :: rest)
  end.

(** [X[:, 0, 0] = v]: index 0 must exist on the second axis. *)
Definition set_first_column {A} (v : A) (X : list (list A))
  : option (list (list A)) :=
  mapM (fun r => match r with
                 | [] => None
                 | _ :: r' => Some (v :: r')
                 end) X.

(** Broadcasting one axis to length [n]: the axis has length [n] or 1. *)
Definition broadcast_to {A} (n : nat) (l : list A) : option (list A) :=
  if decide (length l = n) then Some l
  else match l with
       | [x] => Some (replicate n x)
       | _ => None
       end.

(** [X[i] = X_i] for the slot [X[i]] of shape [(80, 80, 1)]: the rows
    of [X_i], broadcast, laid end to end. *)
Definition assign_image (X_i : list (list Q)) : option tensor :=
  rows ← mapM (broadcast_to 80) X_i;
  (fun rows => concat rows) <$> broadcast_to 80 rows.

(** The body of the loop of [load_real_samples] after the image was
    opened. *)
Definition prepare_image (img : list (list Byte.byte)) : M tensor :=
  let X_i := map (py_slice 1 81) (py_slice 1 81 img) in
  let X_i := map (map astype_float32) X_i in
  match set_first_row (float32_of_Z 255) X_i with
  | None => raise IndexError
  | Some X_i =>
      match set_first_column (float32_of_Z 255) X_i with
      | None => raise IndexError
      | Some X_i =>
          let X_i := map (map rescale) X_i in
          match assign_image (map (map float32_to_Q) X_i) with
          | None => raise ValueError
          | Some x => ret x
          end
      end
  end.

(** What [load_real_samples] takes from [os] and PIL:
    - [listdir]: the names [os.listdir("Fingerprint images/Real")]
      returns, in its order; [None] when it raises;
    - [open_gray name]: the array [np.asarray] gives for the image
      [name] of the directory, opened, resized to 84 by 84 and converted
      to grey levels, as rows of bytes; [None] when PIL raises. *)
Class Imaging := {
  listdir : option (list string);
  open_gray : string -> option (list (list Byte.byte)) }.

Section Loading.
Context `{I : Imaging}.

(** [for i in range(...)], over the given indices. *)
Fixpoint load_images (path_to_image : list string) (indices : list nat)
  : M (list tensor) :=
  match indices with
  | [] => ret []
  | i :: indices =>
      match path_to_image !! i with
      | None => raise IndexError
      | Some name =>
          match open_gray name with
          | None => raise OSError
          | Some img =>
              let! x := prepare_image img in
              let! xs := load_images path_to_image indices in
              ret (x :: xs)
          end
      end
  end.

(** [load_real_samples()], for the 6000 images it reads. *)
Definition load_real_samples : M ndarray :=
  match listdir with
  | None => raise OSError
  | Some path_to_image =>
      let! X := load_images path_to_image (seq 0 (60 * 100)) in
      ret (mkArray [80; 80; 1] X)
  end.

End Loading.

(** The grey level at row [r] and column [c] of an image. *)
Definition pixel (img : list (list Byte.byte)) (r c : nat) : option Byte.byte :=
  img !! r ≫= fun row => row !! c.

(** An array of 84 rows of 84 grey levels. *)
Definition resized (img : list (list Byte.byte)) : Prop :=
  length img = 84 /\ Forall (fun row => length row = 84) img.

(** A directory of white images, all under one name. *)
Definition white_files (n : nat) : Imaging := {|
  listdir := Some (replicate n "f.png"%string);
  open_gray _ := Some (replicate 84 (replicate 84 Byte.xff)) |}.

(** The facts about one grey level that are checked by running the
    arithmetic: the result is finite, lies in [[-1, 1]] and is within
    [2^-25] of the quotient without rounding. *)
Definition level_check (b : Byte.byte) : bool :=
  is_finite (rescale (astype_float32 b))
  && Qle_bool (- (1)) (level b) && Qle_bool (level b) 1
  && Qle_bool (exact_level b - (1 # 33554432)) (level b)
  && Qle_bool (level b) (exact_level b + (1 # 33554432)).

(** The tensor [x] is the image [img] as the loop of
    [load_real_samples] stores it: 80 rows of 80 entries; the first row
    and the first column hold the level of white; the entry at row [r]
    and column [c] elsewhere is the level of the grey at row [r + 1]
    and column [c + 1] of [img]. *)
Definition scaled_crop (img : list (list Byte.byte)) (x : tensor) : Prop :=
  length x = 80 * 80
  /\ forall r c, r < 80 -> c < 80 ->
       exists b,
         pixel img (1 + r) (1 + c) = Some b
         /\ x !! (r * 80 + c)
            = Some (if (r =? 0) || (c =? 0) then level Byte.xff else level b).

(** The name at index [i] of the listing opens to an image of 84 by 84
    pixels. *)
Definition readable `{Imaging} (names : list string) (i : nat) : Prop :=
  exists name img,
    names !! i = Some name /\ open_gray name = Some img /\ resized img.

(* ================================================================== *)
(** * Part II: theorems                                                *)
(* ================================================================== *)

(** ** Single precision *)

Lemma float32_leb_refl (x : float32) : is_nan x = false -> float32_leb x x = true.
Proof.
  destruct x as [s | [|] | | s m e]; intros H; try discriminate; try reflexivity;
    cbn; apply Qle_bool_iff, Qle_refl.
Qed.

Lemma float32_leb_nan_l (x y : float32) : float32_leb x y = true -> is_nan x = false.
Proof. now destruct x. Qed.

Lemma float32_leb_nan_r (x y : float32) : float32_leb x y = true -> is_nan y = false.
Proof. destruct x as [| [|] | |], y; try reflexivity; discriminate. Qed.

Lemma float32_leb_total (x y : float32) :
  is_nan x = false -> is_nan y = false ->
  float32_leb x y = false -> float32_leb y x = true.
Proof.
  intros Hx Hy H.
  destruct x as [s | [|] | | s m e], y as [s' | [|] | | s' m' e'];
    cbn [float32_leb] in *; try discriminate; try reflexivity;
    apply Qle_bool_iff, Qlt_le_weak, Qnot_le_lt; intros Hle;
    apply Qle_bool_iff in Hle; congruence.
Qed.

Lemma float32_leb_trans (x y z : float32) :
  float32_leb x y = true -> float32_leb y z = true -> float32_leb x z = true.
Proof.
  intros H1 H2.
  destruct x as [s | [|] | | s m e], y as [s' | [|] | | s' m' e'],
           z as [s'' | [|] | | s'' m'' e''];
    cbn [float32_leb] in *; try discriminate; try reflexivity;
    apply Qle_bool_iff; apply Qle_bool_iff in H1, H2;
    (eapply Qle_trans; [exact H1 | exact H2]).
Qed.

Lemma float32_leb_Qle (x y : float32) :
  is_finite x = true -> is_finite y = true ->
  float32_leb x y = true <-> (float32_to_Q x <= float32_to_Q y)%Q.
Proof.
  intros Hx Hy.
  destruct x as [s | [|] | | s m e], y as [s' | [|] | | s' m' e'];
    try discriminate; cbn [float32_leb]; apply Qle_bool_iff.
Qed.

Lemma float32_same_refl (x : float32) : float32_same x x.
Proof.
  unfold float32_same. destruct (is_nan x) eqn:E; [reflexivity |].
  split; now apply float32_leb_refl.
Qed.

Lemma binary_round_aux_opp (m e : Z) (l : SpecFloat.location) :
  SpecFloat.binary_round_aux 24 128 true m e l
  = float32_opp (SpecFloat.binary_round_aux 24 128 false m e l).
Proof.
  unfold SpecFloat.binary_round_aux.
  destruct (SpecFloat.shr_fexp 24 128 m e l) as [mrs' e'].
  destruct (SpecFloat.shr_fexp 24 128 _ e' _) as [mrs'' e''].
  destruct (SpecFloat.shr_m mrs''); [reflexivity | | reflexivity].
  now destruct (Z.leb _ _).
Qed.

Lemma binary_round_aux_signless (m e : Z) (l : SpecFloat.location) :
  signless (SpecFloat.binary_round_aux 24 128 false m e l).
Proof.
  unfold SpecFloat.binary_round_aux.
  destruct (SpecFloat.shr_fexp 24 128 m e l) as [mrs' e'].
  destruct (SpecFloat.shr_fexp 24 128 _ e' _) as [mrs'' e''].
  destruct (SpecFloat.shr_m mrs''); [reflexivity | | exact I].
  now destruct (Z.leb _ _).
Qed.

Lemma float32_of_Q_signless (c : Q) : (0 < c)%Q -> signless (float32_of_Q c).
Proof.
  intros Hc. unfold float32_of_Q. destruct c as [[| n | n] d]; cbn [Qnum Qden].
  - reflexivity.
  - unfold float32_div, SpecFloat.SFdiv.
    destruct (SpecFloat.SFdiv_core_binary 24 128 _ _ _ _) as [[mz ez] lz].
    apply binary_round_aux_signless.
  - exfalso. revert Hc. unfold Qlt. cbn. lia.
Qed.

Lemma float32_of_Q_opp (c : Q) :
  (0 < c)%Q -> float32_of_Q (- c) = float32_opp (float32_of_Q c).
Proof.
  intros Hc. unfold float32_of_Q.
  destruct c as [[| n | n] d].
  - exfalso. revert Hc. unfold Qlt. cbn. lia.
  - change (Qnum (- (Z.pos n # d))) with (Z.neg n).
    change (Qden (- (Z.pos n # d))) with d. cbn [Qnum Qden].
    unfold float32_div, SpecFloat.SFdiv.
    destruct (SpecFloat.SFdiv_core_binary 24 128 _ _ _ _) as [[mz ez] lz].
    cbn [xorb]. apply binary_round_aux_opp.
  - exfalso. revert Hc. unfold Qlt. cbn. lia.
Qed.

Lemma float32_of_Q_zero (c : Q) :
  (c == 0)%Q -> float32_of_Q c = SpecFloat.S754_zero false.
Proof.
  intros Hc. unfold float32_of_Q. destruct c as [[| n | n] d]; cbn [Qnum];
    [reflexivity | |]; exfalso; revert Hc; unfold Qeq; cbn; lia.
Qed.

Lemma float32_mantissa_nonneg (m : positive) (e : Z) :
  (0 <= inject_Z (Z.pos m) * Qpower 2 e)%Q.
Proof.
  apply Qmult_le_0_compat; [| now apply Qpower_0_le].
  unfold Qle. cbn. lia.
Qed.

Lemma float32_leb_opp_signless (b : float32) :
  signless b -> is_nan b = false -> float32_leb (float32_opp b) b = true.
Proof.
  destruct b as [s | s | | s m e]; cbn [signless is_nan]; intros Hs Hn; subst;
    try discriminate; try reflexivity.
  cbn [float32_opp SpecFloat.SFopp negb float32_leb]. apply Qle_bool_iff.
  cbn [float32_to_Q]. pose proof (float32_mantissa_nonneg m e) as H.
  set (v := (inject_Z (Z.pos m) * Qpower 2 e)%Q) in *. cbn zeta. lra.
Qed.

Lemma is_nan_opp (b : float32) : is_nan (float32_opp b) = is_nan b.
Proof. now destruct b. Qed.

(** What [maximum(minimum(x, hi), lo)] is. *)
Lemma clip_entry_cases (lo hi x : float32) :
  is_nan lo = false -> is_nan hi = false -> float32_leb lo hi = true ->
  let r := float32_maximum (float32_minimum x hi) lo in
  (is_nan x = true /\ r = SpecFloat.S754_nan)
  \/ (is_nan x = false
      /\ ((r = x /\ float32_leb lo x = true /\ float32_leb x hi = true)
          \/ (r = hi /\ float32_leb hi x = true)
          \/ (r = lo /\ float32_leb x lo = true))).
Proof.
  intros Hlo Hhi Hle r. subst r. unfold float32_minimum, float32_maximum.
  destruct (is_nan x) eqn:Hx; [left; now rewrite Hhi |].
  right. split; [reflexivity |]. rewrite Hhi. cbn [orb].
  destruct (float32_leb x hi) eqn:E1.
  - rewrite Hx, Hlo. cbn [orb]. destruct (float32_leb lo x) eqn:E2.
    + left. done.
    + right. right. split; [reflexivity |]. now apply float32_leb_total.
  - rewrite Hhi, Hlo, Hle. cbn [orb]. right. left. split; [reflexivity |].
    now apply float32_leb_total.
Qed.

Lemma clip_entry_nan (lo hi x : float32) :
  is_nan lo = true \/ is_nan hi = true \/ is_nan x = true ->
  float32_maximum (float32_minimum x hi) lo = SpecFloat.S754_nan.
Proof.
  unfold float32_maximum, float32_minimum.
  intros [H | [H | H]]; rewrite H; rewrite ?orb_true_r; cbn [orb is_nan];
    reflexivity.
Qed.

Lemma clip_entry_fixed (lo hi y : float32) :
  float32_leb lo y = true -> float32_leb y hi = true ->
  float32_maximum (float32_minimum y hi) lo = y.
Proof.
  intros H1 H2. unfold float32_maximum, float32_minimum.
  rewrite (float32_leb_nan_r _ _ H1), (float32_leb_nan_r _ _ H2), H2. cbn [orb].
  now rewrite (float32_leb_nan_r _ _ H1), (float32_leb_nan_l _ _ H1), H1.
Qed.

(** The clip between [-b] and [b], entry by entry. *)
Lemma clip_entry_pos (b x : float32) :
  signless b ->
  let r := float32_maximum (float32_minimum x b) (float32_opp b) in
  (is_nan r = true \/ float32_within b r)
  /\ float32_maximum (float32_minimum r b) (float32_opp b) = r
  /\ (is_nan x = true -> is_nan r = true)
  /\ (float32_within b x -> r = x).
Proof.
  intros Hs r.
  assert (Hin : float32_within b x -> r = x).
  { intros [H1 H2]. now apply clip_entry_fixed. }
  destruct (is_nan b) eqn:Hb.
  - assert (Hr : forall y, float32_maximum (float32_minimum y b) (float32_opp b)
                           = SpecFloat.S754_nan)
      by (intros y; apply clip_entry_nan; now right; left).
    subst r. rewrite !Hr. split; [now left |]. split; [reflexivity |].
    split; [reflexivity |]. intros [_ H]. apply float32_leb_nan_r in H.
    congruence.
  - assert (Hlo : is_nan (float32_opp b) = false) by now rewrite is_nan_opp.
    pose proof (float32_leb_opp_signless b Hs Hb) as Hle.
    assert (Hbb : float32_leb b b = true) by now apply float32_leb_refl.
    assert (Hll : float32_leb (float32_opp b) (float32_opp b) = true)
      by now apply float32_leb_refl.
    destruct (clip_entry_cases (float32_opp b) b x Hlo Hb Hle)
      as [[Hx Hr] | [Hx [(Hr & H1 & H2) | [(Hr & H1) | (Hr & H1)]]]];
      fold r in Hr.
    + split; [left; now rewrite Hr |]. split; [| split; [| exact Hin]].
      * rewrite Hr. apply clip_entry_nan. now right; right.
      * intros _. now rewrite Hr.
    + split; [right; rewrite Hr; now split |]. split; [| split; [| exact Hin]].
      * rewrite Hr. now apply clip_entry_fixed.
      * congruence.
    + split; [right; rewrite Hr; now split |]. split; [| split; [| exact Hin]].
      * rewrite Hr. now apply clip_entry_fixed.
      * congruence.
    + split; [right; rewrite Hr; now split |]. split; [| split; [| exact Hin]].
      * rewrite Hr. now apply clip_entry_fixed.
      * congruence.
Qed.

(** The bounds of the constraint for a positive [clip_value]. *)
Lemma ClipConstraint_call_pos (self : ClipConstraint) (w : list float32) :
  (0 < clip_value self)%Q ->
  ClipConstraint_call self w
  = map (fun v => float32_maximum
                    (float32_minimum v (float32_of_Q (clip_value self)))
                    (float32_opp (float32_of_Q (clip_value self)))) w.
Proof.
  intros Hc. unfold ClipConstraint_call, backend_clip.
  destruct (Qlt_le_dec (clip_value self) (- clip_value self)) as [L | _]; [lra |].
  now rewrite float32_of_Q_opp.
Qed.

Lemma float32_within_value (b r : float32) (c : Q) :
  is_finite b = true -> (float32_to_Q b <= c)%Q -> float32_within b r ->
  (- c <= float32_to_Q r)%Q /\ (float32_to_Q r <= c)%Q.
Proof.
  intros Hb Hc [H1 H2].
  assert (Hr : is_finite r = true).
  { destruct b as [s | s | | s m e]; try discriminate;
      destruct r as [s' | [|] | | s' m' e']; try reflexivity; discriminate. }
  assert (Hob : is_finite (float32_opp b) = true) by (now destruct b).
  apply float32_leb_Qle in H1, H2; try done.
  assert (Ho : float32_to_Q (float32_opp b) == - float32_to_Q b).
  { destruct b as [s | s | | [|] m e]; cbn; try reflexivity. ring. }
  rewrite Ho in H1. split; lra.
Qed.

(** ** The weight constraint *)

(** C2 (amended).  For a bound [c > 0] the constraint clips to the bound
    converted to single precision, [b = float32(c)], not to [c]: the
    clip is idempotent; every entry of a clipped tensor is nan or lies
    between [-b] and [b]; a nan entry stays nan; a tensor whose entries
    lie between [-b] and [b] is returned as it is; and when the
    conversion rounds [c] down (or is exact) the entries that are not
    nan lie in [[-c, c]]. *)
Theorem clip_idempotent_bounded (self : ClipConstraint) (w : list float32) :
  (0 < clip_value self)%Q ->
  let b := float32_of_Q (clip_value self) in
  Forall2 float32_same
    (ClipConstraint_call self (ClipConstraint_call self w))
    (ClipConstraint_call self w)
  /\ Forall (fun r => is_nan r = true \/ float32_within b r)
       (ClipConstraint_call self w)
  /\ Forall2 (fun x r => is_nan x = true -> is_nan r = true)
       w (ClipConstraint_call self w)
  /\ (Forall (float32_within b) w ->
      Forall2 float32_same (ClipConstraint_call self w) w)
  /\ (is_finite b = true -> (float32_to_Q b <= clip_value self)%Q ->
      Forall (fun r => is_nan r = true
                       \/ ((- clip_value self <= float32_to_Q r)%Q
                           /\ (float32_to_Q r <= clip_value self)%Q))
        (ClipConstraint_call self w)).
Proof.
  intros Hc b. rewrite !ClipConstraint_call_pos by exact Hc. fold b.
  pose proof (float32_of_Q_signless _ Hc) as Hs. fold b in Hs.
  split; [| split; [| split; [| split]]].
  - rewrite map_map. apply Forall2_fmap, Forall_Forall2_diag, Forall_forall.
    intros x _. destruct (clip_entry_pos b x Hs) as (_ & -> & _).
    apply float32_same_refl.
  - apply Forall_fmap, Forall_forall. intros x _.
    apply (clip_entry_pos b x Hs).
  - apply Forall2_fmap_r, Forall_Forall2_diag, Forall_forall. intros x _.
    unfold compose.
    destruct (clip_entry_pos b x Hs) as (_ & _ & H3 & _). exact H3.
  - intros Hw. apply Forall2_fmap_l, Forall_Forall2_diag.
    eapply Forall_impl; [exact Hw |]. intros x Hx. unfold compose.
    destruct (clip_entry_pos b x Hs) as (_ & _ & _ & H4).
    rewrite (H4 Hx). apply float32_same_refl.
  - intros Hb Hle. apply Forall_fmap, Forall_forall. intros x _.
    destruct (clip_entry_pos b x Hs) as ([Hn | Hin] & _); [now left | right].
    now apply (float32_within_value b).
Qed.

Lemma clip_idempotent_bounded_witness :
  let self := {| clip_value := 5 # 1000 |} in
  let w := [float32_of_Z 1; float32_of_Q (- (3 # 1000)); SpecFloat.S754_nan;
            float32_of_Q (- (7 # 2))] in
  Forall2 float32_same
    (ClipConstraint_call self (ClipConstraint_call self w))
    (ClipConstraint_call self w)
  /\ Forall (fun r => is_nan r = true
                      \/ ((- (5 # 1000) <= float32_to_Q r)%Q
                          /\ (float32_to_Q r <= 5 # 1000)%Q))
       (ClipConstraint_call self w).
Proof.
  intros self w.
  destruct (clip_idempotent_bounded self w) as (H1 & _ & _ & _ & H5);
    [reflexivity |].
  split; [exact H1 |]. apply H5; [reflexivity |].
  apply Qle_bool_iff. reflexivity.
Defined.

(** C2 as stated fails where the conversion rounds the bound up: for
    [c = 0.1] the clip of the weight 1 is the float next above 0.1,
    outside [[-c, c]]; so it is for the bound [1 + 3 * 2^-25], which
    double precision holds exactly and single precision rounds up to
    [1 + 2^-23], with the weight 2. *)
Lemma clip_exceeds_decimal_bound :
  ~ Forall (fun r => (- (1 # 10) <= float32_to_Q r)%Q
                     /\ (float32_to_Q r <= 1 # 10)%Q)
      (ClipConstraint_call {| clip_value := 1 # 10 |} [float32_of_Z 1])
  /\ ~ Forall (fun r => (- (33554435 # 33554432) <= float32_to_Q r)%Q
                        /\ (float32_to_Q r <= 33554435 # 33554432)%Q)
         (ClipConstraint_call {| clip_value := 33554435 # 33554432 |}
            [float32_of_Z 2]).
Proof.
  split; intros H; apply Forall_cons in H as [[_ H] _];
    apply Qle_bool_iff in H; revert H; lazy; discriminate.
Qed.

(** The constraint as an update applies it, on the values of a weight:
    for a bound that its conversion does not exceed, every value ends
    in [[-c, c]]. *)
Lemma constrain_within (k : ClipConstraint) (x : tensor) :
  (0 < clip_value k)%Q ->
  is_finite (float32_of_Q (clip_value k)) = true ->
  (float32_to_Q (float32_of_Q (clip_value k)) <= clip_value k)%Q ->
  within (clip_value k) (constrain (Some k) x).
Proof.
  intros Hc Hb Hle. unfold constrain, within.
  rewrite ClipConstraint_call_pos by exact Hc.
  apply Forall_fmap, Forall_fmap, Forall_fmap, Forall_forall. intros v _.
  unfold compose.
  destruct (clip_entry_pos (float32_of_Q (clip_value k)) (float32_of_Q v)
              (float32_of_Q_signless _ Hc)) as ([Hn | Hin] & _).
  - destruct (float32_maximum _ _); try discriminate. cbn. split; lra.
  - now apply (float32_within_value (float32_of_Q (clip_value k))).
Qed.

(** ** The loss *)

Lemma zip_with_nth (f : Q -> Q -> Q) (l1 l2 : list Q) :
  length l1 = length l2 ->
  zip_with f l1 l2
    = map (fun i => f (nth i l1 0%Q) (nth i l2 0%Q)) (seq 0 (length l2)).
Proof.
  revert l2. induction l1 as [| x l1 IH]; intros [| y l2] Hlen;
    try discriminate; [reflexivity |].
  cbn [zip_with length seq map nth]. f_equal.
  rewrite <- seq_shift, map_map. apply IH. now injection Hlen.
Qed.

Lemma Qsum_all_minus_one (yt yp : list Q) :
  length yt = length yp -> Forall (fun t => t == - (1)) yt ->
  Qsum (zip_with Qmult yt yp) == - Qsum yp.
Proof.
  intros Hlen Hall. revert yp Hlen.
  induction Hall as [| t yt Ht _ IH]; intros [| y yp] Hlen; try discriminate.
  - reflexivity.
  - cbn [zip_with Qsum foldr]. fold (Qsum (zip_with Qmult yt yp)).
    fold (Qsum yp). rewrite IH by (now injection Hlen). rewrite Ht. ring.
Qed.

Lemma Qsum_all_one (yt yp : list Q) :
  length yt = length yp -> Forall (fun t => t == 1) yt ->
  Qsum (zip_with Qmult yt yp) == Qsum yp.
Proof.
  intros Hlen Hall. revert yp Hlen.
  induction Hall as [| t yt Ht _ IH]; intros [| y yp] Hlen; try discriminate.
  - reflexivity.
  - cbn [zip_with Qsum foldr]. fold (Qsum (zip_with Qmult yt yp)).
    fold (Qsum yp). rewrite IH by (now injection Hlen). rewrite Ht. ring.
Qed.

Lemma mean_cases (l : list Q) :
  mean l = match length l with
           | O => NaN
           | S _ as n => Finite (Qsum l / inject_Z (Z.of_nat n))
           end.
Proof. destruct l; reflexivity. Qed.

(** C3. On two vectors of one length the loss is the mean of the
    products of the entries; with labels all -1 it is minus the mean of
    the predictions, with labels all +1 it is their mean. *)
Theorem wasserstein_loss_sign (y_true y_pred : list Q) :
  length y_true = length y_pred ->
  npfloat_eq (wasserstein_loss y_true y_pred) (mean_of_products y_true y_pred)
  /\ (Forall (fun t => t == - (1)) y_true ->
      npfloat_eq (wasserstein_loss y_true y_pred) (npfloat_opp (mean y_pred)))
  /\ (Forall (fun t => t == 1) y_true ->
      npfloat_eq (wasserstein_loss y_true y_pred) (mean y_pred)).
Proof.
  intros Hlen.
  assert (Hz : length (zip_with Qmult y_true y_pred) = length y_pred).
  { rewrite length_zip_with. lia. }
  unfold wasserstein_loss. rewrite !mean_cases, Hz.
  split; [| split].
  - unfold mean_of_products. rewrite (zip_with_nth _ _ _ Hlen).
    destruct (length y_pred); cbn [npfloat_eq]; [exact I | reflexivity].
  - intros Hall. pose proof (Qsum_all_minus_one _ _ Hlen Hall) as Hs.
    destruct (length y_pred); cbn [npfloat_eq npfloat_opp]; [exact I |].
    rewrite Hs. unfold Qdiv. ring.
  - intros Hall. pose proof (Qsum_all_one _ _ Hlen Hall) as Hs.
    destruct (length y_pred); cbn [npfloat_eq]; [exact I |].
    rewrite Hs. reflexivity.
Qed.

Lemma wasserstein_loss_sign_witness :
  let y_true := [- (1); - (1); - (1)]%Q in
  let y_pred := [3 # 4; - (1 # 2); 5 # 1]%Q in
  npfloat_eq (wasserstein_loss y_true y_pred) (mean_of_products y_true y_pred)
  /\ (Forall (fun t => t == - (1)) y_true ->
      npfloat_eq (wasserstein_loss y_true y_pred) (npfloat_opp (mean y_pred)))
  /\ (Forall (fun t => t == 1) y_true ->
      npfloat_eq (wasserstein_loss y_true y_pred) (mean y_pred)).
Proof.
  intros y_true y_pred. apply (wasserstein_loss_sign y_true y_pred). reflexivity.
Defined.

(** ** The monad *)

Lemma bind_ok {A C} (m : M A) (k : A -> M C) (s : state) (c : C) (s' : state) :
  bind m k s = Ok c s' -> exists a s1, m s = Ok a s1 /\ k a s1 = Ok c s'.
Proof.
  unfold bind. destruct (m s) as [a s1 | e s1]; [eauto | discriminate].
Qed.

Lemma bind_err {A C} (m : M A) (k : A -> M C) (s : state) (e : error)
    (s' : state) :
  bind m k s = Err e s' ->
  m s = Err e s' \/ exists a s1, m s = Ok a s1 /\ k a s1 = Err e s'.
Proof.
  unfold bind. destruct (m s) as [a s1 | e1 s1]; [eauto |].
  intros [= -> ->]. now left.
Qed.

Lemma bind_step {A C} (m : M A) (k : A -> M C) (s : state) (a : A) (s1 : state) :
  m s = Ok a s1 -> bind m k s = k a s1.
Proof. unfold bind. now intros ->. Qed.

Lemma bind_fail {A C} (m : M A) (k : A -> M C) (s : state) (e : error)
    (s1 : state) :
  m s = Err e s1 -> bind m k s = Err e s1.
Proof. unfold bind. now intros ->. Qed.

Lemma ok_eta {A} (r : result A) :
  is_ok r = true -> exists a, value_of r = Some a /\ r = Ok a (final_state r).
Proof. destruct r; [eauto | discriminate]. Qed.

Section Facts.
Context `{B : Backend}.

(** ** The samplers *)

Lemma randint_ok (low high size : nat) (s : state) :
  low < high ->
  randint low high size s
    = Ok (map (fun k => low + randint_raw (rng_pos s + k) mod (high - low))
            (seq 0 size))
        (mkState (heap s) (rng_pos s + size) (calls s) (trace s)).
Proof. intros H. unfold randint. rewrite decide_True; [reflexivity | now left]. Qed.

Lemma randint_empty_range (low high size : nat) (s : state) :
  high <= low -> 1 <= size -> randint low high size s = Err ValueError s.
Proof.
  intros H Hn. unfold randint. rewrite decide_False; [reflexivity | lia].
Qed.

Lemma randint_nothing (low high : nat) (s : state) :
  randint low high 0 s
  = Ok [] (mkState (heap s) (rng_pos s + 0) (calls s) (trace s)).
Proof. unfold randint. rewrite decide_True; [reflexivity | now right]. Qed.

Lemma take_items_ok (a : ndarray) (ix : list nat) (s : state) :
  Forall (fun i => i < shape0 a) ix ->
  exists xs,
    take_items a ix s = Ok (mkArray (item_shape a) xs) s
    /\ Forall2 (fun i x => items a !! i = Some x) ix xs.
Proof.
  intros Hix. unfold take_items.
  destruct (mapM (fun i => items a !! i) ix) as [xs |] eqn:E.
  - exists xs. split; [reflexivity |]. now apply mapM_Some in E.
  - exfalso. apply mapM_None in E. apply Exists_exists in E as (i & Hi & Hn).
    rewrite Forall_forall in Hix. specialize (Hix i Hi).
    apply lookup_ge_None in Hn. unfold shape0 in Hix. lia.
Qed.

Lemma drawn_indices_bound (N n : nat) (s : state) :
  0 < N -> Forall (fun i => i < N) (drawn_indices N n s).
Proof.
  intros HN. unfold drawn_indices. apply Forall_fmap, Forall_forall.
  intros k _. cbn. rewrite Nat.sub_0_r. apply Nat.mod_upper_bound. lia.
Qed.

Lemma generate_real_samples_ok (data : ndarray) (n : nat) (s : state) :
  0 < shape0 data ->
  exists xs,
    generate_real_samples data n s
      = Ok (mkArray (item_shape data) xs, neg (ones_n1 n))
          (mkState (heap s) (rng_pos s + n) (calls s) (trace s))
    /\ Forall2 (fun i x => items data !! i = Some x)
         (drawn_indices (shape0 data) n s) xs.
Proof.
  intros HN. unfold generate_real_samples.
  rewrite (bind_step _ _ _ _ _ (randint_ok 0 (shape0 data) n s HN)).
  destruct (take_items_ok data (drawn_indices (shape0 data) n s)
              (mkState (heap s) (rng_pos s + n) (calls s) (trace s))
              (drawn_indices_bound _ _ _ HN)) as (xs & Hx & Hall).
  exists xs. split; [| exact Hall].
  unfold drawn_indices in Hx.
  now rewrite (bind_step _ _ _ _ _ Hx).
Qed.

Lemma generate_real_samples_nothing (data : ndarray) (s : state) :
  generate_real_samples data 0 s
    = Ok (mkArray (item_shape data) [], neg (ones_n1 0))
        (mkState (heap s) (rng_pos s + 0) (calls s) (trace s)).
Proof.
  unfold generate_real_samples.
  rewrite (bind_step _ _ _ _ _ (randint_nothing 0 (shape0 data) s)).
  reflexivity.
Qed.

Lemma generate_real_samples_empty (data : ndarray) (n : nat) (s : state) :
  shape0 data = 0 -> 1 <= n -> generate_real_samples data n s = Err ValueError s.
Proof.
  intros HN Hn. unfold generate_real_samples.
  apply bind_fail, randint_empty_range; lia.
Qed.

Lemma reshape_rows (x : tensor) (n d : nat) :
  length x = d * n ->
  length (items (reshape x n d)) = n
  /\ Forall (fun z => length z = d) (items (reshape x n d)).
Proof.
  intros Hx. unfold reshape. cbn [items]. split.
  - now rewrite length_map, length_seq.
  - apply Forall_fmap, Forall_forall. intros i Hi.
    apply elem_of_seq in Hi. cbn.
    rewrite length_take, length_drop. nia.
Qed.

Lemma generate_latent_points_ok (L n : nat) (s : state) :
  exists zs,
    generate_latent_points L n s
      = Ok (mkArray [L] zs)
          (mkState (heap s) (rng_pos s + L * n) (calls s) (trace s))
    /\ length zs = n /\ Forall (fun z => length z = L) zs.
Proof.
  unfold generate_latent_points, bind, randn, ret.
  eexists. split; [reflexivity |].
  apply reshape_rows. now rewrite length_map, length_seq.
Qed.

Lemma predict_ok (m : Sequential) (X : ndarray) (s : state) :
  s_input_shape m = Some (item_shape X) -> 1 <= shape0 X ->
  predict m X s
    = Ok (mkArray (s_output_shape m)
            (map (predict_sample (resolve (heap s) (s_layers m))) (items X))) s.
Proof.
  intros H Hn. unfold predict. rewrite decide_True by (split; [done | lia]).
  reflexivity.
Qed.

Lemma predict_mismatch (m : Sequential) (X : ndarray) (s : state) :
  s_input_shape m <> Some (item_shape X) -> predict m X s = Err ValueError s.
Proof.
  intros H. unfold predict. rewrite decide_False; [reflexivity |].
  intros [E _]. congruence.
Qed.

Lemma predict_empty (m : Sequential) (X : ndarray) (s : state) :
  shape0 X = 0 -> predict m X s = Err ValueError s.
Proof.
  intros H. unfold predict. rewrite decide_False; [reflexivity |]. lia.
Qed.

Lemma generate_fake_samples_ok (g : Sequential) (L n : nat) (s : state) :
  s_input_shape g = Some [L] -> 1 <= n ->
  exists zs,
    generate_fake_samples g L n s
      = Ok (mkArray (s_output_shape g)
              (map (predict_sample (resolve (heap s) (s_layers g))) zs),
            ones_n1 n)
          (mkState (heap s) (rng_pos s + L * n) (calls s) (trace s))
    /\ length zs = n /\ Forall (fun z => length z = L) zs.
Proof.
  intros Hg Hn. unfold generate_fake_samples.
  destruct (generate_latent_points_ok L n s) as (zs & Hz & Hlen & Hall).
  exists zs. split; [| done].
  rewrite (bind_step _ _ _ _ _ Hz).
  assert (Hs0 : 1 <= shape0 (mkArray [L] zs)) by (unfold shape0; cbn; lia).
  rewrite (bind_step _ _ _ _ _ (predict_ok g (mkArray [L] zs) _ Hg Hs0)).
  reflexivity.
Qed.

Lemma generate_fake_samples_nothing (g : Sequential) (L : nat) (s : state) :
  generate_fake_samples g L 0 s
    = Err ValueError (mkState (heap s) (rng_pos s + L * 0) (calls s) (trace s)).
Proof.
  unfold generate_fake_samples.
  destruct (generate_latent_points_ok L 0 s) as (zs & Hz & Hlen & _).
  rewrite (bind_step _ _ _ _ _ Hz).
  apply bind_fail, predict_empty. exact Hlen.
Qed.

Lemma generate_fake_samples_mismatch (g : Sequential) (L n : nat) (s : state) :
  s_input_shape g <> Some [L] ->
  generate_fake_samples g L n s
    = Err ValueError (mkState (heap s) (rng_pos s + L * n) (calls s) (trace s)).
Proof.
  intros Hg. unfold generate_fake_samples.
  destruct (generate_latent_points_ok L n s) as (zs & Hz & _).
  rewrite (bind_step _ _ _ _ _ Hz).
  apply bind_fail, predict_mismatch. exact Hg.
Qed.

End Facts.

Section Batches.
Context `{B : Backend}.

Lemma Forall2_lookup_members {A} (l : list A) (ix : list nat) (xs : list A)
    (N : nat) :
  Forall (fun i => i < N) ix ->
  Forall2 (fun i x => l !! i = Some x) ix xs ->
  Forall (fun x => x ∈ l) xs
  /\ Forall2 (fun i x => i < N /\ l !! i = Some x) ix xs.
Proof.
  intros Hb Hall. induction Hall as [| i x ix xs Hi _ IH].
  - split; constructor.
  - apply Forall_cons in Hb as [Hb1 Hb2]. destruct (IH Hb2) as [IH1 IH2].
    split; constructor; try done.
    apply list_elem_of_lookup. eauto.
Qed.

Lemma labels_minus_one (n : nat) :
  items (neg (ones_n1 n)) = replicate n [(-1 # 1)%Q].
Proof.
  unfold neg, ones_n1, neg2, ones. cbn [items].
  change (map (map Qopp) (replicate n (replicate 1 1%Q)))
    with (fmap (M:=list) (map Qopp) (replicate n (replicate 1 1%Q))).
  now rewrite fmap_replicate.
Qed.

(** C4. For a data set that holds images and every [n >= 1],
    [generate_real_samples] returns [n] images, each the image of the
    data set at a drawn index below the size of the data set, with [n]
    labels [-1] in shape [(n, 1)]; for a generator of latent dimension
    [L], [generate_fake_samples] returns [n] images, each the output of
    the generator on a latent point of length [L], with [n] labels [+1]
    in shape [(n, 1)]. *)
Theorem sample_batches (data : ndarray) (g : Sequential) (L n : nat) (s : state) :
  1 <= shape0 data -> 1 <= n -> s_input_shape g = Some [L] ->
  (exists X s',
      generate_real_samples data n s = Ok (X, neg (ones_n1 n)) s'
      /\ shape0 X = n
      /\ Forall (fun x => x ∈ items data) (items X)
      /\ Forall2 (fun i x => i < shape0 data /\ items data !! i = Some x)
           (drawn_indices (shape0 data) n s) (items X))
  /\ (exists X s' zs,
      generate_fake_samples g L n s = Ok (X, ones_n1 n) s'
      /\ shape0 X = n
      /\ length zs = n /\ Forall (fun z => length z = L) zs
      /\ items X = map (predict_sample (resolve (heap s) (s_layers g))) zs)
  /\ item_shape (neg (ones_n1 n)) = [1]
  /\ items (neg (ones_n1 n)) = replicate n [(-1 # 1)%Q]
  /\ item_shape (ones_n1 n) = [1]
  /\ items (ones_n1 n) = replicate n [1%Q].
Proof.
  intros HN Hn Hg. split; [| split].
  - destruct (generate_real_samples_ok data n s HN) as (xs & Hr & Hall).
    eexists _, _. split; [exact Hr |]. cbn [items].
    assert (Hb := drawn_indices_bound (shape0 data) n s HN).
    destruct (Forall2_lookup_members _ _ _ _ Hb Hall) as [H1 H2].
    split; [| done].
    unfold shape0. cbn [items]. apply Forall2_length in Hall.
    rewrite <- Hall. unfold drawn_indices. now rewrite length_map, length_seq.
  - destruct (generate_fake_samples_ok g L n s Hg Hn) as (zs & Hf & Hlen & Hz).
    eexists _, _, zs. split; [exact Hf |].
    unfold shape0. cbn [items]. rewrite length_map. done.
  - split; [reflexivity |]. split; [apply labels_minus_one |].
    split; reflexivity.
Qed.

End Batches.

Lemma sample_batches_witness :
  let data := Demo.black 3 [2; 2; 1] in
  let g := mkSequential [] (Some [2]) [2; 2; 1] None in
  exists X s',
    @generate_real_samples Demo.still data 4 fresh = Ok (X, neg (ones_n1 4)) s'
    /\ shape0 X = 4
    /\ Forall (fun x => x ∈ items data) (items X).
Proof.
  intros data g.
  destruct (@sample_batches Demo.still data g 2 4 fresh) as [(X & s' & H1 & H2 & H3 & _) _].
  - cbn. lia.
  - lia.
  - reflexivity.
  - exists X, s'. auto.
Defined.

(** ** Training calls *)

Section Updates.
Context `{B : Backend}.

Lemma train_on_batch_inv (m : Sequential) (X y : ndarray) (s : state)
    (loss : npfloat) (s' : state) :
  train_on_batch m X y s = Ok loss s' ->
  exists c new,
    s_compiled m = Some c
    /\ s_input_shape m = Some (item_shape X)
    /\ item_shape y = s_output_shape m
    /\ shape0 X = shape0 y
    /\ fit (calls s) (c_loss c) (resolve (heap s) (s_layers m))
         (items X) (items y) = Some (loss, new)
    /\ s' = mkState
              (apply_updates (s_layers m) (c_trainable_weights c) new (heap s))
              (rng_pos s) (S (calls s))
              (trace s ++ [EvTrainOnBatch (s_layers m) X y loss]).
Proof.
  unfold train_on_batch. destruct (s_compiled m) as [c |]; [| discriminate].
  case_decide as Hsh; [| discriminate]. destruct Hsh as (H1 & H2 & H3).
  destruct (fit _ _ _ _ _) as [[l new] |] eqn:Hfit; [| discriminate].
  intros [= <- <-]. exists c, new. repeat split; first [done | congruence].
Qed.

Lemma train_on_batch_ok (m : Sequential) (X y : ndarray) (s : state)
    (c : compile_info) (loss : npfloat) (new : nat -> nat -> tensor) :
  s_compiled m = Some c ->
  s_input_shape m = Some (item_shape X) ->
  item_shape y = s_output_shape m ->
  shape0 X = shape0 y ->
  fit (calls s) (c_loss c) (resolve (heap s) (s_layers m))
    (items X) (items y) = Some (loss, new) ->
  train_on_batch m X y s
    = Ok loss
        (mkState
           (apply_updates (s_layers m) (c_trainable_weights c) new (heap s))
           (rng_pos s) (S (calls s))
           (trace s ++ [EvTrainOnBatch (s_layers m) X y loss])).
Proof.
  intros Hc H1 H2 H3 Hfit. unfold train_on_batch. rewrite Hc.
  rewrite decide_True by (repeat split; congruence). now rewrite Hfit.
Qed.

Lemma train_on_batch_err (m : Sequential) (X y : ndarray) (s : state)
    (e : error) (s' : state) :
  train_on_batch m X y s = Err e s' ->
  s' = s /\ (e = RuntimeError \/ e = ValueError \/ e = BackendError).
Proof.
  unfold train_on_batch. destruct (s_compiled m) as [c |].
  - case_decide.
    + destruct (fit _ _ _ _ _) as [[l new] |]; [discriminate |].
      intros [= <- <-]. auto.
    + intros [= <- <-]. auto.
  - intros [= <- <-]. auto.
Qed.

Lemma train_on_batch_shape_error (m : Sequential) (X y : ndarray) (s : state) :
  is_Some (s_compiled m) ->
  s_input_shape m <> Some (item_shape X) ->
  train_on_batch m X y s = Err ValueError s.
Proof.
  intros [c Hc] Hne. unfold train_on_batch. rewrite Hc.
  rewrite decide_False; [reflexivity |]. intros (H1 & _). congruence.
Qed.

Lemma apply_updates_lookup (ls : list nat) (cw : list (nat * nat))
    (new : nat -> nat -> tensor) (h : list layer) (a : nat) :
  apply_updates ls cw new h !! a
    = (fun l => if bool_decide (a ∈ ls) then update_layer cw new a l else l)
        <$> h !! a.
Proof. unfold apply_updates. apply list_lookup_imap. Qed.

Lemma update_layer_lookup (cw : list (nat * nat)) (new : nat -> nat -> tensor)
    (a : nat) (l : layer) (j : nat) :
  l_weights (update_layer cw new a l) !! j
    = update_variable cw (is_BatchNormalization (l_kind l)) new a j
        <$> l_weights l !! j.
Proof. unfold update_layer. cbn [l_weights set_weights]. apply list_lookup_imap. Qed.

Lemma erase_update_variable (cw : list (nat * nat)) (bn : bool)
    (new : nat -> nat -> tensor) (a j : nat) (v : variable) :
  erase_variable (update_variable cw bn new a j v) = erase_variable v.
Proof.
  unfold update_variable.
  case_bool_decide; [reflexivity |]. destruct (bn && negb (v_trainable v));
    reflexivity.
Qed.

Lemma erase_update_layer (cw : list (nat * nat)) (new : nat -> nat -> tensor)
    (a : nat) (l : layer) :
  erase_layer (update_layer cw new a l) = erase_layer l.
Proof.
  unfold erase_layer, update_layer, set_weights. cbn. f_equal.
  apply list_eq. intros j.
  rewrite !list_lookup_fmap, list_lookup_imap.
  destruct (l_weights l !! j); cbn; [| reflexivity].
  now rewrite erase_update_variable.
Qed.

(** A training step changes values only: the layers keep their kinds,
    flags, shapes and constraints. *)
Lemma skeleton_apply_updates (ls : list nat) (cw : list (nat * nat))
    (new : nat -> nat -> tensor) (h : list layer) :
  skeleton (apply_updates ls cw new h) = skeleton h.
Proof.
  unfold skeleton. apply list_eq. intros a.
  rewrite !list_lookup_fmap, apply_updates_lookup.
  destruct (h !! a) as [l |]; cbn; [| reflexivity].
  case_bool_decide; [| reflexivity]. now rewrite erase_update_layer.
Qed.

Lemma skeleton_lookup (h : list layer) (a : nat) (l : layer) :
  h !! a = Some l -> skeleton h !! a = Some (erase_layer l).
Proof. intros H. unfold skeleton. now rewrite list_lookup_fmap, H. Qed.

Lemma layers_all_lookup (h : list layer) (ls : list nat)
    (P : nat -> layer -> bool) (a : nat) :
  layers_all h ls P = true -> a ∈ ls ->
  exists l, h !! a = Some l /\ P a l = true.
Proof.
  unfold layers_all. rewrite forallb_forall. intros H Ha.
  apply list_elem_of_In in Ha. specialize (H a Ha).
  destruct (h !! a) as [l |]; [eauto | discriminate].
Qed.

Lemma weights_all_lookup (P : nat -> variable -> bool) (l : layer) (j : nat)
    (v : variable) :
  weights_all P l = true -> l_weights l !! j = Some v -> P j v = true.
Proof.
  unfold weights_all. rewrite forallb_forall. intros H Hj.
  apply (H (j, v)). apply list_elem_of_In, list_elem_of_lookup.
  exists j. now rewrite list_lookup_imap, Hj.
Qed.

(** What a test on the skeleton of a heap says about the heap. *)
Lemma skeleton_all (h : list layer) (ls : list nat)
    (P : nat -> layer -> nat -> variable -> bool) (a : nat) (l : layer)
    (j : nat) (v : variable) :
  layers_all (skeleton h) ls (fun a l => weights_all (P a l) l) = true ->
  a ∈ ls -> h !! a = Some l -> l_weights l !! j = Some v ->
  P a (erase_layer l) j (erase_variable v) = true.
Proof.
  intros Hall Ha Hl Hv.
  destruct (layers_all_lookup _ _ _ _ Hall Ha) as (l' & Hl' & HP).
  rewrite (skeleton_lookup _ _ _ Hl) in Hl'. injection Hl' as <-.
  apply (weights_all_lookup _ _ j _ HP).
  unfold erase_layer. cbn. now rewrite list_lookup_fmap, Hv.
Qed.

End Updates.

(** ** Reporting *)

Section Reporting.
Context `{B : Backend}.

Lemma write_file_ok (f : file) (s : state) :
  write_ok f = true ->
  write_file f s
    = Ok tt (mkState (heap s) (rng_pos s) (calls s) (trace s ++ [EvSaved f])).
Proof. intros H. unfold write_file. now rewrite H. Qed.

Lemma write_file_refused (f : file) (s : state) :
  write_ok f = false -> write_file f s = Err OSError s.
Proof. intros H. unfold write_file. now rewrite H. Qed.

Lemma summarize_performance_ok (step : nat) (g : Sequential) (L n : nat)
    (s : state) :
  s_input_shape g = Some [L] -> 4 * 6 <= n -> length (s_output_shape g) = 3 ->
  write_ok (PlotFile (step + 1)) = true ->
  write_ok (ModelFile (step + 1)) = true ->
  summarize_performance step g L n s = Ok tt (after_checkpoint L n (step + 1) s).
Proof.
  intros Hg Hn Hsh Hp Hm. unfold summarize_performance.
  destruct (generate_fake_samples_ok g L n s Hg ltac:(lia)) as (zs & Hf & Hlen & _).
  rewrite (bind_step _ _ _ _ _ Hf). cbn [item_shape items].
  rewrite decide_True.
  2:{ unfold shape0. cbn [items]. rewrite !length_map. split; [lia | done]. }
  rewrite (bind_step _ _ _ _ _ (write_file_ok _ _ Hp)).
  rewrite (bind_step _ _ _ _ _ (write_file_ok _ _ Hm)).
  unfold emit, after_checkpoint, checkpoint_events. cbn.
  now rewrite <- !app_assoc.
Qed.

Lemma summarize_performance_inv (step : nat) (g : Sequential) (L n : nat)
    (s s' : state) (u : unit) :
  summarize_performance step g L n s = Ok u s' ->
  s' = after_checkpoint L n (step + 1) s
  /\ write_ok (PlotFile (step + 1)) = true
  /\ write_ok (ModelFile (step + 1)) = true.
Proof.
  intros H.
  destruct (decide (s_input_shape g = Some [L])) as [Hg | Hg].
  2:{ unfold summarize_performance in H.
      rewrite (bind_fail _ _ _ _ _ (generate_fake_samples_mismatch g L n s Hg)) in H.
      discriminate. }
  unfold summarize_performance in H.
  destruct (decide (n = 0)) as [-> | Hn0].
  { rewrite (bind_fail _ _ _ _ _ (generate_fake_samples_nothing g L s)) in H.
    discriminate. }
  destruct (generate_fake_samples_ok g L n s Hg ltac:(lia)) as (zs & Hf & Hlen & _).
  rewrite (bind_step _ _ _ _ _ Hf) in H. cbn [item_shape items] in H.
  case_decide as Hd; [| discriminate].
  destruct (write_ok (PlotFile (step + 1))) eqn:Hp.
  2:{ rewrite (bind_fail _ _ _ _ _ (write_file_refused _ _ Hp)) in H.
      discriminate. }
  rewrite (bind_step _ _ _ _ _ (write_file_ok _ _ Hp)) in H.
  destruct (write_ok (ModelFile (step + 1))) eqn:Hm.
  2:{ rewrite (bind_fail _ _ _ _ _ (write_file_refused _ _ Hm)) in H.
      discriminate. }
  rewrite (bind_step _ _ _ _ _ (write_file_ok _ _ Hm)) in H.
  unfold emit in H. cbn in H. injection H as H. subst s'.
  split; [| done]. unfold after_checkpoint, checkpoint_events.
  now rewrite <- !app_assoc.
Qed.

(** A refused checkpoint file makes [summarize_performance] raise. *)
Lemma summarize_performance_refused (step : nat) (g : Sequential) (L n : nat)
    (s : state) :
  write_ok (PlotFile (step + 1)) = false
  \/ write_ok (ModelFile (step + 1)) = false ->
  exists e s', summarize_performance step g L n s = Err e s'.
Proof.
  intros Hw. destruct (summarize_performance step g L n s) as [u s' | e s'] eqn:E.
  - apply summarize_performance_inv in E as (_ & Hp & Hm).
    destruct Hw; congruence.
  - eauto.
Qed.

Lemma plot_history_ok (h1 h2 h3 : list npfloat) (s : state) :
  write_ok LossPlotFile = true ->
  plot_history h1 h2 h3 s
    = Ok tt (mkState (heap s) (rng_pos s) (calls s)
               (trace s ++ [EvPlotHistory h1 h2 h3; EvSaved LossPlotFile])).
Proof.
  intros H. unfold plot_history. rewrite H. unfold bind, emit. cbn.
  now rewrite <- app_assoc.
Qed.

Lemma plot_history_inv (h1 h2 h3 : list npfloat) (s s' : state) (u : unit) :
  plot_history h1 h2 h3 s = Ok u s' ->
  write_ok LossPlotFile = true
  /\ s' = mkState (heap s) (rng_pos s) (calls s)
            (trace s ++ [EvPlotHistory h1 h2 h3; EvSaved LossPlotFile]).
Proof.
  intros H. destruct (write_ok LossPlotFile) eqn:Hw.
  - rewrite (plot_history_ok _ _ _ _ Hw) in H. injection H as H. done.
  - unfold plot_history in H. rewrite Hw in H. discriminate.
Qed.

End Reporting.

(** ** The training loop, step by step *)

Section Loop.
Context `{B : Backend}.
Variable args : train_args.

Lemma py_mod_inv (a b r : nat) (s s' : state) :
  py_mod a b s = Ok r s' -> b <> 0 /\ r = a mod b /\ s' = s.
Proof.
  unfold py_mod. destruct b; [discriminate |]. intros [= <- <-]. done.
Qed.

Lemma int_div_inv (a b r : nat) (s s' : state) :
  int_div a b s = Ok r s' -> b <> 0 /\ r = a / b /\ s' = s.
Proof.
  unfold int_div. destruct b; [discriminate |]. intros [= <- <-]. done.
Qed.

Lemma critic_real_update_inv (hb : nat) (s : state) (loss : npfloat)
    (s' : state) :
  critic_real_update args hb s = Ok loss s' ->
  exists X s1,
    heap s1 = heap s /\ trace s1 = trace s /\ calls s1 = calls s
    /\ shape0 X = hb
    /\ item_shape X = item_shape (dataset args)
    /\ Forall (fun x => x ∈ items (dataset args)) (items X)
    /\ train_on_batch (c_model args) X (neg (ones_n1 hb)) s1 = Ok loss s'.
Proof.
  unfold critic_real_update. intros H.
  destruct (decide (0 < shape0 (dataset args))) as [HN | HN].
  - destruct (generate_real_samples_ok (dataset args) hb s HN) as (xs & Hr & Hall).
    rewrite (bind_step _ _ _ _ _ Hr) in H.
    exists (mkArray (item_shape (dataset args)) xs),
      (mkState (heap s) (rng_pos s + hb) (calls s) (trace s)).
    repeat split; [.. | exact H]; cbn; try reflexivity.
    + apply Forall2_length in Hall. unfold shape0. cbn. rewrite <- Hall.
      unfold drawn_indices. now rewrite length_map, length_seq.
    + apply (Forall2_lookup_members _ _ _ _
               (drawn_indices_bound _ hb s HN) Hall).
  - destruct (decide (hb = 0)) as [-> | Hhb].
    + rewrite (bind_step _ _ _ _ _
                 (generate_real_samples_nothing (dataset args) s)) in H.
      exists (mkArray (item_shape (dataset args)) []),
        (mkState (heap s) (rng_pos s + 0) (calls s) (trace s)).
      repeat split; [.. | exact H]; cbn; try reflexivity. constructor.
    + assert (H0 : shape0 (dataset args) = 0) by lia.
      assert (H1 : 1 <= hb) by lia.
      rewrite (bind_fail _ _ _ _ _
                 (generate_real_samples_empty (dataset args) hb s H0 H1)) in H.
      discriminate.
Qed.

Lemma critic_fake_update_inv (hb : nat) (s : state) (loss : npfloat)
    (s' : state) :
  critic_fake_update args hb s = Ok loss s' ->
  exists X s1 zs,
    heap s1 = heap s /\ trace s1 = trace s /\ calls s1 = calls s
    /\ shape0 X = hb /\ length zs = hb
    /\ item_shape X = s_output_shape (g_model args)
    /\ items X
       = map (predict_sample (resolve (heap s) (s_layers (g_model args)))) zs
    /\ train_on_batch (c_model args) X (ones_n1 hb) s1 = Ok loss s'.
Proof.
  unfold critic_fake_update. intros H.
  destruct (decide (s_input_shape (g_model args) = Some [latent_dim args]))
    as [Hg | Hg].
  - destruct (decide (hb = 0)) as [-> | Hhb].
    { rewrite (bind_fail _ _ _ _ _ (generate_fake_samples_nothing _ _ s)) in H.
      discriminate. }
    destruct (generate_fake_samples_ok _ _ hb s Hg ltac:(lia))
      as (zs & Hf & Hlen & _).
    rewrite (bind_step _ _ _ _ _ Hf) in H.
    exists (mkArray (s_output_shape (g_model args))
              (map (predict_sample (resolve (heap s) (s_layers (g_model args)))) zs)),
      (mkState (heap s) (rng_pos s + latent_dim args * hb) (calls s) (trace s)), zs.
    repeat split; [.. | exact H]; cbn; try done.
    unfold shape0. cbn. now rewrite length_map.
  - rewrite (bind_fail _ _ _ _ _ (generate_fake_samples_mismatch _ _ hb s Hg)) in H.
    discriminate.
Qed.

Lemma real_update_event (hb : nat) (s : state) (loss : npfloat) (s' : state) :
  critic_real_update args hb s = Ok loss s' ->
  exists e, is_real_update args hb loss e /\ trace s' = trace s ++ [e].
Proof.
  intros H. apply critic_real_update_inv in H
    as (X & s1 & _ & Ht & _ & Hn & _ & Hall & H).
  apply train_on_batch_inv in H as (c & new & _ & _ & _ & _ & _ & ->).
  eexists. split; [exists X; repeat split; done |]. cbn. now rewrite Ht.
Qed.

Lemma fake_update_event (hb : nat) (s : state) (loss : npfloat) (s' : state) :
  critic_fake_update args hb s = Ok loss s' ->
  exists e, is_fake_update args hb loss e /\ trace s' = trace s ++ [e].
Proof.
  intros H. apply critic_fake_update_inv in H
    as (X & s1 & zs & _ & Ht & _ & Hn & Hz & _ & Hx & H).
  apply train_on_batch_inv in H as (c & new & _ & _ & _ & _ & _ & ->).
  eexists. split; [exists X, (heap s), zs; repeat split; done |].
  cbn. now rewrite Ht.
Qed.

Lemma critic_substep_inv (hb : nat) (t1 t2 c1 c2 : list npfloat) (s s' : state) :
  critic_substep args hb (t1, t2) s = Ok (c1, c2) s' ->
  exists l1 l2 s1,
    critic_real_update args hb s = Ok l1 s1
    /\ critic_fake_update args hb s1 = Ok l2 s'
    /\ c1 = t1 ++ [l1] /\ c2 = t2 ++ [l2].
Proof.
  unfold critic_substep. intros H.
  apply bind_ok in H as (l1 & s1 & H1 & H).
  apply bind_ok in H as (l2 & s2 & H2 & H).
  injection H as <- <- <-. eauto 10.
Qed.

Lemma critic_loop_inv (hb k : nat) (t1 t2 c1 c2 : list npfloat) (s s' : state) :
  critic_loop args hb k (t1, t2) s = Ok (c1, c2) s' ->
  exists l1 l2 evs,
    critic_phase args hb l1 l2 evs
    /\ length l1 = k /\ length l2 = k
    /\ c1 = t1 ++ l1 /\ c2 = t2 ++ l2
    /\ trace s' = trace s ++ evs.
Proof.
  revert t1 t2 s. induction k as [| k IH]; intros t1 t2 s H.
  - injection H as <- <- <-. exists [], [], [].
    rewrite !app_nil_r. repeat split; constructor.
  - cbn [critic_loop] in H.
    apply bind_ok in H as ([d1 d2] & s1 & Hs & H).
    apply critic_substep_inv in Hs as (l1 & l2 & s0 & Hr & Hf & -> & ->).
    apply IH in H as (m1 & m2 & evs & Hph & Hl1 & Hl2 & -> & -> & Ht).
    apply real_update_event in Hr as (e1 & He1 & Ht1).
    apply fake_update_event in Hf as (e2 & He2 & Ht2).
    exists (l1 :: m1), (l2 :: m2), (e1 :: e2 :: evs).
    repeat split; cbn; try (f_equal; done).
    + now constructor.
    + now rewrite <- app_assoc.
    + now rewrite <- app_assoc.
    + rewrite Ht, Ht2, Ht1. now rewrite <- !app_assoc.
Qed.

Lemma generator_phase_inv (bpe i : nat) (c1 c2 : list npfloat)
    (hist hist' : history) (s s' : state) :
  generator_phase args bpe i (c1, c2) hist s = Ok hist' s' ->
  exists X s1 g_loss s2,
    heap s1 = heap s /\ trace s1 = trace s /\ calls s1 = calls s
    /\ shape0 X = n_batch args /\ item_shape X = [latent_dim args]
    /\ train_on_batch (gan_model args) X (neg (ones_n1 (n_batch args))) s1
       = Ok g_loss s2
    /\ hist' = mkHistory (c1_hist hist ++ [np_mean c1])
                 (c2_hist hist ++ [np_mean c2]) (g_hist hist ++ [g_loss])
    /\ heap s' = heap s2 /\ calls s' = calls s2
    /\ trace s'
       = trace s2
         ++ [EvPrintLosses (i + 1) (np_mean c1) (np_mean c2) g_loss]
         ++ (if decide ((i + 1) mod bpe = 0)
             then checkpoint_events (i + 1) else []).
Proof.
  unfold generator_phase. intros H.
  destruct (generate_latent_points_ok (latent_dim args) (n_batch args) s)
    as (zs & Hz & Hlen & _).
  rewrite (bind_step _ _ _ _ _ Hz) in H.
  apply bind_ok in H as (g_loss & s2 & Hg & H).
  rewrite !last_snoc in H. cbn [default from_option] in H.
  apply bind_ok in H as ([] & s3 & He & H).
  injection He as <-.
  apply bind_ok in H as (r & s4 & Hm & H).
  apply py_mod_inv in Hm as (_ & -> & ->).
  apply bind_ok in H as ([] & s5 & Hc & H). injection H as <- <-.
  exists (mkArray [latent_dim args] zs),
    (mkState (heap s) (rng_pos s + latent_dim args * n_batch args) (calls s)
       (trace s)), g_loss, s2.
  refine (conj eq_refl (conj eq_refl (conj eq_refl (conj Hlen
           (conj eq_refl (conj Hg (conj eq_refl _))))))).
  case_decide.
  - apply summarize_performance_inv in Hc as (-> & _). cbn.
    repeat split. now rewrite <- app_assoc.
  - injection Hc as <-. cbn. repeat split.
Qed.

Lemma generator_update_event (X : ndarray) (s1 s2 : state) (g_loss : npfloat) :
  shape0 X = n_batch args -> item_shape X = [latent_dim args] ->
  train_on_batch (gan_model args) X (neg (ones_n1 (n_batch args))) s1
    = Ok g_loss s2 ->
  exists e, is_generator_update args g_loss e /\ trace s2 = trace s1 ++ [e].
Proof.
  intros Hn Hsh H.
  apply train_on_batch_inv in H as (c & new & _ & _ & _ & _ & _ & ->).
  eexists. split; [exists X; repeat split; done | reflexivity].
Qed.

Lemma train_step_inv (bpe hb i : nat) (hist hist' : history) (s s' : state) :
  train_step args bpe hb i hist s = Ok hist' s' ->
  exists tr, step_shape args bpe hb i hist hist' tr /\ trace s' = trace s ++ tr.
Proof.
  unfold train_step. intros H.
  apply bind_ok in H as ([c1 c2] & s1 & Hc & H).
  apply critic_loop_inv in Hc as (l1 & l2 & evs & Hph & Hl1 & Hl2 & -> & -> & Ht).
  apply generator_phase_inv in H
    as (X & s2 & g_loss & s3 & _ & Ht2 & _ & Hn & Hsh & Hg & -> & _ & _ & Ht3).
  apply generator_update_event in Hg as (e & He & Ht4); [| done..].
  eexists. split.
  - exists l1, l2, evs, g_loss, e. repeat split; try done.
  - rewrite Ht3, Ht4, Ht2, Ht. cbn. now rewrite <- !app_assoc.
Qed.

Lemma train_loop_inv (bpe hb first n : nat) (hist hist' : history)
    (s s' : state) :
  train_loop args bpe hb first n hist s = Ok hist' s' ->
  exists tr,
    loop_shape args bpe hb first n hist hist' tr /\ trace s' = trace s ++ tr.
Proof.
  revert first hist s. induction n as [| n IH]; intros first hist s H.
  - injection H as <- <-. exists []. split; [constructor | now rewrite app_nil_r].
  - cbn [train_loop] in H. apply bind_ok in H as (h1 & s1 & Hs & H).
    apply train_step_inv in Hs as (tr1 & Hsh & Ht1).
    apply IH in H as (tr2 & Hl & Ht2).
    exists (tr1 ++ tr2). split; [econstructor; eauto |].
    rewrite Ht2, Ht1. now rewrite <- app_assoc.
Qed.

(** A run of [n + r] steps is a run of [n] steps followed by a run of
    [r] steps. *)
Lemma train_loop_app (bpe hb first n r : nat) (hist : history) (s : state) :
  train_loop args bpe hb first (n + r) hist s
    = bind (train_loop args bpe hb first n hist)
        (train_loop args bpe hb (first + n) r) s.
Proof.
  revert first hist s. induction n as [| n IH]; intros first hist s.
  - cbn. now rewrite Nat.add_0_r.
  - cbn [train_loop Nat.add]. unfold bind.
    destruct (train_step args bpe hb first hist s) as [h1 s1 | e s1];
      [| reflexivity].
    specialize (IH (S first) h1 s1). unfold bind in IH. rewrite IH.
    now replace (S first + n) with (first + S n) by lia.
Qed.

End Loop.

(** ** The loop returns *)

Section Totality.
Context `{B : Backend}.
Variable args : train_args.
Hypothesis Hfits : fits args.
Hypothesis Hhealthy : healthy.

Lemma shape0_ones (n : nat) : shape0 (ones_n1 n) = n.
Proof. unfold shape0, ones_n1, ones. cbn. apply length_replicate. Qed.

Lemma shape0_neg_ones (n : nat) : shape0 (neg (ones_n1 n)) = n.
Proof.
  unfold shape0, neg, neg2. cbn [items]. rewrite length_map. apply shape0_ones.
Qed.

Lemma train_on_batch_total (m : Sequential) (X y : ndarray) (s : state) :
  is_Some (s_compiled m) ->
  s_input_shape m = Some (item_shape X) ->
  item_shape y = s_output_shape m ->
  shape0 X = shape0 y ->
  exists loss s', train_on_batch m X y s = Ok loss s'.
Proof using Hhealthy.
  intros [c Hc] H1 H2 H3. destruct Hhealthy as [Hfit _].
  destruct (Hfit (calls s) (c_loss c) (resolve (heap s) (s_layers m))
              (items X) (items y)) as [[loss new] Hf].
  eexists _, _. now apply (train_on_batch_ok m X y s c loss new).
Qed.

Lemma critic_real_update_total (hb : nat) (s : state) :
  0 < shape0 (dataset args) ->
  exists loss s', critic_real_update args hb s = Ok loss s'.
Proof using Hfits Hhealthy.
  intros HN. destruct Hfits as (Hc & _ & Hci & Hco & _).
  destruct (generate_real_samples_ok (dataset args) hb s HN) as (xs & Hr & Hall).
  unfold critic_real_update. rewrite (bind_step _ _ _ _ _ Hr).
  apply train_on_batch_total; try done.
  rewrite shape0_neg_ones. unfold shape0. cbn.
  apply Forall2_length in Hall. rewrite <- Hall.
  unfold drawn_indices. now rewrite length_map, length_seq.
Qed.

Lemma critic_fake_update_total (hb : nat) (s : state) :
  1 <= hb ->
  exists loss s', critic_fake_update args hb s = Ok loss s'.
Proof using Hfits Hhealthy.
  intros Hhb. destruct Hfits as (Hc & _ & Hci & Hco & Hgi & Hgo & _).
  destruct (generate_fake_samples_ok _ _ hb s Hgi Hhb) as (zs & Hf & Hlen & _).
  unfold critic_fake_update. rewrite (bind_step _ _ _ _ _ Hf).
  apply train_on_batch_total; try done.
  - cbn. congruence.
  - rewrite shape0_ones. unfold shape0. cbn. now rewrite length_map.
Qed.

Lemma critic_loop_total (hb k : nat) (tmp : list npfloat * list npfloat)
    (s : state) :
  0 < shape0 (dataset args) -> (1 <= k -> 1 <= hb) ->
  exists tmp' s', critic_loop args hb k tmp s = Ok tmp' s'.
Proof using Hfits Hhealthy.
  intros HN Hhb. revert tmp s. induction k as [| k IH]; intros [t1 t2] s.
  - eexists _, _. reflexivity.
  - cbn [critic_loop]. unfold critic_substep.
    destruct (critic_real_update_total hb s HN) as (l1 & s1 & H1).
    destruct (critic_fake_update_total hb s1 ltac:(lia)) as (l2 & s2 & H2).
    unfold bind at 1. unfold bind at 1. rewrite H1.
    unfold bind at 1. rewrite H2. cbn. apply IH. lia.
Qed.

Lemma generator_phase_total (bpe i : nat) (tmp : list npfloat * list npfloat)
    (hist : history) (s : state) :
  bpe <> 0 ->
  exists hist' s', generator_phase args bpe i tmp hist s = Ok hist' s'.
Proof using Hfits Hhealthy.
  intros Hb. destruct tmp as [c1 c2].
  destruct Hfits as (_ & Hgan & _ & _ & Hgi & Hgo & H3 & Hgani & Hgano & _).
  destruct (generate_latent_points_ok (latent_dim args) (n_batch args) s)
    as (zs & Hz & Hlen & _).
  unfold generator_phase. rewrite (bind_step _ _ _ _ _ Hz).
  edestruct (train_on_batch_total (gan_model args)
               (mkArray [latent_dim args] zs) (neg (ones_n1 (n_batch args))))
    as (g_loss & s2 & Hg); [done | done | done | |].
  { rewrite shape0_neg_ones. exact Hlen. }
  rewrite (bind_step _ _ _ _ _ Hg).
  unfold emit at 1. unfold bind at 1.
  destruct bpe as [| b]; [done |]. unfold py_mod, ret at 1. unfold bind at 1.
  case_decide.
  - erewrite bind_step.
    2:{ apply summarize_performance_ok; try done.
        - lia.
        - congruence.
        - apply Hhealthy.
        - apply Hhealthy. }
    eexists _, _. reflexivity.
  - eexists _, _. reflexivity.
Qed.

Lemma train_step_total (bpe hb i : nat) (hist : history) (s : state) :
  0 < shape0 (dataset args) -> bpe <> 0 -> (1 <= n_critic args -> 1 <= hb) ->
  exists hist' s', train_step args bpe hb i hist s = Ok hist' s'.
Proof using Hfits Hhealthy.
  intros HN Hb Hhb. unfold train_step.
  destruct (critic_loop_total hb (n_critic args) ([], []) s HN Hhb)
    as (tmp & s1 & Hc).
  rewrite (bind_step _ _ _ _ _ Hc). now apply generator_phase_total.
Qed.

Lemma train_loop_total (bpe hb first n : nat) (hist : history) (s : state) :
  0 < shape0 (dataset args) -> bpe <> 0 -> (1 <= n_critic args -> 1 <= hb) ->
  exists hist' s', train_loop args bpe hb first n hist s = Ok hist' s'.
Proof using Hfits Hhealthy.
  intros HN Hb Hhb. revert first hist s.
  induction n as [| n IH]; intros first hist s.
  - eexists _, _. reflexivity.
  - cbn [train_loop].
    destruct (train_step_total bpe hb first hist s HN Hb Hhb) as (h1 & s1 & H1).
    rewrite (bind_step _ _ _ _ _ H1). apply IH.
Qed.

Lemma int_div_ok (a b : nat) (s : state) :
  b <> 0 -> int_div a b s = Ok (a / b) s.
Proof. unfold int_div. destruct b; [done | reflexivity]. Qed.

Lemma train_total (s : state) :
  exists hist s', train args s = Ok hist s'.
Proof using Hfits Hhealthy.
  assert (HB : 0 < n_batch args
               /\ (1 <= n_critic args -> 2 <= n_batch args)) by apply Hfits.
  destruct HB as [HB HK].
  unfold train.
  rewrite (bind_step _ _ _ _ _ (int_div_ok _ (n_batch args) s ltac:(lia))).
  rewrite (bind_step _ _ _ _ _ (int_div_ok (n_batch args) 2 s ltac:(lia))).
  set (bpe := shape0 (dataset args) / n_batch args).
  assert (Hl : exists hist s',
             train_loop args bpe (n_batch args / 2) 0 (bpe * n_epochs args)
               (mkHistory [] [] []) s = Ok hist s').
  { destruct (decide (bpe = 0)) as [-> | Hb].
    - eexists _, _. reflexivity.
    - apply train_loop_total; [| done |].
      + destruct (shape0 (dataset args)); [| lia].
        exfalso. apply Hb. subst bpe. apply Nat.Div0.div_0_l.
      + intros HK1. specialize (HK HK1).
        apply (Nat.div_le_lower_bound (n_batch args) 2 1); lia. }
  destruct Hl as (hist & s1 & Hl).
  rewrite (bind_step _ _ _ _ _ Hl).
  rewrite (bind_step _ _ _ _ _
             (plot_history_ok _ _ _ s1 (proj2 Hhealthy LossPlotFile))).
  eexists _, _. reflexivity.
Qed.

End Totality.

(** ** What the shape of a run implies *)

Section Shapes.
Context `{B : Backend}.
Variable args : train_args.

Lemma critic_phase_events (n : nat) (c1 c2 : list npfloat) (evs : list event) :
  critic_phase args n c1 c2 evs ->
  length c1 = length c2 /\ length evs = 2 * length c1
  /\ completed_steps evs = [] /\ checkpoints evs = [].
Proof.
  induction 1 as [| l1 l2 e1 e2 c1 c2 evs (X1 & -> & _) (X2 & h & zs & -> & _)
                     _ (IH1 & IH2 & IH3 & IH4)].
  - done.
  - cbn. rewrite IH1, IH2. unfold completed_steps, checkpoints in *. cbn.
    repeat split; try done; lia.
Qed.

Lemma step_shape_events (bpe hb i : nat) (hist hist' : history)
    (tr : list event) :
  step_shape args bpe hb i hist hist' tr ->
  completed_steps tr = [i + 1]
  /\ checkpoints tr = (if decide ((i + 1) mod bpe = 0) then [i + 1] else [])
  /\ length (c1_hist hist') = S (length (c1_hist hist))
  /\ length (c2_hist hist') = S (length (c2_hist hist))
  /\ length (g_hist hist') = S (length (g_hist hist))
  /\ c1_hist hist `prefix_of` c1_hist hist'
  /\ c2_hist hist `prefix_of` c2_hist hist'
  /\ g_hist hist `prefix_of` g_hist hist'.
Proof.
  intros (c1 & c2 & evs & g_loss & g_ev & Hph & _ & _ & (X & -> & _) & -> & ->).
  apply critic_phase_events in Hph as (_ & _ & H3 & H4).
  unfold completed_steps, checkpoints in *. rewrite !omap_app, H3, H4.
  cbn [c1_hist c2_hist g_hist]. rewrite !length_app. cbn.
  repeat split; try lia; try (eexists; reflexivity);
    case_decide; reflexivity.
Qed.

Lemma loop_shape_events (bpe hb first n : nat) (hist hist' : history)
    (tr : list event) :
  loop_shape args bpe hb first n hist hist' tr ->
  completed_steps tr = seq (first + 1) n
  /\ checkpoints tr = filter (fun t => t mod bpe = 0) (seq (first + 1) n)
  /\ length (c1_hist hist') = length (c1_hist hist) + n
  /\ length (c2_hist hist') = length (c2_hist hist) + n
  /\ length (g_hist hist') = length (g_hist hist) + n
  /\ c1_hist hist `prefix_of` c1_hist hist'
  /\ c2_hist hist `prefix_of` c2_hist hist'
  /\ g_hist hist `prefix_of` g_hist hist'.
Proof.
  induction 1 as [first hist | first n hist hist1 hist2 tr1 tr2 Hs _ IH].
  - cbn. repeat split; try lia; reflexivity.
  - apply step_shape_events in Hs
      as (S1 & S2 & S3 & S4 & S5 & S6 & S7 & S8).
    destruct IH as (I1 & I2 & I3 & I4 & I5 & I6 & I7 & I8).
    unfold completed_steps, checkpoints in *. rewrite !omap_app.
    rewrite S1, S2, I1, I2. cbn [seq Nat.add].
    replace (S first + 1) with (S (first + 1)) by lia.
    repeat split; try lia; try (etrans; eassumption).
    rewrite filter_cons. case_decide; reflexivity.
Qed.

(** The events of a critic loop give the losses of its updates. *)
Lemma critic_phase_unique (n : nat) (c1 c2 d1 d2 : list npfloat)
    (evs : list event) :
  critic_phase args n c1 c2 evs -> critic_phase args n d1 d2 evs ->
  d1 = c1 /\ d2 = c2.
Proof.
  intros H. revert d1 d2.
  induction H as [| l1 l2 e1 e2 c1 c2 evs (X1 & -> & _) (X2 & h & zs & -> & _)
                    _ IH]; intros d1 d2 Hd.
  - inversion Hd. done.
  - inversion Hd as [| m1 m2 f1 f2 b1 b2 evs' (Y1 & E1 & _) (Y2 & h' & zs' & E2 & _)
                       Hd']; subst.
    injection E1 as _ <-. injection E2 as _ <-.
    destruct (IH _ _ Hd') as [-> ->]. done.
Qed.

Lemma train_inv (s : state) (hist : history) (s' : state) :
  train args s = Ok hist s' ->
  let bpe := shape0 (dataset args) / n_batch args in
  exists tr,
    loop_shape args bpe (n_batch args / 2) 0 (bpe * n_epochs args)
      (mkHistory [] [] []) hist tr
    /\ trace s'
       = trace s ++ tr
         ++ [EvPlotHistory (c1_hist hist) (c2_hist hist) (g_hist hist);
             EvSaved LossPlotFile].
Proof.
  unfold train. intros H.
  apply bind_ok in H as (bpe & s1 & Hd & H).
  apply int_div_inv in Hd as (_ & -> & ->).
  apply bind_ok in H as (hb & s1 & Hd & H).
  apply int_div_inv in Hd as (_ & -> & ->).
  apply bind_ok in H as (h & s1 & Hl & H).
  apply bind_ok in H as ([] & s2 & Hp & H). injection H as <- <-.
  apply train_loop_inv in Hl as (tr & Hsh & Ht).
  apply plot_history_inv in Hp as (_ & ->). cbn.
  exists tr. split; [exact Hsh |]. cbn. rewrite Ht. now rewrite <- app_assoc.
Qed.

(** [numpy.mean] on finite losses is their arithmetic mean. *)
Lemma np_mean_finite (qs : list Q) : np_mean (map Finite qs) = mean qs.
Proof.
  unfold np_mean, finite_values.
  assert (H : mapM (fun x => match x with Finite q => Some q | NaN => None end)
                (map Finite qs) = Some qs).
  { apply mapM_Some. induction qs; constructor; auto. }
  now rewrite H.
Qed.

End Shapes.

(** ** The order of the updates, the histories and the step count *)

Section Orchestrator.
Context `{B : Backend}.

(** What one returning call of [train_on_batch] does to a weight the
    model collected: with [new] the values the optimizer computed in
    this call, the weight holds [new a j], clipped when the weight has a
    constraint. *)
Lemma train_on_batch_update (m : Sequential) (X y : ndarray) (s : state)
    (loss : npfloat) (s' : state) :
  train_on_batch m X y s = Ok loss s' ->
  exists c new,
    s_compiled m = Some c
    /\ fit (calls s) (c_loss c) (resolve (heap s) (s_layers m))
         (items X) (items y) = Some (loss, new)
    /\ forall a j l v,
         (a, j) ∈ collected m -> a ∈ s_layers m ->
         heap s !! a = Some l -> l_weights l !! j = Some v ->
         exists l' v',
           heap s' !! a = Some l' /\ l_weights l' !! j = Some v'
           /\ v_constraint v' = v_constraint v
           /\ match v_constraint v with
              | None => v_value v' = new a j
              | Some k =>
                  v_value v'
                  = map float32_to_Q
                      (ClipConstraint_call k (map float32_of_Q (new a j)))
                  /\ ((0 < clip_value k)%Q ->
                      is_finite (float32_of_Q (clip_value k)) = true ->
                      (float32_to_Q (float32_of_Q (clip_value k))
                       <= clip_value k)%Q ->
                      within (clip_value k) (v_value v'))
              end.
Proof.
  intros H. apply train_on_batch_inv in H as (c & new & Hc & _ & _ & _ & Hfit & ->).
  exists c, new. split; [exact Hc |]. split; [exact Hfit |].
  intros a j l v Hin Ha Hl Hv. cbn [heap].
  unfold collected in Hin. rewrite Hc in Hin.
  exists (update_layer (c_trainable_weights c) new a l),
    (set_value v (constrain (v_constraint v) (new a j))).
  split.
  { rewrite apply_updates_lookup, Hl. cbn. now rewrite bool_decide_true. }
  split.
  { rewrite update_layer_lookup, Hv. cbn. unfold update_variable.
    now rewrite bool_decide_true. }
  split; [reflexivity |]. cbn [v_value v_constraint set_value].
  destruct (v_constraint v) as [k |]; [| reflexivity].
  split; [reflexivity |]. apply constrain_within.
Qed.


(** C6. A training step appends one value to each of the three
    histories, the two critic entries being the means of the losses of
    the [n_critic] updates on real and on generated images of the step:
    the updates are the events the step adds to the trace, in their
    order, and these events determine the two lists of losses;
    [numpy.mean] of finite losses is their sum divided by their number.
    [T] steps from empty histories give three histories of length [T],
    each step leaving the earlier entries in place. *)
Theorem loss_histories (args : train_args) (bpe hb : nat) :
  (forall i hist s hist' s',
      train_step args bpe hb i hist s = Ok hist' s' ->
      exists c1 c2 evs g_loss g_ev,
        critic_phase args hb c1 c2 evs
        /\ length c1 = n_critic args /\ length c2 = n_critic args
        /\ is_generator_update args g_loss g_ev
        /\ trace s'
           = trace s ++ evs
             ++ [g_ev; EvPrintLosses (i + 1) (np_mean c1) (np_mean c2) g_loss]
             ++ (if decide ((i + 1) mod bpe = 0)
                 then checkpoint_events (i + 1) else [])
        /\ (forall d1 d2,
              critic_phase args hb d1 d2 evs -> d1 = c1 /\ d2 = c2)
        /\ c1_hist hist' = c1_hist hist ++ [np_mean c1]
        /\ c2_hist hist' = c2_hist hist ++ [np_mean c2]
        /\ g_hist hist' = g_hist hist ++ [g_loss])
  /\ (forall qs, np_mean (map Finite qs) = mean qs)
  /\ (forall T first hist s hist' s',
        train_loop args bpe hb first T hist s = Ok hist' s' ->
        length (c1_hist hist') = length (c1_hist hist) + T
        /\ length (c2_hist hist') = length (c2_hist hist) + T
        /\ length (g_hist hist') = length (g_hist hist) + T
        /\ c1_hist hist `prefix_of` c1_hist hist'
        /\ c2_hist hist `prefix_of` c2_hist hist'
        /\ g_hist hist `prefix_of` g_hist hist').
Proof.
  split; [| split].
  - intros i hist s hist' s' H.
    apply train_step_inv in H
      as (tr & (c1 & c2 & evs & g_loss & g_ev & Hph & H1 & H2 & Hg & -> & ->)
          & Ht).
    exists c1, c2, evs, g_loss, g_ev.
    split; [exact Hph |]. split; [exact H1 |]. split; [exact H2 |].
    split; [exact Hg |]. split; [exact Ht |].
    split; [| done].
    intros d1 d2 Hd. apply (critic_phase_unique args hb _ _ _ _ _ Hph Hd).
  - apply np_mean_finite.
  - intros T first hist s hist' s' H.
    apply train_loop_inv in H as (tr & Hsh & _).
    apply loop_shape_events in Hsh. tauto.
Qed.

(** C7. When the arguments fit and nothing fails, [train] returns; and
    a run that returns has completed the steps [1 .. floor(N/B) * E],
    has saved a checkpoint at the steps of this range that are
    multiples of [floor(N/B)] and at no other, and returns three
    histories of [floor(N/B) * E] entries.  For 100 images, batches of
    10 and one epoch: ten steps, one checkpoint, at step 10. *)
Theorem train_step_count (args : train_args) (s : state) :
  (fits args -> healthy -> exists hist s', train args s = Ok hist s')
  /\ (forall hist s',
        train args s = Ok hist s' ->
        let bpe := shape0 (dataset args) / n_batch args in
        let n_steps := bpe * n_epochs args in
        exists tr,
          trace s'
          = trace s ++ tr
            ++ [EvPlotHistory (c1_hist hist) (c2_hist hist) (g_hist hist);
                EvSaved LossPlotFile]
          /\ completed_steps tr = seq 1 n_steps
          /\ checkpoints tr = filter (fun t => t mod bpe = 0) (seq 1 n_steps)
          /\ length (c1_hist hist) = n_steps
          /\ length (c2_hist hist) = n_steps
          /\ length (g_hist hist) = n_steps
          /\ (shape0 (dataset args) = 100 -> n_batch args = 10 ->
              n_epochs args = 1 ->
              completed_steps tr = seq 1 10 /\ checkpoints tr = [10]
              /\ length (c1_hist hist) = 10 /\ length (c2_hist hist) = 10
              /\ length (g_hist hist) = 10)).
Proof.
  split.
  - intros Hf Hh. now apply train_total.
  - intros hist s' H bpe n_steps.
    apply train_inv in H as (tr & Hsh & Ht). exists tr.
    apply loop_shape_events in Hsh as (E1 & E2 & E3 & E4 & E5 & _).
    cbn in E1, E2, E3, E4, E5. fold bpe in E1, E2, E3, E4, E5.
    fold n_steps in E1, E2, E3, E4, E5.
    refine (conj Ht (conj E1 (conj E2 (conj E3 (conj E4 (conj E5 _)))))).
    intros HN HB HE. subst n_steps bpe. rewrite HN, HB, HE in *.
    rewrite E1, E2, E3, E4, E5. repeat split.
Qed.

End Orchestrator.

Lemma still_healthy : @healthy Demo.still.
Proof. split; [intros; eexists; reflexivity | reflexivity]. Qed.


Lemma loss_histories_witness :
  exists hist s' c1 c2 evs,
    @train_step Demo.push Runs.tiny_pushed 1 1 0 (mkHistory [] [] [])
      (@ready Demo.push 3) = Ok hist s'
    /\ @critic_phase Demo.push Runs.tiny_pushed 1 c1 c2 evs
    /\ length c1 = 1 /\ length c2 = 1
    /\ c1_hist hist = [np_mean c1] /\ c2_hist hist = [np_mean c2]
    /\ c1_hist hist = [Finite 0] /\ c2_hist hist = [Finite 1].
Proof.
  destruct (ok_eta (@train_step Demo.push Runs.tiny_pushed 1 1 0
                      (mkHistory [] [] []) (@ready Demo.push 3)))
    as (hist & Hv & Heq); [lazy; reflexivity |].
  destruct (@loss_histories Demo.push Runs.tiny_pushed 1 1) as (Hstep & _ & _).
  destruct (Hstep _ _ _ _ _ Heq)
    as (c1 & c2 & evs & g_loss & g_ev & Hph & H1 & H2 & _ & _ & _ & H3 & H4 & _).
  assert (Hc : (fun h => (c1_hist h, c2_hist h))
                 <$> value_of (@train_step Demo.push Runs.tiny_pushed 1 1 0
                                 (mkHistory [] [] []) (@ready Demo.push 3))
               = Some ([Finite 0], [Finite 1])) by (lazy; reflexivity).
  rewrite Hv in Hc. cbn [fmap option_fmap option_map] in Hc.
  injection Hc as Hc1 Hc2.
  exists hist,
    (final_state (@train_step Demo.push Runs.tiny_pushed 1 1 0
                    (mkHistory [] [] []) (@ready Demo.push 3))), c1, c2, evs.
  split; [exact Heq |].
  split; [exact Hph |]. split; [exact H1 |]. split; [exact H2 |].
  split; [exact H3 |]. split; [exact H4 |]. split; [exact Hc1 | exact Hc2].
Defined.

Lemma train_step_count_witness :
  exists hist s' tr,
    @train Demo.still Runs.scenario (@ready Demo.still 10) = Ok hist s'
    /\ trace s'
       = trace (@ready Demo.still 10) ++ tr
         ++ [EvPlotHistory (c1_hist hist) (c2_hist hist) (g_hist hist);
             EvSaved LossPlotFile]
    /\ completed_steps tr = seq 1 10 /\ checkpoints tr = [10]
    /\ length (c1_hist hist) = 10 /\ length (c2_hist hist) = 10
    /\ length (g_hist hist) = 10.
Proof.
  destruct (@train_step_count Demo.still Runs.scenario (@ready Demo.still 10))
    as [Htotal Hcount].
  destruct Htotal as (hist & s' & Heq).
  - unfold fits. apply (bool_decide_unpack _). lazy. reflexivity.
  - exact still_healthy.
  - destruct (Hcount hist s' Heq) as (tr & Ht & _ & _ & _ & _ & _ & Hscen).
    exists hist, s', tr. split; [exact Heq |]. split; [exact Ht |].
    apply Hscen; reflexivity.
Defined.

(** ** Failures *)

Lemma err_eta {A} (r : result A) (e : error) :
  error_of r = Some e -> r = Err e (final_state r).
Proof. destruct r; [discriminate |]. now intros [= ->]. Qed.

Section Failures.
Context `{B : Backend}.
Variable args : train_args.

Lemma generator_phase_checkpoint (bpe i : nat)
    (tmp : list npfloat * list npfloat) (hist hist' : history) (s s' : state) :
  generator_phase args bpe i tmp hist s = Ok hist' s' ->
  (i + 1) mod bpe = 0 ->
  write_ok (PlotFile (i + 1)) = true /\ write_ok (ModelFile (i + 1)) = true.
Proof.
  destruct tmp as [c1 c2]. unfold generator_phase. intros H Hmod.
  apply bind_ok in H as (X & s1 & _ & H).
  apply bind_ok in H as (g_loss & s2 & _ & H).
  apply bind_ok in H as ([] & s3 & _ & H).
  apply bind_ok in H as (r & s4 & Hm & H).
  apply py_mod_inv in Hm as (_ & -> & ->).
  apply bind_ok in H as ([] & s5 & Hc & _).
  rewrite decide_True in Hc by done.
  now apply summarize_performance_inv in Hc as (_ & Hp & Hm).
Qed.

(** A step that is due a checkpoint never returns when a checkpoint
    file is refused. *)
Lemma train_step_refused (bpe hb i : nat) (hist : history) (s : state) :
  (i + 1) mod bpe = 0 ->
  write_ok (PlotFile (i + 1)) = false \/ write_ok (ModelFile (i + 1)) = false ->
  is_ok (train_step args bpe hb i hist s) = false.
Proof.
  intros Hmod Hw.
  destruct (train_step args bpe hb i hist s) as [h s' |] eqn:E; [| reflexivity].
  unfold train_step in E. apply bind_ok in E as (tmp & s1 & _ & E).
  apply generator_phase_checkpoint in E as [Hp Hm]; [| done].
  destruct Hw; congruence.
Qed.

Lemma train_loop_empty (hb n : nat) (hist : history) (s : state) :
  train_loop args 0 hb 0 (0 * n) hist s = Ok hist s.
Proof. reflexivity. Qed.

(** C9 (amended). [train] checks nothing before the loop and catches
    nothing.  With fewer images than one batch it runs no step and
    returns empty histories; with images of a shape the critic does not
    take, the first update of the critic, in the first step, raises
    ValueError after the indices of its batch were drawn; an error of a
    step ends the run with this error in the state of the error; and a
    step that is due a checkpoint fails when a checkpoint file is
    refused. *)
Theorem train_failures (s : state) :
  let N := shape0 (dataset args) in
  let bpe := N / n_batch args in
  let hb := n_batch args / 2 in
  let n_steps := bpe * n_epochs args in
  (0 < n_batch args -> N < n_batch args -> write_ok LossPlotFile = true ->
   train args s
     = Ok (mkHistory [] [] [])
         (mkState (heap s) (rng_pos s) (calls s)
            (trace s ++ [EvPlotHistory [] [] []; EvSaved LossPlotFile])))
  /\ (is_Some (s_compiled (c_model args)) ->
      s_input_shape (c_model args) <> Some (item_shape (dataset args)) ->
      1 <= n_steps -> 1 <= n_critic args ->
      train args s
        = Err ValueError
            (mkState (heap s) (rng_pos s + hb) (calls s) (trace s)))
  /\ (forall t hist s1 e s2,
        t < n_steps ->
        train_loop args bpe hb 0 t (mkHistory [] [] []) s = Ok hist s1 ->
        train_step args bpe hb t hist s1 = Err e s2 ->
        train args s = Err e s2)
  /\ (forall i hist s1,
        (i + 1) mod bpe = 0 ->
        write_ok (PlotFile (i + 1)) = false
        \/ write_ok (ModelFile (i + 1)) = false ->
        is_ok (train_step args bpe hb i hist s1) = false).
Proof.
  intros N bpe hb n_steps.
  assert (Hstart : n_batch args <> 0 ->
            train args s
            = bind (train_loop args bpe hb 0 n_steps (mkHistory [] [] []))
                (fun hist =>
                   bind (plot_history (c1_hist hist) (c2_hist hist) (g_hist hist))
                     (fun _ => ret hist)) s).
  { intros HB. unfold train.
    rewrite (bind_step _ _ _ _ _ (int_div_ok _ (n_batch args) s HB)).
    now rewrite (bind_step _ _ _ _ _ (int_div_ok (n_batch args) 2 s ltac:(lia))). }
  assert (Hpos : 1 <= n_steps -> n_batch args <> 0 /\ 0 < N).
  { intros Hn. subst n_steps bpe.
    destruct (n_batch args) as [| b]; [cbn in Hn; lia |]. split; [lia |].
    destruct N; [| lia]. rewrite Nat.Div0.div_0_l in Hn. lia. }
  split; [| split; [| split]].
  - intros HB HN Hw. rewrite Hstart by lia.
    assert (bpe = 0) as Hb by (subst bpe; now apply Nat.div_small).
    subst n_steps. rewrite Hb.
    rewrite (bind_step _ _ _ _ _ (train_loop_empty hb _ _ s)).
    now rewrite (bind_step _ _ _ _ _ (plot_history_ok _ _ _ s Hw)).
  - intros Hc Hsh Hn Hk. destruct (Hpos Hn) as [HB HN]. rewrite Hstart by done.
    apply bind_fail. destruct n_steps as [| n]; [lia |]. cbn [train_loop].
    apply bind_fail. unfold train_step. apply bind_fail.
    destruct (n_critic args) as [| k]; [lia |]. cbn [critic_loop].
    apply bind_fail. unfold critic_substep. apply bind_fail.
    unfold critic_real_update.
    destruct (generate_real_samples_ok (dataset args) hb s HN) as (xs & Hr & _).
    rewrite (bind_step _ _ _ _ _ Hr).
    now apply train_on_batch_shape_error.
  - intros t hist s1 e s2 Ht Hl Hs.
    destruct (Hpos ltac:(lia)) as [HB _]. rewrite Hstart by done.
    apply bind_fail.
    replace n_steps with (t + S (n_steps - S t)) by lia.
    rewrite train_loop_app, (bind_step _ _ _ _ _ Hl).
    cbn [train_loop]. now apply bind_fail.
  - intros i hist s1. apply train_step_refused.
Qed.

End Failures.

Lemma train_failures_witness :
  @train Demo.still Runs.starved (@ready Demo.still 10)
    = Ok (mkHistory [] [] [])
        (mkState (heap (@ready Demo.still 10)) (rng_pos (@ready Demo.still 10))
           (calls (@ready Demo.still 10))
           (trace (@ready Demo.still 10)
            ++ [EvPlotHistory [] [] []; EvSaved LossPlotFile]))
  /\ @train Demo.still Runs.misshaped (@ready Demo.still 10)
     = Err ValueError
         (mkState (heap (@ready Demo.still 10))
            (rng_pos (@ready Demo.still 10) + 5)
            (calls (@ready Demo.still 10)) (trace (@ready Demo.still 10)))
  /\ is_ok (@train_step Demo.disk_full Runs.unsaved 2 5 1 (mkHistory [] [] [])
              (@ready Demo.disk_full 10)) = false.
Proof.
  split; [| split].
  - apply (@train_failures Demo.still Runs.starved (@ready Demo.still 10));
      [lazy; lia | lazy; lia | reflexivity].
  - apply (@train_failures Demo.still Runs.misshaped (@ready Demo.still 10)).
    + apply (bool_decide_unpack _). lazy. reflexivity.
    + apply (bool_decide_unpack _). lazy. reflexivity.
    + lazy. lia.
    + lazy. lia.
  - apply (@train_failures Demo.disk_full Runs.unsaved (@ready Demo.disk_full 10)).
    + reflexivity.
    + left. reflexivity.
Defined.

(** C9 as stated fails twice.  Three images for batches of ten are not
    refused: [train] returns, with empty histories.  And a refused
    checkpoint file is not caught: of the four steps that are due, the
    run completes two and ends with the error of the file system. *)
Lemma small_dataset_accepted_and_checkpoint_failure_fatal :
  value_of (@train Demo.still Runs.starved (@ready Demo.still 10))
    = Some (mkHistory [] [] [])
  /\ error_of (@train Demo.disk_full Runs.unsaved (@ready Demo.disk_full 10))
     = Some OSError
  /\ completed_steps
       (trace (final_state
                 (@train Demo.disk_full Runs.unsaved (@ready Demo.disk_full 10))))
     = [1; 2].
Proof. lazy. repeat split. Qed.

(** ** The constraint along a run *)

Section Lipschitz.
Context `{B : Backend}.
Variables (c gan : Sequential) (sk0 : list layer).
Hypothesis Hcol : critic_collects sk0 c = true.
Hypothesis Hsp : composite_spares sk0 c gan = true.

Lemma collects_fact (h : list layer) (a : nat) (l : layer) (j : nat)
    (v : variable) :
  skeleton h = sk0 -> a ∈ s_layers c -> h !! a = Some l ->
  l_weights l !! j = Some v ->
  (v_trainable v = true -> (a, j) ∈ collected c)
  /\ (forall k, v_constraint v = Some k -> v_trainable v = true /\ k = const)
  /\ (is_Conv2D (l_kind l) = true -> v_name v = "kernel"%string ->
      v_constraint v = Some const).
Proof using Hcol.
  intros Hsk Ha Hl Hv. unfold critic_collects in Hcol.
  apply andb_prop in Hcol as [_ Hall]. rewrite <- Hsk in Hall.
  pose proof (skeleton_all h (s_layers c) _ a l j v Hall Ha Hl Hv) as HP.
  cbn in HP. apply andb_prop in HP as [HP H3]. apply andb_prop in HP as [H1 H2].
  split; [| split].
  - intros Ht. rewrite Ht in H1. cbn in H1. now apply bool_decide_eq_true in H1.
  - intros k Hk. rewrite Hk in H2. apply andb_prop in H2 as [H2 H4].
    apply bool_decide_eq_true in H4. done.
  - intros Hconv Hname. rewrite Hconv in H3. cbn in H3.
    rewrite bool_decide_true in H3 by done. cbn in H3.
    now apply bool_decide_eq_true in H3.
Qed.

Lemma spares_fact (h : list layer) (a : nat) (l : layer) :
  skeleton h = sk0 -> a ∈ s_layers c -> h !! a = Some l ->
  l_trainable l = is_BatchNormalization (l_kind l)
  /\ forall j v, l_weights l !! j = Some v ->
       if is_BatchNormalization (l_kind l)
       then v_constraint v = None
       else (a, j) ∉ collected gan.
Proof using Hsp.
  intros Hsk Ha Hl. unfold composite_spares in Hsp.
  apply andb_prop in Hsp as [_ Hall]. rewrite <- Hsk in Hall.
  destruct (layers_all_lookup _ _ _ _ Hall Ha) as (l' & Hl' & HP).
  rewrite (skeleton_lookup _ _ _ Hl) in Hl'. injection Hl' as <-.
  change (l_kind (erase_layer l)) with (l_kind l) in HP.
  change (l_trainable (erase_layer l)) with (l_trainable l) in HP.
  destruct (is_BatchNormalization (l_kind l)).
  - apply andb_prop in HP as [H1 H2]. split; [done |].
    intros j v Hv.
    assert (Hv' : l_weights (erase_layer l) !! j = Some (erase_variable v)).
    { unfold erase_layer. cbn. now rewrite list_lookup_fmap, Hv. }
    pose proof (weights_all_lookup _ _ _ _ H2 Hv') as H. cbn in H.
    now apply bool_decide_eq_true in H.
  - apply andb_prop in HP as [H1 H2]. split; [now apply negb_true_iff in H1 |].
    intros j v Hv.
    assert (Hv' : l_weights (erase_layer l) !! j = Some (erase_variable v)).
    { unfold erase_layer. cbn. now rewrite list_lookup_fmap, Hv. }
    pose proof (weights_all_lookup _ _ _ _ H2 Hv') as H. cbn in H.
    apply negb_true_iff, bool_decide_eq_false in H. done.
Qed.



(** An update through the composite leaves the layers of the critic
    that are not normalization layers as they are. *)
Lemma composite_update_frame (X y : ndarray) (s : state) (loss : npfloat)
    (s' : state) (a : nat) (l : layer) :
  skeleton (heap s) = sk0 ->
  train_on_batch gan X y s = Ok loss s' ->
  a ∈ s_layers c -> heap s !! a = Some l ->
  is_BatchNormalization (l_kind l) = false ->
  heap s' !! a = Some l.
Proof using Hsp.
  intros Hsk H Ha Hl Hbn.
  apply train_on_batch_inv in H as (gc & new & Hgc & _ & _ & _ & _ & ->).
  cbn [heap]. rewrite apply_updates_lookup, Hl. cbn.
  case_bool_decide; [| done]. f_equal.
  destruct (spares_fact _ _ _ Hsk Ha Hl) as [_ Hw]. rewrite Hbn in Hw.
  unfold update_layer. rewrite Hbn.
  assert (Hi : imap (update_variable (c_trainable_weights gc) false new a)
                 (l_weights l) = l_weights l).
  { apply list_eq. intros j. rewrite list_lookup_imap.
    destruct (l_weights l !! j) as [v |] eqn:Hv; [| done]. cbn.
    specialize (Hw j v Hv). unfold collected in Hw. rewrite Hgc in Hw.
    unfold update_variable. now rewrite bool_decide_false. }
  rewrite Hi. now destruct l.
Qed.


End Lipschitz.
(** ** Invariants of the heap along the loop *)

Section Invariant.
Context `{B : Backend}.
Variable args : train_args.
Variables P Q : list layer -> Prop.
Hypothesis PQ : forall h, P h -> Q h.
Hypothesis Hest : forall X y s loss s',
  Q (heap s) -> train_on_batch (c_model args) X y s = Ok loss s' -> P (heap s').
Hypothesis HganP : forall X y s loss s',
  P (heap s) -> train_on_batch (gan_model args) X y s = Ok loss s' -> P (heap s').
Hypothesis HganQ : forall X y s loss s',
  Q (heap s) -> train_on_batch (gan_model args) X y s = Ok loss s' -> Q (heap s').

Lemma real_update_establishes (hb : nat) (s : state) (loss : npfloat)
    (s' : state) :
  Q (heap s) -> critic_real_update args hb s = Ok loss s' -> P (heap s').
Proof using Hest.
  intros HQ H. apply critic_real_update_inv in H as (X & s1 & Hh & _ & _ & _ & _ & _ & H).
  eapply (Hest _ _ s1); [now rewrite Hh | exact H].
Qed.

Lemma fake_update_establishes (hb : nat) (s : state) (loss : npfloat)
    (s' : state) :
  Q (heap s) -> critic_fake_update args hb s = Ok loss s' -> P (heap s').
Proof using Hest.
  intros HQ H.
  apply critic_fake_update_inv in H as (X & s1 & zs & Hh & _ & _ & _ & _ & _ & _ & H).
  eapply (Hest _ _ s1); [now rewrite Hh | exact H].
Qed.

Lemma critic_loop_invariant (hb k : nat) (tmp tmp' : list npfloat * list npfloat)
    (s s' : state) :
  Q (heap s) -> critic_loop args hb k tmp s = Ok tmp' s' ->
  Q (heap s') /\ (1 <= k -> P (heap s')) /\ (P (heap s) -> P (heap s')).
Proof using PQ Hest.
  revert tmp s. induction k as [| k IH]; intros tmp s HQ H.
  - injection H as <- <-. repeat split; [done | lia | done].
  - cbn [critic_loop] in H. apply bind_ok in H as ([d1 d2] & s1 & Hs & H).
    destruct tmp as [t1 t2].
    apply critic_substep_inv in Hs as (l1 & l2 & s0 & Hr & Hf & _ & _).
    apply real_update_establishes in Hr; [| done].
    apply fake_update_establishes in Hf; [| now apply PQ].
    destruct (IH _ _ (PQ _ Hf) H) as (I1 & _ & I3).
    repeat split; auto.
Qed.

Lemma generator_phase_invariant (bpe i : nat) (tmp : list npfloat * list npfloat)
    (hist hist' : history) (s s' : state) :
  generator_phase args bpe i tmp hist s = Ok hist' s' ->
  (Q (heap s) -> Q (heap s')) /\ (P (heap s) -> P (heap s')).
Proof using HganP HganQ.
  destruct tmp as [c1 c2]. intros H.
  apply generator_phase_inv in H
    as (X & s1 & g_loss & s2 & Hh & _ & _ & _ & _ & Hg & _ & Hh' & _).
  rewrite Hh'. split; intros H0.
  - eapply (HganQ _ _ s1); [now rewrite Hh | exact Hg].
  - eapply (HganP _ _ s1); [now rewrite Hh | exact Hg].
Qed.

Lemma train_step_invariant (bpe hb i : nat) (hist hist' : history)
    (s s' : state) :
  Q (heap s) -> train_step args bpe hb i hist s = Ok hist' s' ->
  Q (heap s') /\ (1 <= n_critic args -> P (heap s'))
  /\ (P (heap s) -> P (heap s')).
Proof using PQ Hest HganP HganQ.
  intros HQ H. unfold train_step in H.
  apply bind_ok in H as (tmp & s1 & Hc & H).
  destruct (critic_loop_invariant _ _ _ _ _ _ HQ Hc) as (C1 & C2 & C3).
  destruct (generator_phase_invariant _ _ _ _ _ _ _ H) as (G1 & G2).
  repeat split; auto.
Qed.

Lemma train_loop_invariant (bpe hb first n : nat) (hist hist' : history)
    (s s' : state) :
  Q (heap s) -> train_loop args bpe hb first n hist s = Ok hist' s' ->
  Q (heap s') /\ (1 <= n -> 1 <= n_critic args -> P (heap s'))
  /\ (P (heap s) -> P (heap s')).
Proof using PQ Hest HganP HganQ.
  revert first hist s. induction n as [| n IH]; intros first hist s HQ H.
  - injection H as <- <-. repeat split; [done | lia | done].
  - cbn [train_loop] in H. apply bind_ok in H as (h1 & s1 & Hs & H).
    destruct (train_step_invariant _ _ _ _ _ _ _ HQ Hs) as (S1 & S2 & S3).
    destruct (IH _ _ _ S1 H) as (I1 & _ & I3).
    repeat split; auto.
Qed.


Lemma train_invariant (s : state) (hist : history) (s' : state) :
  Q (heap s) -> train args s = Ok hist s' -> Q (heap s').
Proof using PQ Hest HganP HganQ.
  intros HQ H. unfold train in H.
  apply bind_ok in H as (bpe & s1 & Hd & H).
  apply int_div_inv in Hd as (_ & -> & ->).
  apply bind_ok in H as (hb & s1 & Hd & H).
  apply int_div_inv in Hd as (_ & -> & ->).
  apply bind_ok in H as (h & s1 & Hl & H).
  apply bind_ok in H as ([] & s2 & Hp & H). injection H as <- <-.
  apply plot_history_inv in Hp as (_ & ->). cbn.
  now apply (train_loop_invariant _ _ _ _ _ _ _ _ HQ Hl).
Qed.

End Invariant.

(** ** The set-up of the notebook *)

Section Setup.
Context `{B : Backend}.
Variable L : nat.

Lemma setup_returns : is_ok (setup L fresh) = true.
Proof. lazy. reflexivity. Qed.

Lemma setup_result :
  setup L fresh = Ok (generator L, critic L, wgan_model L) (ready L).
Proof.
  destruct (ok_eta _ setup_returns) as (a & Hv & Heq).
  unfold generator, critic, wgan_model, models, ready. rewrite Hv.
  cbn [default from_option]. destruct a as [[g c] gan]. exact Heq.
Qed.

Lemma setup_critic_collects :
  critic_collects (skeleton (heap (ready L))) (critic L) = true.
Proof. lazy. reflexivity. Qed.

Lemma setup_composite_spares :
  composite_spares (skeleton (heap (ready L))) (critic L) (wgan_model L) = true.
Proof. lazy. reflexivity. Qed.

Lemma setup_composite_trains_norm :
  composite_trains_norm (skeleton (heap (ready L))) (critic L) (wgan_model L)
    = true.
Proof. lazy. reflexivity. Qed.

Lemma built_all_trainable :
  layers_all
    (heap (final_state
             (define_generator L
                (final_state (define_critic [80; 80; 1] fresh)))))
    (s_layers (critic L)) (fun _ l => l_trainable l)
    = true.
Proof. lazy. reflexivity. Qed.

Lemma setup_unfold (s : state) :
  setup L s
    = bind (define_critic [80; 80; 1]) (fun critic =>
        bind (define_generator L) (fun generator =>
          bind (define_wgan generator critic) (fun wgan_model =>
            ret (generator, critic, wgan_model)))) s.
Proof. reflexivity. Qed.

Lemma built_unfold (r : result Sequential) :
  final_state (define_generator L (final_state r))
    = match r with
      | Ok _ s1 | Err _ s1 => final_state (define_generator L s1)
      end.
Proof. now destruct r. Qed.

Lemma trains_norm_fact (sk0 : list layer) (c gan : Sequential)
    (h : list layer) (a : nat) (l : layer) (j : nat) (v : variable) :
  composite_trains_norm sk0 c gan = true ->
  skeleton h = sk0 -> a ∈ s_layers c -> h !! a = Some l ->
  l_weights l !! j = Some v ->
  is_BatchNormalization (l_kind l) = true -> v_trainable v = true ->
  (a, j) ∈ collected gan.
Proof.
  intros Hall Hsk Ha Hl Hv Hbn Ht. unfold composite_trains_norm in Hall.
  rewrite <- Hsk in Hall.
  destruct (layers_all_lookup _ _ _ _ Hall Ha) as (l' & Hl' & HP).
  rewrite (skeleton_lookup _ _ _ Hl) in Hl'. injection Hl' as <-.
  change (l_kind (erase_layer l)) with (l_kind l) in HP. rewrite Hbn in HP.
  assert (Hv' : l_weights (erase_layer l) !! j = Some (erase_variable v)).
  { unfold erase_layer. cbn. now rewrite list_lookup_fmap, Hv. }
  pose proof (weights_all_lookup _ _ _ _ HP Hv') as H. cbn in H.
  rewrite Ht in H. cbn in H. now apply bool_decide_eq_true in H.
Qed.


(** C8. After the set-up, the layers of the critic that are not
    normalization layers are marked non-trainable and the composite has
    collected none of their weights, the normalization layers are
    trainable and the composite has collected their trainable weights;
    so an update through the composite, in any state whose layers are
    those of the set-up, leaves every layer of the critic that is not a
    normalization layer exactly as it was. *)
Theorem composite_freezes_critic :
  setup L fresh = Ok (generator L, critic L, wgan_model L) (ready L)
  /\ (forall a l,
        a ∈ s_layers (critic L) -> heap (ready L) !! a = Some l ->
        l_trainable l = is_BatchNormalization (l_kind l))
  /\ (forall a l j v,
        a ∈ s_layers (critic L) -> heap (ready L) !! a = Some l ->
        l_weights l !! j = Some v ->
        if is_BatchNormalization (l_kind l)
        then v_trainable v = true -> (a, j) ∈ collected (wgan_model L)
        else (a, j) ∉ collected (wgan_model L))
  /\ (forall s X y loss s',
        skeleton (heap s) = skeleton (heap (ready L)) ->
        train_on_batch (wgan_model L) X y s = Ok loss s' ->
        skeleton (heap s') = skeleton (heap (ready L))
        /\ forall a l,
             a ∈ s_layers (critic L) -> heap s !! a = Some l ->
             is_BatchNormalization (l_kind l) = false ->
             heap s' !! a = Some l).
Proof.
  split; [exact setup_result |]. split; [| split].
  - intros a l Ha Hl.
    apply (spares_fact _ _ _ setup_composite_spares _ _ _ eq_refl Ha Hl).
  - intros a l j v Ha Hl Hv.
    destruct (is_BatchNormalization (l_kind l)) eqn:Hbn.
    + intros Ht.
      apply (trains_norm_fact _ _ _ _ _ _ _ _ setup_composite_trains_norm
               eq_refl Ha Hl Hv Hbn Ht).
    + destruct (spares_fact _ _ _ setup_composite_spares _ _ _ eq_refl Ha Hl)
        as [_ Hw].
      rewrite Hbn in Hw. eauto.
  - intros s X y loss s' Hsk Ht. split.
    + pose proof Ht as Ht'.
      apply train_on_batch_inv in Ht' as (? & ? & _ & _ & _ & _ & _ & ->).
      cbn [heap]. now rewrite skeleton_apply_updates.
    + intros a l Ha Hl Hbn.
      apply (composite_update_frame _ _ _ setup_composite_spares
               _ _ _ _ _ a l Hsk Ht Ha Hl Hbn).
Qed.

Lemma Ok_inj {A} (a a' : A) (s s' : state) :
  Ok a s = Ok a' s' -> a = a' /\ s = s'.
Proof. now intros [= -> ->]. Qed.

Lemma freeze_idempotent (l : layer) :
  freeze_unless_bn (freeze_unless_bn l) = freeze_unless_bn l.
Proof.
  unfold freeze_unless_bn.
  destruct (is_BatchNormalization (l_kind l)) eqn:E; cbn; rewrite ?E; reflexivity.
Qed.

(** The loop of [define_wgan] changes the layers of the critic where
    they are, and no other layer. *)
Lemma freeze_layers_lookup (ls : list nat) (h : list layer) (a : nat) :
  freeze_layers ls h !! a
    = if bool_decide (a ∈ ls) then freeze_unless_bn <$> h !! a else h !! a.
Proof.
  unfold freeze_layers. revert h. induction ls as [| x ls IH]; intros h.
  - cbn. now rewrite bool_decide_false by apply not_elem_of_nil.
  - cbn [foldl]. rewrite IH.
    rewrite list_lookup_alter.
    destruct (decide (x = a)) as [Heq | Hne].
    + subst x. rewrite (bool_decide_true (a ∈ a :: ls))
        by apply list_elem_of_here.
      case_bool_decide; [| reflexivity].
      destruct (h !! a); cbn; [| reflexivity]. now rewrite freeze_idempotent.
    + case_bool_decide as H1; case_bool_decide as H2; try reflexivity.
      * exfalso. apply H2. now apply list_elem_of_further.
      * exfalso. apply elem_of_cons in H2 as [-> | H2]; done.
Qed.

Lemma add_model_state (m other m' : Sequential) (s s' : state) :
  add_model m other s = Ok m' s' -> s' = s.
Proof.
  unfold add_model. destruct (s_input_shape other); [| discriminate].
  destruct (s_input_shape m).
  - case_decide; [| discriminate]. now intros [= _ ->].
  - now intros [= _ ->].
Qed.

Lemma define_wgan_heap (g c gan : Sequential) (s s' : state) :
  define_wgan g c s = Ok gan s' ->
  heap s' = freeze_layers (s_layers c) (heap s).
Proof.
  unfold define_wgan. intros H.
  apply bind_ok in H as (h & s1 & Hg & H). injection Hg as <- <-.
  apply bind_ok in H as ([] & s2 & Hp & H). injection Hp as <-.
  apply bind_ok in H as (m1 & s3 & H1 & H). apply add_model_state in H1 as ->.
  apply bind_ok in H as (m2 & s4 & H2 & H). apply add_model_state in H2 as ->.
  unfold compile in H. apply bind_ok in H as (h2 & s5 & Hg & H).
  injection Hg as <- <-. injection H as _ <-. reflexivity.
Qed.

(** C10. The set-up returns; [define_wgan] changes the layer objects of
    the critic in place (every layer of the critic was trainable before
    the call and is, at the same address, frozen unless it is a
    normalization layer after it); the critic, compiled before the
    call, has collected the trainable weights of its frozen layers, and
    an update of the critic after the call, in any state whose layers
    are those of the set-up, still writes them: each holds afterwards
    the value the optimizer computed for it in this call, clipped when
    the weight has a constraint. *)
Theorem define_wgan_mutates_critic :
  exists s1 s2,
    define_critic [80; 80; 1] fresh = Ok (critic L) s1
    /\ define_generator L s1 = Ok (generator L) s2
    /\ define_wgan (generator L) (critic L) s2 = Ok (wgan_model L) (ready L)
    /\ (forall a l,
          a ∈ s_layers (critic L) -> heap s2 !! a = Some l ->
          l_trainable l = true
          /\ heap (ready L) !! a = Some (freeze_unless_bn l))
    /\ (forall a, a ∉ s_layers (critic L) -> heap (ready L) !! a = heap s2 !! a)
    /\ (forall a l j v,
          a ∈ s_layers (critic L) -> heap (ready L) !! a = Some l ->
          is_BatchNormalization (l_kind l) = false ->
          l_weights l !! j = Some v -> v_trainable v = true ->
          l_trainable l = false /\ (a, j) ∈ collected (critic L))
    /\ (forall s X y loss s4,
          skeleton (heap s) = skeleton (heap (ready L)) ->
          train_on_batch (critic L) X y s = Ok loss s4 ->
          exists c new,
            s_compiled (critic L) = Some c
            /\ fit (calls s) (c_loss c)
                 (resolve (heap s) (s_layers (critic L))) (items X) (items y)
               = Some (loss, new)
            /\ forall a l j v,
                 a ∈ s_layers (critic L) -> heap s !! a = Some l ->
                 is_BatchNormalization (l_kind l) = false ->
                 l_weights l !! j = Some v -> v_trainable v = true ->
                 l_trainable l = false
                 /\ exists l' v',
                      heap s4 !! a = Some l' /\ l_weights l' !! j = Some v'
                      /\ v_value v'
                         = match v_constraint v with
                           | Some k =>
                               map float32_to_Q
                                 (ClipConstraint_call k
                                    (map float32_of_Q (new a j)))
                           | None => new a j
                           end).
Proof.
  pose proof setup_result as Hs. rewrite setup_unfold in Hs.
  apply bind_ok in Hs as (c & s1 & Hc & Hs).
  apply bind_ok in Hs as (g & s2 & Hg & Hs).
  apply bind_ok in Hs as (w & s3 & Hw & Hs).
  pose proof built_all_trainable as Hall.
  rewrite built_unfold, Hc, Hg in Hall. cbn [final_state] in Hall.
  apply Ok_inj in Hs as [Hm E3].
  apply pair_equal_spec in Hm as [Hm Ew].
  apply pair_equal_spec in Hm as [Eg Ec].
  subst g c w s3.
  exists s1, s2. split; [exact Hc |]. split; [exact Hg |].
  split; [exact Hw |].
  pose proof (define_wgan_heap _ _ _ _ _ Hw) as Hh.
  assert (Hfact : forall h a l j v,
            skeleton h = skeleton (heap (ready L)) ->
            a ∈ s_layers (critic L) -> h !! a = Some l ->
            is_BatchNormalization (l_kind l) = false ->
            l_weights l !! j = Some v -> v_trainable v = true ->
            l_trainable l = false /\ (a, j) ∈ collected (critic L)).
  { intros h a l j v Hsk Ha Hl Hbn Hv Ht. split.
    - rewrite <- Hbn.
      apply (spares_fact _ _ _ setup_composite_spares _ _ _ Hsk Ha Hl).
    - now apply (collects_fact _ _ setup_critic_collects _ _ _ _ _ Hsk Ha Hl Hv). }
  split; [| split; [| split]].
  - intros a l Ha Hl. split.
    + destruct (layers_all_lookup _ _ _ _ Hall Ha) as (l' & Hl' & HP).
      congruence.
    + rewrite Hh, freeze_layers_lookup, bool_decide_true, Hl by done.
      reflexivity.
  - intros a Ha. now rewrite Hh, freeze_layers_lookup, bool_decide_false.
  - intros a l j v. apply (Hfact _ a l j v eq_refl).
  - intros s X y loss s4 Hsk Ht.
    destruct (train_on_batch_update _ _ _ _ _ _ Ht)
      as (c & new & Hcc & Hfit & Hnew).
    exists c, new. split; [exact Hcc |]. split; [exact Hfit |].
    intros a l j v Ha Hl Hbn Hv Htr.
    destruct (Hfact _ a l j v Hsk Ha Hl Hbn Hv Htr) as [Hfr Hin].
    split; [exact Hfr |].
    destruct (Hnew a j l v Hin Ha Hl Hv) as (l' & v' & H1 & H2 & _ & H4).
    exists l', v'. split; [exact H1 |]. split; [exact H2 |].
    destruct (v_constraint v); [apply H4 | exact H4].
Qed.

End Setup.



Lemma composite_freezes_critic_witness :
  heap (final_state
          (@train_on_batch Demo.push (@wgan_model Demo.push 200)
             (mkArray [200] [replicate 200 0%Q]) (neg (ones_n1 1))
             (@ready Demo.push 200))) !! 0
    = heap (@ready Demo.push 200) !! 0.
Proof.
  destruct (ok_eta (@train_on_batch Demo.push (@wgan_model Demo.push 200)
                      (mkArray [200] [replicate 200 0%Q]) (neg (ones_n1 1))
                      (@ready Demo.push 200))) as (loss & _ & Heq);
    [lazy; reflexivity |].
  destruct (@composite_freezes_critic Demo.push 200) as (_ & _ & _ & Hframe).
  destruct (Hframe _ _ _ _ _ eq_refl Heq) as [_ Hsame].
  assert (Hk : l_kind <$> heap (@ready Demo.push 200) !! 0
               = Some (Conv2D 64 (4, 4) (2, 2) Linear)) by (lazy; reflexivity).
  destruct (heap (@ready Demo.push 200) !! 0) as [l |] eqn:Hl; [| discriminate].
  injection Hk as Hk. apply Hsame; [| exact Hl | now rewrite Hk].
  apply (bool_decide_unpack _). lazy. reflexivity.
Defined.

Lemma define_wgan_mutates_critic_witness :
  exists s1 s2 l v l' v',
    @define_critic Demo.push [80; 80; 1] fresh = Ok (@critic Demo.push 200) s1
    /\ @define_generator Demo.push 200 s1 = Ok (@generator Demo.push 200) s2
    /\ define_wgan (@generator Demo.push 200) (@critic Demo.push 200) s2
       = Ok (@wgan_model Demo.push 200) (@ready Demo.push 200)
    /\ heap (@ready Demo.push 200) !! 0 = Some l
    /\ l_trainable l = false
    /\ l_weights l !! 0 = Some v /\ head (v_value v) = Some 0%Q
    /\ heap (final_state
               (@train_on_batch Demo.push (@critic Demo.push 200)
                  (Demo.black 1 [80; 80; 1]) (neg (ones_n1 1))
                  (@ready Demo.push 200))) !! 0 = Some l'
    /\ l_weights l' !! 0 = Some v'
    /\ head (v_value v') = Some (float32_to_Q (float32_of_Q (5 # 1000))).
Proof.
  destruct (@define_wgan_mutates_critic Demo.push 200)
    as (s1 & s2 & H1 & H2 & H3 & _ & _ & _ & Hupd).
  destruct (ok_eta (@train_on_batch Demo.push (@critic Demo.push 200)
                      (Demo.black 1 [80; 80; 1]) (neg (ones_n1 1))
                      (@ready Demo.push 200)))
    as (loss & _ & Hup); [lazy; reflexivity |].
  destruct (Hupd _ _ _ _ _ eq_refl Hup) as (c & new & _ & Hfit & Hw).
  assert (Hn : match new 0 0 with [] => None | x :: _ => Some x end = Some 1%Q).
  { pose proof (f_equal (fun o => match o with
                                  | Some p => match snd p 0 0 with
                                              | [] => None
                                              | x :: _ => Some x
                                              end
                                  | None => None
                                  end) Hfit) as Hn.
    cbn beta iota in Hn. cbn [snd] in Hn. rewrite <- Hn. lazy. reflexivity. }
  assert (Hk : (heap (@ready Demo.push 200) !! 0 ≫= fun l =>
                  l_weights l !! 0 ≫= fun v =>
                    Some (l_kind l, v_trainable v, v_constraint v,
                          head (v_value v)))
               = Some (Conv2D 64 (4, 4) (2, 2) Linear, true, Some const,
                       Some 0%Q)) by (lazy; reflexivity).
  destruct (heap (@ready Demo.push 200) !! 0) as [l |] eqn:Hl; [| discriminate].
  cbn [mbind option_bind] in Hk.
  destruct (l_weights l !! 0) as [v |] eqn:Hv; [| discriminate].
  cbn [mbind option_bind] in Hk. injection Hk as Hkind Htr Hcon Hhead.
  destruct (Hw 0 l 0 v) as (Hfr & l' & v' & E1 & E2 & E3).
  - apply (bool_decide_unpack _). lazy. reflexivity.
  - exact Hl.
  - now rewrite Hkind.
  - exact Hv.
  - exact Htr.
  - exists s1, s2, l, v, l', v'.
    split; [exact H1 |]. split; [exact H2 |]. split; [exact H3 |].
    split; [reflexivity |]. split; [exact Hfr |]. split; [exact Hv |].
    split; [exact Hhead |]. split; [exact E1 |]. split; [exact E2 |].
    rewrite E3, Hcon. clear - Hn.
    destruct (new 0 0) as [| x r]; [discriminate Hn |]. injection Hn as ->.
    lazy. reflexivity.
Defined.

(** * Further properties of the notebook's functions *)

(** ** The samplers *)

Lemma concat_chunks {A} (x : list A) (n d : nat) :
  length x = n * d ->
  concat (map (fun i => take d (drop (i * d) x)) (seq 0 n)) = x.
Proof.
  revert x. induction n as [| n IH]; intros x Hx.
  - cbn. symmetry. apply nil_length_inv. lia.
  - cbn [seq map concat]. rewrite <- seq_shift, map_map.
    change (0 * d) with 0. rewrite drop_0.
    transitivity (take d x ++ drop d x); [| apply take_drop]. f_equal.
    etrans; [| apply (IH (drop d x)); rewrite length_drop; lia].
    f_equal. apply map_ext. intros i. now rewrite drop_drop.
Qed.

Section SamplerFacts.
Context `{B : Backend}.

(** X1. [generate_latent_points] always returns: [n] rows of
    [latent_dim] entries, row [i] holding the draws
    [i * latent_dim .. i * latent_dim + latent_dim - 1] of the random
    stream from its current position (so the rows laid end to end are
    the draws in order), and it uses up [latent_dim * n] draws and
    nothing else. *)
Theorem latent_points_layout (L n : nat) (s : state) :
  exists zs,
    generate_latent_points L n s
      = Ok (mkArray [L] zs)
          (mkState (heap s) (rng_pos s + L * n) (calls s) (trace s))
    /\ length zs = n
    /\ (forall i z, zs !! i = Some z ->
          length z = L
          /\ forall j, j < L ->
               z !! j = Some (randn_raw (rng_pos s + (i * L + j))))
    /\ concat zs = map (fun k => randn_raw (rng_pos s + k)) (seq 0 (L * n)).
Proof.
  set (x := map (fun k => randn_raw (rng_pos s + k)) (seq 0 (L * n))).
  assert (Hx : length x = L * n) by (subst x; now rewrite length_map, length_seq).
  exists (items (reshape x n L)).
  split; [reflexivity |].
  destruct (reshape_rows x n L Hx) as [Hlen Hall].
  split; [exact Hlen |]. split.
  - intros i z Hz. split.
    + rewrite Forall_forall in Hall. apply Hall.
      apply list_elem_of_lookup. eauto.
    + intros j Hj. unfold reshape in Hz. cbn [items] in Hz.
      rewrite list_lookup_fmap in Hz.
      destruct (seq 0 n !! i) as [i' |] eqn:Hi; [| discriminate].
      apply lookup_seq in Hi as [-> Hi]. cbn in Hz. injection Hz as <-.
      rewrite lookup_take, decide_True by done. rewrite lookup_drop.
      subst x. rewrite list_lookup_fmap.
      rewrite (lookup_seq_lt 0 (L * n) (i * L + j)) by nia.
      reflexivity.
  - unfold reshape. cbn [items]. apply concat_chunks. lia.
Qed.

(** X2. On a data set without images [generate_real_samples] raises
    ValueError for every [n >= 1], and leaves the state, the random
    generator included, as it was; asked for no sample it returns the
    empty batch, as it does on every data set. *)
Theorem real_samples_need_images (data : ndarray) (n : nat) (s : state) :
  shape0 data = 0 ->
  (1 <= n -> generate_real_samples data n s = Err ValueError s)
  /\ generate_real_samples data 0 s
     = Ok (mkArray (item_shape data) [], neg (ones_n1 0)) s.
Proof.
  intros HN. split; [now apply generate_real_samples_empty |].
  rewrite generate_real_samples_nothing. destruct s as [h r c tr]. cbn.
  now rewrite Nat.add_0_r.
Qed.

(** X3. When the generator does not take latent points of
    [latent_dim] entries, [generate_fake_samples] raises ValueError,
    after the latent points were drawn: the random generator has moved
    by [latent_dim * n], nothing else has changed. *)
Theorem fake_samples_latent_mismatch (g : Sequential) (L n : nat) (s : state) :
  s_input_shape g <> Some [L] ->
  generate_fake_samples g L n s
    = Err ValueError (mkState (heap s) (rng_pos s + L * n) (calls s) (trace s)).
Proof. apply generate_fake_samples_mismatch. Qed.

End SamplerFacts.

Lemma real_samples_need_images_witness :
  @generate_real_samples Demo.still (Demo.black 0 [80; 80; 1]) 1 fresh
    = Err ValueError fresh.
Proof.
  apply (@real_samples_need_images Demo.still (Demo.black 0 [80; 80; 1]) 1 fresh);
    [reflexivity | lia].
Defined.

Lemma fake_samples_latent_mismatch_witness :
  @generate_fake_samples Demo.still (@generator Demo.still 200) 100 3
    (@ready Demo.still 200)
    = Err ValueError
        (mkState (heap (@ready Demo.still 200))
           (rng_pos (@ready Demo.still 200) + 100 * 3)
           (calls (@ready Demo.still 200)) (trace (@ready Demo.still 200))).
Proof.
  apply (@fake_samples_latent_mismatch Demo.still).
  apply (bool_decide_unpack _). lazy. reflexivity.
Defined.

(** ** The builders *)

Section Builders.
Context `{B : Backend}.

Lemma add_inv (m : Sequential) (c : layer_config) (s : state)
    (m' : Sequential) (s' : state) :
  add m c s = Ok m' s' ->
  exists l,
    heap s' = heap s ++ [l]
    /\ s_layers m' = s_layers m ++ [length (heap s)]
    /\ s_compiled m' = s_compiled m
    /\ rng_pos s' = rng_pos s /\ calls s' = calls s /\ trace s' = trace s.
Proof.
  unfold add.
  destruct (match s_input_shape m with
            | Some _ => Some (s_output_shape m)
            | None => input_shape c
            end) as [i |]; [| discriminate].
  unfold bind, get_heap.
  destruct (build c i (length (heap s))) as [l |]; [| discriminate].
  cbn. intros [= <- <-]. exists l. done.
Qed.

Lemma grown_start (s : state) : grown s 0 Sequential_new s.
Proof.
  unfold grown. repeat split; try reflexivity.
  exists []. now rewrite app_nil_r.
Qed.

Lemma grown_add (s : state) (k : nat) (m : Sequential) (s1 : state)
    (c : layer_config) (m' : Sequential) (s2 : state) :
  grown s k m s1 -> add m c s1 = Ok m' s2 -> grown s (S k) m' s2.
Proof.
  intros ((new & Hh & Hn) & Hl & Hr & Hc & Ht) H.
  apply add_inv in H as (l & Hh' & Hl' & _ & Hr' & Hc' & Ht').
  unfold grown. repeat split; try congruence.
  - exists (new ++ [l]). rewrite Hh', Hh, length_app. cbn.
    split; [now rewrite <- app_assoc | lia].
  - rewrite Hl', Hl, Hh, length_app, Hn, seq_S. reflexivity.
Qed.

Lemma compile_inv (m : Sequential) (loss : loss_function) (opt : optimizer)
    (s : state) (m' : Sequential) (s' : state) :
  compile m loss opt s = Ok m' s' ->
  s' = s /\ s_layers m' = s_layers m /\ is_Some (s_compiled m')
  /\ s_input_shape m' = s_input_shape m
  /\ s_output_shape m' = s_output_shape m.
Proof.
  unfold compile, bind, get_heap, ret. intros [= <- <-]. cbn. eauto 10.
Qed.

Lemma define_critic_grown (in_shape : shape) (s : state) (m : Sequential)
    (s' : state) :
  define_critic in_shape s = Ok m s' -> grown s 14 m s'.
Proof.
  unfold define_critic. intros H.
  pose proof (grown_start s) as G.
  do 14 (apply bind_ok in H as (? & ? & Ha & H);
         apply (grown_add _ _ _ _ _ _ _ G) in Ha; clear G; rename Ha into G).
  apply compile_inv in H as (-> & Hl & _ & _ & _).
  destruct G as (G1 & G2 & G3). unfold grown. rewrite Hl. done.
Qed.

Lemma define_generator_grown (L : nat) (s : state) (m : Sequential)
    (s' : state) :
  define_generator L s = Ok m s' -> grown s 16 m s'.
Proof.
  unfold define_generator. intros H.
  pose proof (grown_start s) as G.
  do 16 (apply bind_ok in H as (? & ? & Ha & H);
         apply (grown_add _ _ _ _ _ _ _ G) in Ha; clear G; rename Ha into G).
  now injection H as <- <-.
Qed.

Lemma define_critic_returns (h w ch : nat) (s : state) :
  is_ok (define_critic [h; w; ch] s) = true.
Proof. reflexivity. Qed.

Lemma define_critic_signature (h w ch : nat) (s : state) :
  (fun m => (s_input_shape m, s_output_shape m,
             bool_decide (is_Some (s_compiled m))))
    <$> value_of (define_critic [h; w; ch] s)
  = Some (Some [h; w; ch], [1], true).
Proof. reflexivity. Qed.

Lemma define_critic_feature_maps (h w ch : nat) :
  map l_output_shape (heap (final_state (define_critic [h; w; ch] fresh)))
  = [[halved h; halved w; 64]; [halved h; halved w; 64];
     [halved h; halved w; 64];
     [halved (halved h); halved (halved w); 64];
     [halved (halved h); halved (halved w); 64];
     [halved (halved h); halved (halved w); 64];
     [halved (halved (halved h)); halved (halved (halved w)); 64];
     [halved (halved (halved h)); halved (halved (halved w)); 64];
     [halved (halved (halved h)); halved (halved (halved w)); 64];
     [halved (halved (halved (halved h))); halved (halved (halved (halved w))); 64];
     [halved (halved (halved (halved h))); halved (halved (halved (halved w))); 64];
     [halved (halved (halved (halved h))); halved (halved (halved (halved w))); 64];
     [tensor_size [halved (halved (halved (halved h)));
                   halved (halved (halved (halved w))); 64]];
     [1]].
Proof. reflexivity. Qed.

Lemma define_critic_low_rank (in_shape : shape) (s : state) :
  length in_shape < 3 -> define_critic in_shape s = Err ValueError s.
Proof.
  intros H.
  destruct in_shape as [| a [| b [| c r]]]; try reflexivity.
  cbn in H. lia.
Qed.

Lemma define_critic_rank4_returns (a h w ch : nat) (s : state) :
  is_ok (define_critic [a; h; w; ch] s) = true.
Proof. reflexivity. Qed.

Lemma define_critic_rank4_signature (a h w ch : nat) (s : state) :
  (fun m => (s_input_shape m, s_output_shape m,
             bool_decide (is_Some (s_compiled m))))
    <$> value_of (define_critic [a; h; w; ch] s)
  = Some (Some [a; h; w; ch], [1], true).
Proof. reflexivity. Qed.

(** X4. For every image shape of three positive sides [define_critic]
    returns, in any state: a compiled model that takes this shape and
    gives one score, made of 14 layer objects allocated behind the
    existing ones, which it leaves as they are.  It returns as well for
    a shape with one more axis in front, which the convolutions keep;
    for a shape of fewer than three axes it raises ValueError and
    changes nothing. *)
Theorem critic_builder (h w ch : nat) (s : state) :
  1 <= h -> 1 <= w -> 1 <= ch ->
  (exists m s',
      define_critic [h; w; ch] s = Ok m s'
      /\ s_input_shape m = Some [h; w; ch]
      /\ s_output_shape m = [1]
      /\ is_Some (s_compiled m)
      /\ grown s 14 m s')
  /\ (forall a,
        1 <= a ->
        exists m s',
          define_critic [a; h; w; ch] s = Ok m s'
          /\ s_input_shape m = Some [a; h; w; ch]
          /\ s_output_shape m = [1]
          /\ is_Some (s_compiled m)
          /\ grown s 14 m s')
  /\ (forall in_shape,
        length in_shape < 3 -> define_critic in_shape s = Err ValueError s).
Proof.
  intros _ _ _. split; [| split; [| intros; now apply define_critic_low_rank]].
  - destruct (ok_eta _ (define_critic_returns h w ch s)) as (m & Hv & Heq).
    pose proof (define_critic_signature h w ch s) as Hsig.
    rewrite Hv in Hsig. cbn in Hsig. injection Hsig as H1 H2 H3.
    exists m, (final_state (define_critic [h; w; ch] s)).
    split; [exact Heq |]. split; [exact H1 |]. split; [exact H2 |].
    split; [now apply bool_decide_eq_true in H3 |].
    apply (define_critic_grown _ _ _ _ Heq).
  - intros a _.
    destruct (ok_eta _ (define_critic_rank4_returns a h w ch s)) as (m & Hv & Heq).
    pose proof (define_critic_rank4_signature a h w ch s) as Hsig.
    rewrite Hv in Hsig. cbn in Hsig. injection Hsig as H1 H2 H3.
    exists m, (final_state (define_critic [a; h; w; ch] s)).
    split; [exact Heq |]. split; [exact H1 |]. split; [exact H2 |].
    split; [now apply bool_decide_eq_true in H3 |].
    apply (define_critic_grown _ _ _ _ Heq).
Qed.

(** X5. The critic halves the sides of its feature maps four times,
    rounding up: built in a fresh process for images of [h] by [w]
    pixels, its fourteen layers give the shapes listed, the flattened
    vector fed to the final dense layer having
    [halved^4 h * halved^4 w * 64] entries; for the 80 by 80 images of
    the notebook the sides are 40, 20, 10 and 5 and the vector has 1600
    entries. *)
Theorem critic_downsampling (h w ch : nat) :
  1 <= h -> 1 <= w -> 1 <= ch ->
  map l_output_shape (heap (final_state (define_critic [h; w; ch] fresh)))
  = [[halved h; halved w; 64]; [halved h; halved w; 64];
     [halved h; halved w; 64];
     [halved (halved h); halved (halved w); 64];
     [halved (halved h); halved (halved w); 64];
     [halved (halved h); halved (halved w); 64];
     [halved (halved (halved h)); halved (halved (halved w)); 64];
     [halved (halved (halved h)); halved (halved (halved w)); 64];
     [halved (halved (halved h)); halved (halved (halved w)); 64];
     [halved (halved (halved (halved h))); halved (halved (halved (halved w))); 64];
     [halved (halved (halved (halved h))); halved (halved (halved (halved w))); 64];
     [halved (halved (halved (halved h))); halved (halved (halved (halved w))); 64];
     [tensor_size [halved (halved (halved (halved h)));
                   halved (halved (halved (halved w))); 64]];
     [1]]
  /\ (forall n, 1 <= n -> 2 * halved n = n \/ 2 * halved n = n + 1)
  /\ halved 80 = 40 /\ halved 40 = 20 /\ halved 20 = 10 /\ halved 10 = 5
  /\ tensor_size [5; 5; 64] = 1600.
Proof.
  intros _ _ _. split; [apply define_critic_feature_maps |].
  split; [| repeat split].
  intros n Hn. unfold halved, same_out.
  replace (n + 2 - 1) with (n + 1) by lia.
  pose proof (Nat.div_mod_eq (n + 1) 2) as Hd.
  pose proof (Nat.mod_upper_bound (n + 1) 2 ltac:(lia)) as Hm. lia.
Qed.

Lemma define_generator_returns (L : nat) (s : state) :
  is_ok (define_generator L s) = true.
Proof. reflexivity. Qed.

Lemma define_generator_signature (L : nat) (s : state) :
  (fun m => (s_input_shape m, s_output_shape m, s_compiled m))
    <$> value_of (define_generator L s)
  = Some (Some [L], [80; 80; 1], None).
Proof. reflexivity. Qed.

(** X6. For every latent dimension [define_generator] returns, in any
    state: a model that takes vectors of this dimension and gives
    images of 80 by 80 pixels and one channel whatever the dimension,
    made of 16 new layer objects, and not compiled; so [predict] on [n]
    latent points, [n >= 1], gives [n] such images without changing the
    state, [predict] on an empty batch raises ValueError, and
    [train_on_batch] on the generator itself raises. *)
Theorem generator_builder (L : nat) (s : state) :
  1 <= L ->
  exists m s',
    define_generator L s = Ok m s'
    /\ s_input_shape m = Some [L]
    /\ s_output_shape m = [80; 80; 1]
    /\ s_compiled m = None
    /\ grown s 16 m s'
    /\ (forall X s1,
          item_shape X = [L] -> 1 <= shape0 X ->
          exists Y,
            predict m X s1 = Ok Y s1
            /\ item_shape Y = [80; 80; 1] /\ shape0 Y = shape0 X)
    /\ (forall X s1, shape0 X = 0 -> predict m X s1 = Err ValueError s1)
    /\ (forall X y s1, train_on_batch m X y s1 = Err RuntimeError s1).
Proof.
  intros _.
  destruct (ok_eta _ (define_generator_returns L s)) as (m & Hv & Heq).
  pose proof (define_generator_signature L s) as Hsig.
  rewrite Hv in Hsig. cbn in Hsig. injection Hsig as H1 H2 H3.
  exists m, (final_state (define_generator L s)).
  split; [exact Heq |]. split; [exact H1 |]. split; [exact H2 |].
  split; [exact H3 |]. split; [apply (define_generator_grown _ _ _ _ Heq) |].
  split; [| split].
  - intros X s1 HX Hn. eexists. split.
    + apply predict_ok; [now rewrite H1, HX | exact Hn].
    + cbn. split; [exact H2 |]. unfold shape0. cbn. apply length_map.
  - intros X s1 HX. now apply predict_empty.
  - intros X y s1. unfold train_on_batch. now rewrite H3.
Qed.

Lemma define_wgan_inv (g c gan : Sequential) (s s' : state) :
  define_wgan g c s = Ok gan s' ->
  s_layers gan = s_layers g ++ s_layers c
  /\ s_input_shape gan = s_input_shape g
  /\ s_output_shape gan = s_output_shape c
  /\ s_input_shape c = Some (s_output_shape g)
  /\ is_Some (s_compiled gan)
  /\ rng_pos s' = rng_pos s /\ calls s' = calls s /\ trace s' = trace s.
Proof.
  unfold define_wgan. intros H.
  apply bind_ok in H as (h & s1 & Hg & H). injection Hg as <- <-.
  apply bind_ok in H as ([] & s2 & Hp & H). injection Hp as <-.
  apply bind_ok in H as (m1 & s3 & H1 & H).
  apply bind_ok in H as (m2 & s4 & H2 & H).
  apply compile_inv in H as (-> & Hl & Hc & Hi & Ho).
  unfold add_model in H1. cbn [s_input_shape Sequential_new] in H1.
  destruct (s_input_shape g) as [ig |] eqn:Hig; [| discriminate].
  injection H1 as <- <-.
  unfold add_model in H2. cbn [s_input_shape s_output_shape s_layers] in H2.
  destruct (s_input_shape c) as [ic |] eqn:Hic; [| discriminate].
  case_decide as Hd; [| discriminate]. injection H2 as <- <-.
  cbn in Hl, Hi, Ho. rewrite Hl, Hi, Ho. subst ic. done.
Qed.

(** X7. When [define_wgan] returns, the composite holds the layer
    objects of the generator followed by those of the critic, the same
    objects and no copies: no layer is allocated; in the heap, the
    layers of the critic that are not normalization layers have lost
    their trainable flag and every other layer is exactly as it was;
    the composite is compiled, takes what the generator takes and gives
    what the critic gives. *)
Theorem composite_shares_layers (g c gan : Sequential) (s s' : state) :
  define_wgan g c s = Ok gan s' ->
  s_layers gan = s_layers g ++ s_layers c
  /\ length (heap s') = length (heap s)
  /\ (forall a,
        heap s' !! a
        = if bool_decide (a ∈ s_layers c)
          then freeze_unless_bn <$> heap s !! a
          else heap s !! a)
  /\ is_Some (s_compiled gan)
  /\ s_input_shape gan = s_input_shape g
  /\ s_output_shape gan = s_output_shape c
  /\ rng_pos s' = rng_pos s /\ calls s' = calls s /\ trace s' = trace s.
Proof.
  intros H. pose proof (define_wgan_heap _ _ _ _ _ H) as Hh.
  apply define_wgan_inv in H as (H1 & H2 & H3 & _ & H5 & H6 & H7 & H8).
  assert (Hlook : forall a,
            heap s' !! a
            = if bool_decide (a ∈ s_layers c)
              then freeze_unless_bn <$> heap s !! a
              else heap s !! a).
  { intros a. rewrite Hh. apply freeze_layers_lookup. }
  repeat split; try done.
  destruct (decide (length (heap s') = length (heap s))) as [| Hne]; [done |].
  exfalso.
  assert (Hcases : length (heap s') < length (heap s)
                   \/ length (heap s) < length (heap s')) by lia.
  destruct Hcases as [Hlt | Hlt].
  - destruct (lookup_lt_is_Some_2 (heap s) (length (heap s')) Hlt) as [l Hl].
    specialize (Hlook (length (heap s'))).
    rewrite (lookup_ge_None_2 (heap s')) in Hlook by lia. rewrite Hl in Hlook.
    case_bool_decide; discriminate.
  - destruct (lookup_lt_is_Some_2 (heap s') (length (heap s)) Hlt) as [l Hl].
    specialize (Hlook (length (heap s))).
    rewrite (lookup_ge_None_2 (heap s)) in Hlook by lia. rewrite Hl in Hlook.
    case_bool_decide; discriminate.
Qed.

End Builders.

Lemma setup_stages `{B : Backend} (L : nat) :
  exists s1 s2,
    define_critic [80; 80; 1] fresh = Ok (critic L) s1
    /\ define_generator L s1 = Ok (generator L) s2
    /\ define_wgan (generator L) (critic L) s2 = Ok (wgan_model L) (ready L).
Proof.
  pose proof (setup_result L) as Hs. rewrite setup_unfold in Hs.
  apply bind_ok in Hs as (c & s1 & Hc & Hs).
  apply bind_ok in Hs as (g & s2 & Hg & Hs).
  apply bind_ok in Hs as (w & s3 & Hw & Hs).
  apply Ok_inj in Hs as [Hm E3].
  apply pair_equal_spec in Hm as [Hm Ew].
  apply pair_equal_spec in Hm as [Eg Ec].
  subst g c w s3. eauto.
Qed.

Lemma critic_builder_witness :
  (exists m s',
      @define_critic Demo.still [80; 80; 1] fresh = Ok m s'
      /\ s_input_shape m = Some [80; 80; 1]
      /\ s_output_shape m = [1]
      /\ is_Some (s_compiled m)
      /\ grown fresh 14 m s')
  /\ (exists m s',
        @define_critic Demo.still [80; 80; 1; 1] fresh = Ok m s'
        /\ s_input_shape m = Some [80; 80; 1; 1]
        /\ s_output_shape m = [1])
  /\ @define_critic Demo.still [80; 80] fresh = Err ValueError fresh.
Proof.
  destruct (@critic_builder Demo.still 80 1 1 fresh) as (_ & H4 & _);
    [lia | lia | lia |].
  destruct (H4 80) as (m4 & s4 & E4 & I4 & O4 & _); [lia |].
  destruct (@critic_builder Demo.still 80 80 1 fresh) as (H3 & _ & Hlow);
    [lia | lia | lia |].
  split; [exact H3 |]. split; [exists m4, s4; auto |].
  apply Hlow. cbn. lia.
Defined.

Lemma critic_downsampling_witness :
  halved 80 = 40 /\ halved 40 = 20 /\ halved 20 = 10 /\ halved 10 = 5
  /\ tensor_size [5; 5; 64] = 1600.
Proof.
  apply (@critic_downsampling Demo.still 80 80 1); lia.
Defined.

Lemma generator_builder_witness :
  exists m s',
    @define_generator Demo.still 200 fresh = Ok m s'
    /\ s_input_shape m = Some [200]
    /\ s_output_shape m = [80; 80; 1]
    /\ s_compiled m = None.
Proof.
  destruct (@generator_builder Demo.still 200 fresh) as (m & s' & H1 & H2 & H3 & H4 & _);
    [lia |].
  exists m, s'. auto.
Defined.

Lemma composite_shares_layers_witness :
  s_layers (@wgan_model Demo.still 200)
    = s_layers (@generator Demo.still 200) ++ s_layers (@critic Demo.still 200).
Proof.
  destruct (@setup_stages Demo.still 200) as (s1 & s2 & _ & _ & Hw).
  apply (composite_shares_layers _ _ _ _ _ Hw).
Defined.


(** ** Checkpoints and the ends of a run *)

Section RunFacts.
Context `{B : Backend}.

(** X8. A checkpoint draws [latent_dim * n] random numbers, writes the
    plot and then the model, both tagged with the one-based index of
    the step, and changes no weight and no counter.  It plots 24
    images: with fewer samples (and at least one) it raises IndexError
    before any file is written.  When the plot is refused nothing is written; when the
    model is refused the plot is already there. *)
Theorem checkpoint_effects (step : nat) (g : Sequential) (L n : nat) (s : state) :
  s_input_shape g = Some [L] -> length (s_output_shape g) = 3 ->
  let drawn := mkState (heap s) (rng_pos s + L * n) (calls s) (trace s) in
  (1 <= n < 4 * 6 -> summarize_performance step g L n s = Err IndexError drawn)
  /\ (4 * 6 <= n ->
      write_ok (PlotFile (step + 1)) = true ->
      write_ok (ModelFile (step + 1)) = true ->
      summarize_performance step g L n s
        = Ok tt (mkState (heap s) (rng_pos s + L * n) (calls s)
                   (trace s ++ [EvSaved (PlotFile (step + 1));
                                EvSaved (ModelFile (step + 1));
                                EvPrintSaved (step + 1)])))
  /\ (4 * 6 <= n ->
      write_ok (PlotFile (step + 1)) = false ->
      summarize_performance step g L n s = Err OSError drawn)
  /\ (4 * 6 <= n ->
      write_ok (PlotFile (step + 1)) = true ->
      write_ok (ModelFile (step + 1)) = false ->
      summarize_performance step g L n s
        = Err OSError
            (mkState (heap s) (rng_pos s + L * n) (calls s)
               (trace s ++ [EvSaved (PlotFile (step + 1))]))).
Proof.
  intros Hg Hsh drawn.
  assert (Hgen : 1 <= n ->
            exists zs,
              generate_fake_samples g L n s
              = Ok (mkArray (s_output_shape g)
                      (map (predict_sample (resolve (heap s) (s_layers g))) zs),
                    ones_n1 n)
                   (mkState (heap s) (rng_pos s + L * n) (calls s) (trace s))
              /\ forall f : tensor -> tensor,
                   shape0 (mkArray (s_output_shape g)
                             (map f (map (predict_sample
                                            (resolve (heap s) (s_layers g))) zs)))
                   = n).
  { intros Hn.
    destruct (generate_fake_samples_ok g L n s Hg Hn) as (zs & Hf & Hlen & _).
    exists zs. split; [exact Hf |].
    intros f. unfold shape0. cbn. now rewrite !length_map. }
  split; [| split; [| split]].
  - intros Hn. destruct Hgen as (zs & Hf & Hs0); [lia |].
    unfold summarize_performance.
    rewrite (bind_step _ _ _ _ _ Hf). cbn [item_shape items].
    rewrite decide_False; [reflexivity |]. rewrite Hs0. lia.
  - intros Hn Hp Hm.
    rewrite (summarize_performance_ok step g L n s Hg Hn Hsh Hp Hm).
    reflexivity.
  - intros Hn Hp. destruct Hgen as (zs & Hf & Hs0); [lia |].
    unfold summarize_performance.
    rewrite (bind_step _ _ _ _ _ Hf). cbn [item_shape items].
    rewrite decide_True by (rewrite Hs0; split; [lia | done]).
    apply bind_fail, write_file_refused, Hp.
  - intros Hn Hp Hm. destruct Hgen as (zs & Hf & Hs0); [lia |].
    unfold summarize_performance.
    rewrite (bind_step _ _ _ _ _ Hf). cbn [item_shape items].
    rewrite decide_True by (rewrite Hs0; split; [lia | done]).
    rewrite (bind_step _ _ _ _ _ (write_file_ok _ _ Hp)).
    apply bind_fail, write_file_refused, Hm.
Qed.

(** X9. With [n_batch = 0] the first line of [train] divides by zero:
    ZeroDivisionError, and nothing was drawn, trained or written. *)
Theorem train_zero_batch (args : train_args) (s : state) :
  n_batch args = 0 -> train args s = Err ZeroDivisionError s.
Proof. intros H. unfold train. rewrite H. reflexivity. Qed.

(** X10. The loss curves are written after the last step: when their
    file is refused, [train] raises the error of the file system
    although every step has run, in the state the steps left. *)
Theorem loss_plot_failure (args : train_args) (s : state) (hist : history)
    (s1 : state) :
  n_batch args <> 0 ->
  train_loop args (shape0 (dataset args) / n_batch args) (n_batch args / 2) 0
    (shape0 (dataset args) / n_batch args * n_epochs args)
    (mkHistory [] [] []) s = Ok hist s1 ->
  write_ok LossPlotFile = false ->
  train args s = Err OSError s1.
Proof.
  intros HB Hl Hw. unfold train.
  rewrite (bind_step _ _ _ _ _ (int_div_ok _ (n_batch args) s HB)).
  rewrite (bind_step _ _ _ _ _ (int_div_ok (n_batch args) 2 s ltac:(lia))).
  rewrite (bind_step _ _ _ _ _ Hl).
  apply bind_fail. unfold plot_history. now rewrite Hw.
Qed.

Lemma critic_loop_calls (args : train_args) (hb k : nat)
    (tmp tmp' : list npfloat * list npfloat) (s s' : state) :
  critic_loop args hb k tmp s = Ok tmp' s' -> calls s' = calls s + 2 * k.
Proof.
  revert tmp s. induction k as [| k IH]; intros [t1 t2] s H.
  - injection H as <- <-. lia.
  - cbn [critic_loop] in H. apply bind_ok in H as ([d1 d2] & s1 & Hs & H).
    apply critic_substep_inv in Hs as (l1 & l2 & s0 & Hr & Hf & _ & _).
    apply critic_real_update_inv in Hr
      as (X & sa & _ & _ & Hca & _ & _ & _ & Hr).
    apply train_on_batch_inv in Hr as (? & ? & _ & _ & _ & _ & _ & ->).
    apply critic_fake_update_inv in Hf
      as (X' & sb & zs & _ & _ & Hcb & _ & _ & _ & _ & Hf).
    apply train_on_batch_inv in Hf as (? & ? & _ & _ & _ & _ & _ & ->).
    apply IH in H. cbn in *. lia.
Qed.

Lemma train_loop_calls (args : train_args) (bpe hb first n : nat)
    (hist hist' : history) (s s' : state) :
  train_loop args bpe hb first n hist s = Ok hist' s' ->
  calls s' = calls s + n * (2 * n_critic args + 1).
Proof.
  revert first hist s. induction n as [| n IH]; intros first hist s H.
  - injection H as <- <-. lia.
  - cbn [train_loop] in H. apply bind_ok in H as (h1 & s1 & Hs & H).
    unfold train_step in Hs. apply bind_ok in Hs as (tmp & s0 & Hc & Hg).
    apply critic_loop_calls in Hc. destruct tmp as [c1 c2].
    apply generator_phase_inv in Hg
      as (X & sa & g_loss & sb & _ & _ & Hca & _ & _ & Hg & _ & _ & Hcb & _).
    apply train_on_batch_inv in Hg as (? & ? & _ & _ & _ & _ & _ & ->).
    apply IH in H. cbn in *. lia.
Qed.

(** X11. A run of [train] that returns has made exactly
    [floor(N/B) * E * (2 * n_critic + 1)] training calls: per step two
    for every pass of the critic loop and one through the composite. *)
Theorem training_call_count (args : train_args) (s : state) (hist : history)
    (s' : state) :
  train args s = Ok hist s' ->
  calls s'
  = calls s
    + shape0 (dataset args) / n_batch args * n_epochs args
      * (2 * n_critic args + 1).
Proof.
  unfold train. intros H.
  apply bind_ok in H as (bpe & s1 & Hd & H).
  apply int_div_inv in Hd as (_ & -> & ->).
  apply bind_ok in H as (hb & s1 & Hd & H).
  apply int_div_inv in Hd as (_ & -> & ->).
  apply bind_ok in H as (h & s1 & Hl & H).
  apply bind_ok in H as ([] & s2 & Hp & H). injection H as <- <-.
  apply plot_history_inv in Hp as (_ & ->). cbn.
  now apply train_loop_calls in Hl.
Qed.

(** X12. With [n_critic = 0] a training step makes no update of the
    critic: it records nan for both critic losses (the mean of no
    loss), and its only training call is the one through the
    composite. *)
Theorem step_without_critic_passes (args : train_args) (bpe hb i : nat)
    (hist hist' : history) (s s' : state) :
  n_critic args = 0 ->
  train_step args bpe hb i hist s = Ok hist' s' ->
  exists g_loss g_ev,
    is_generator_update args g_loss g_ev
    /\ c1_hist hist' = c1_hist hist ++ [NaN]
    /\ c2_hist hist' = c2_hist hist ++ [NaN]
    /\ g_hist hist' = g_hist hist ++ [g_loss]
    /\ calls s' = S (calls s)
    /\ trace s'
       = trace s
         ++ [g_ev; EvPrintLosses (i + 1) NaN NaN g_loss]
         ++ (if decide ((i + 1) mod bpe = 0)
             then checkpoint_events (i + 1) else []).
Proof.
  intros HK H.
  assert (Hcalls : calls s' = calls s + 1 * (2 * n_critic args + 1)).
  { apply (train_loop_calls args bpe hb i 1 hist hist' s s').
    cbn [train_loop]. unfold bind at 1. rewrite H. reflexivity. }
  apply train_step_inv in H
    as (tr & (c1 & c2 & evs & g_loss & g_ev & Hph & H1 & H2 & Hg & -> & ->) & Ht).
  rewrite HK in H1, H2. apply nil_length_inv in H1, H2. subst c1 c2.
  inversion Hph; subst. exists g_loss, g_ev.
  repeat split; try done. rewrite HK in Hcalls. lia.
Qed.

End RunFacts.
(** ** What the updates touch *)

Lemma train_on_batch_frame `{B : Backend} (m : Sequential) (X y : ndarray)
    (s : state) (loss : npfloat) (s' : state) (a : nat) :
  train_on_batch m X y s = Ok loss s' -> a ∉ s_layers m ->
  heap s' !! a = heap s !! a.
Proof.
  intros H Ha. apply train_on_batch_inv in H as (? & ? & _ & _ & _ & _ & _ & ->).
  cbn [heap]. rewrite apply_updates_lookup, bool_decide_false by done.
  now destruct (heap s !! a).
Qed.

Lemma train_on_batch_skeleton `{B : Backend} (m : Sequential) (X y : ndarray)
    (s : state) (loss : npfloat) (s' : state) :
  train_on_batch m X y s = Ok loss s' -> skeleton (heap s') = skeleton (heap s).
Proof.
  intros H. apply train_on_batch_inv in H as (? & ? & _ & _ & _ & _ & _ & ->).
  cbn [heap]. apply skeleton_apply_updates.
Qed.

Lemma setup_layers `{B : Backend} (L : nat) :
  s_layers (critic L) = seq 0 14
  /\ s_layers (generator L) = seq 14 16
  /\ s_layers (wgan_model L) = seq 14 16 ++ seq 0 14.
Proof. split; [| split]; lazy; reflexivity. Qed.

Section Normalization.
Context `{B : Backend}.
Variables (c gan : Sequential) (sk0 : list layer).
Hypothesis Hsp : composite_spares sk0 c gan = true.
Hypothesis Htn : composite_trains_norm sk0 c gan = true.
Hypothesis Hsub : forall a, a ∈ s_layers c -> a ∈ s_layers gan.

Lemma composite_update_norm (s : state) (X y : ndarray) (loss : npfloat)
    (s' : state) :
  skeleton (heap s) = sk0 ->
  train_on_batch gan X y s = Ok loss s' ->
  exists cc new,
    s_compiled gan = Some cc
    /\ fit (calls s) (c_loss cc) (resolve (heap s) (s_layers gan))
         (items X) (items y) = Some (loss, new)
    /\ forall a l j v,
         a ∈ s_layers c -> heap s !! a = Some l ->
         is_BatchNormalization (l_kind l) = true ->
         l_weights l !! j = Some v ->
         exists l',
           heap s' !! a = Some l'
           /\ l_weights l' !! j = Some (set_value v (new a j)).
Proof using Hsp Htn Hsub.
  intros Hsk H.
  apply train_on_batch_inv in H as (cc & new & Hc & _ & _ & _ & Hfit & ->).
  exists cc, new. split; [exact Hc |]. split; [exact Hfit |].
  intros a l j v Ha Hl Hbn Hv. cbn [heap].
  rewrite apply_updates_lookup, Hl. cbn.
  rewrite bool_decide_true by auto.
  eexists. split; [reflexivity |].
  rewrite update_layer_lookup, Hv, Hbn. cbn.
  destruct (spares_fact _ _ _ Hsp _ _ _ Hsk Ha Hl) as [_ Hw].
  specialize (Hw j v Hv). rewrite Hbn in Hw.
  unfold update_variable. rewrite Hw. cbn [constrain].
  case_bool_decide as Hcol; [reflexivity |].
  destruct (v_trainable v) eqn:Ht; [| reflexivity].
  exfalso. apply Hcol.
  pose proof (trains_norm_fact _ _ _ _ _ _ _ _ Htn Hsk Ha Hl Hv Hbn Ht) as Hin'.
  unfold collected in Hin'. now rewrite Hc in Hin'.
Qed.

End Normalization.

Section Touch.
Context `{B : Backend}.

(** X13. The passes of the critic loop change no layer outside the
    critic; the generator of the notebook shares no layer with the
    critic, so its weights are the same after the loop: the generator is
    trained through the composite only. *)
Theorem critic_loop_spares_generator (args : train_args) (hb k : nat)
    (tmp tmp' : list npfloat * list npfloat) (s s' : state) :
  critic_loop args hb k tmp s = Ok tmp' s' ->
  (forall a, a ∉ s_layers (c_model args) -> heap s' !! a = heap s !! a)
  /\ (forall L data E Bsz K,
        args = notebook_args L data E Bsz K ->
        forall a, a ∈ s_layers (generator L) -> heap s' !! a = heap s !! a).
Proof.
  intros H.
  assert (Hframe : forall a, a ∉ s_layers (c_model args) ->
                     heap s' !! a = heap s !! a).
  { intros a Ha.
    refine (proj1 (critic_loop_invariant args
                     (fun h => h !! a = heap s !! a)
                     (fun h => h !! a = heap s !! a)
                     _ _ hb k tmp tmp' s s' eq_refl H)).
    - tauto.
    - intros X y s0 loss s1 HQ Ht.
      now rewrite (train_on_batch_frame _ _ _ _ _ _ _ Ht Ha). }
  split; [exact Hframe |].
  intros L data E Bsz K -> a Ha. apply Hframe. cbn [c_model notebook_args].
  destruct (setup_layers L) as (Hc & Hg & _). rewrite Hc. rewrite Hg in Ha.
  apply elem_of_seq in Ha. rewrite elem_of_seq. lia.
Qed.

(** X14. The composite does not leave the whole critic alone: an update
    through it gives every weight of every normalization layer of the
    critic, the scale and the offset as well as the moving mean and
    variance, the value the training function computed, unclipped. *)
Theorem composite_moves_normalization (L : nat) (s : state) (X y : ndarray)
    (loss : npfloat) (s' : state) :
  skeleton (heap s) = skeleton (heap (ready L)) ->
  train_on_batch (wgan_model L) X y s = Ok loss s' ->
  exists c new,
    s_compiled (wgan_model L) = Some c
    /\ fit (calls s) (c_loss c) (resolve (heap s) (s_layers (wgan_model L)))
         (items X) (items y) = Some (loss, new)
    /\ forall a l j v,
         a ∈ s_layers (critic L) -> heap s !! a = Some l ->
         is_BatchNormalization (l_kind l) = true ->
         l_weights l !! j = Some v ->
         exists l',
           heap s' !! a = Some l'
           /\ l_weights l' !! j = Some (set_value v (new a j)).
Proof.
  apply (composite_update_norm (critic L) (wgan_model L) _
           (setup_composite_spares L) (setup_composite_trains_norm L)).
  intros a Ha. destruct (setup_layers L) as (Hcl & _ & Hgl).
  rewrite Hgl. rewrite Hcl in Ha. apply elem_of_app. now right.
Qed.

(** X15. Training changes values only: when [train] returns, for any
    arguments, the heap holds the same layer objects with the same
    kinds, flags and output shapes, and every weight has its name,
    shape, flag and constraint; only the values of weights may differ. *)
Theorem train_keeps_structure (args : train_args) (s : state) (hist : history)
    (s' : state) :
  train args s = Ok hist s' ->
  skeleton (heap s') = skeleton (heap s)
  /\ length (heap s') = length (heap s)
  /\ forall a l',
       heap s' !! a = Some l' ->
       exists l,
         heap s !! a = Some l
         /\ l_kind l' = l_kind l /\ l_trainable l' = l_trainable l
         /\ l_output_shape l' = l_output_shape l
         /\ map v_name (l_weights l') = map v_name (l_weights l)
         /\ map v_trainable (l_weights l') = map v_trainable (l_weights l)
         /\ map v_constraint (l_weights l') = map v_constraint (l_weights l).
Proof.
  intros H.
  assert (Hsk : skeleton (heap s') = skeleton (heap s)).
  { apply (train_invariant args
             (fun h => skeleton h = skeleton (heap s))
             (fun h => skeleton h = skeleton (heap s))) with (s := s) (hist := hist).
    - tauto.
    - intros X y s0 loss s1 HQ Ht.
      now rewrite (train_on_batch_skeleton _ _ _ _ _ _ Ht).
    - intros X y s0 loss s1 HQ Ht.
      now rewrite (train_on_batch_skeleton _ _ _ _ _ _ Ht).
    - intros X y s0 loss s1 HQ Ht.
      now rewrite (train_on_batch_skeleton _ _ _ _ _ _ Ht).
    - reflexivity.
    - exact H. }
  split; [exact Hsk |]. split.
  - apply (f_equal length) in Hsk. unfold skeleton in Hsk.
    now rewrite !length_map in Hsk.
  - intros a l' Hl'.
    pose proof (f_equal (fun h => h !! a) Hsk) as Ha. cbn in Ha.
    unfold skeleton in Ha. rewrite !list_lookup_fmap, Hl' in Ha.
    destruct (heap s !! a) as [l |]; [| discriminate]. cbn in Ha.
    injection Ha as H1 H2 H3 H4. exists l. split; [reflexivity |].
    split; [exact H1 |]. split; [exact H2 |]. split; [exact H3 |].
    assert (Hn : forall (T : Type) (f : variable -> T),
              (forall v, f (erase_variable v) = f v) ->
              map f (l_weights l') = map f (l_weights l)).
    { intros T f Hf.
      rewrite <- (map_ext (fun v => f (erase_variable v)) f Hf (l_weights l')).
      rewrite <- (map_ext (fun v => f (erase_variable v)) f Hf (l_weights l)).
      rewrite <- !(map_map erase_variable f). now rewrite H4. }
    repeat split; apply Hn; reflexivity.
Qed.

End Touch.
(** ** The schedule of the checkpoints *)

Lemma filter_none {A} (P : A -> Prop) `{forall x, Decision (P x)} (l : list A) :
  Forall (fun x => ~ P x) l -> filter P l = [].
Proof.
  induction 1 as [| x l Hx _ IH]; [reflexivity |].
  now rewrite filter_cons_False.
Qed.

Lemma filter_block (b q : nat) :
  1 <= b ->
  filter (fun t => t mod b = 0) (seq (1 + b * q) b) = [(1 + q) * b].
Proof.
  intros Hb. destruct b as [| b']; [lia |].
  rewrite seq_S, filter_app, filter_none.
  - rewrite filter_cons_True.
    + rewrite filter_nil. cbn [app]. f_equal. lia.
    + symmetry. apply (Nat.mod_unique _ _ (1 + q)); lia.
  - apply Forall_forall. intros t Ht. apply elem_of_seq in Ht. intros Hm.
    assert (Hr : t - S b' * q = t mod S b')
      by (apply (Nat.mod_unique _ _ q); lia).
    lia.
Qed.

Lemma filter_multiples (b n : nat) :
  1 <= b ->
  filter (fun t => t mod b = 0) (seq 1 (b * n))
  = map (fun e => e * b) (seq 1 n).
Proof.
  intros Hb. induction n as [| n IH].
  - now rewrite Nat.mul_0_r.
  - replace (b * S n) with (b * n + b) by lia.
    rewrite seq_app, filter_app, IH, filter_block by done.
    now rewrite seq_S, map_app.
Qed.

Section Schedule.
Context `{B : Backend}.

(** X16. With at least one batch in the data set, a run of [train]
    that returns has saved one checkpoint per epoch, after the last
    step of each epoch: the checkpoints carry the step numbers
    [floor(N/B)], [2 * floor(N/B)], ..., [n_epochs * floor(N/B)]. *)
Theorem checkpoint_schedule (args : train_args) (s : state) (hist : history)
    (s' : state) :
  1 <= n_batch args <= shape0 (dataset args) ->
  train args s = Ok hist s' ->
  checkpoints (trace s')
  = checkpoints (trace s)
    ++ map (fun e => e * (shape0 (dataset args) / n_batch args))
         (seq 1 (n_epochs args)).
Proof.
  intros HB H. apply train_inv in H as (tr & Hsh & Ht).
  apply loop_shape_events in Hsh as (_ & E2 & _).
  rewrite Ht. unfold checkpoints at 1. rewrite !omap_app.
  fold (checkpoints (trace s)) (checkpoints tr). rewrite E2.
  cbn [omap]. rewrite app_nil_r. f_equal.
  change (0 + 1) with 1. apply filter_multiples.
  apply Nat.div_str_pos. lia.
Qed.

End Schedule.

(** ** Batches of one sample *)

Section HalfBatch.
Context `{B : Backend}.
Variable args : train_args.

Lemma critic_fake_update_nothing (s : state) :
  is_ok (critic_fake_update args 0 s) = false.
Proof.
  unfold critic_fake_update.
  now rewrite (bind_fail _ _ _ _ _ (generate_fake_samples_nothing _ _ s)).
Qed.

(** X23. With [n_batch = 1] the half batch is [1 // 2 = 0]: when a
    step is due and the critic loop has a pass, [train] does not
    return.  The first pass raises, at the latest when the generator is
    asked to predict on a batch without latent points. *)
Theorem empty_half_batch_raises (s : state) :
  n_batch args = 1 -> 1 <= n_critic args ->
  1 <= shape0 (dataset args) -> 1 <= n_epochs args ->
  is_ok (train args s) = false.
Proof.
  intros HB HK HN HE.
  destruct (train args s) as [hist s' | e s'] eqn:Ht; [| reflexivity].
  exfalso. unfold train in Ht. rewrite HB in Ht.
  apply bind_ok in Ht as (bpe & s1 & Hd & Ht).
  apply int_div_inv in Hd as (_ & -> & ->).
  apply bind_ok in Ht as (hb & s1 & Hd & Ht).
  apply int_div_inv in Hd as (_ & -> & ->).
  apply bind_ok in Ht as (h & s1 & Hl & _).
  rewrite Nat.div_1_r in Hl. change (1 / 2) with 0 in Hl.
  destruct (shape0 (dataset args) * n_epochs args) as [| n] eqn:Hn; [nia |].
  cbn [train_loop] in Hl. apply bind_ok in Hl as (h1 & s2 & Hs & _).
  unfold train_step in Hs. apply bind_ok in Hs as (tmp & s3 & Hc & _).
  destruct (n_critic args) as [| k]; [lia |].
  cbn [critic_loop] in Hc. apply bind_ok in Hc as ([d1 d2] & s4 & Hsub & _).
  apply critic_substep_inv in Hsub as (l1 & l2 & s5 & _ & Hf & _).
  pose proof (critic_fake_update_nothing s5) as He.
  rewrite Hf in He. discriminate.
Qed.

End HalfBatch.

(** ** The clip and the loss at their edges *)

(** X17. With a [clip_value <= 0] the constraint does not clip into an
    interval: [backend.clip] raises the upper end to the lower end, so
    every weight that is not nan becomes the bound [-clip_value]
    converted to single precision, whatever its value, and a nan weight
    stays nan; the number of entries is kept. *)
Theorem clip_nonpositive_bound (self : ClipConstraint) (w : list float32) :
  (clip_value self <= 0)%Q ->
  length (ClipConstraint_call self w) = length w
  /\ Forall2 (fun x r =>
                if is_nan x then is_nan r = true
                else float32_same r (float32_of_Q (- clip_value self)))
       w (ClipConstraint_call self w).
Proof.
  intros Hc. unfold ClipConstraint_call, backend_clip.
  split; [apply length_map |].
  set (B := float32_of_Q (- clip_value self)).
  assert (Hb : (if Qlt_le_dec (clip_value self) (- clip_value self)
                then float32_of_Q (- clip_value self)
                else float32_of_Q (clip_value self)) = B).
  { destruct (Qlt_le_dec _ _) as [_ | Hge]; [reflexivity |].
    subst B. rewrite !float32_of_Q_zero; [reflexivity | lra | lra]. }
  assert (Hmap : forall f : Q -> float32,
            f (if Qlt_le_dec (clip_value self) (- clip_value self)
               then - clip_value self else clip_value self)
            = (if Qlt_le_dec (clip_value self) (- clip_value self)
               then f (- clip_value self) else f (clip_value self)))
    by (intros f; now destruct (Qlt_le_dec _ _)).
  rewrite Hmap, Hb. fold B.
  apply Forall2_fmap_r, Forall_Forall2_diag, Forall_forall. intros x _.
  unfold compose. destruct (is_nan x) eqn:Hx.
  - rewrite clip_entry_nan; [reflexivity | now right; right].
  - destruct (is_nan B) eqn:HB.
    + rewrite clip_entry_nan by (now left). unfold float32_same. cbn. exact HB.
    + pose proof (float32_leb_refl B HB) as Hrefl.
      destruct (clip_entry_cases B B x HB HB Hrefl)
        as [[Hx' _] | [_ [(-> & H1 & H2) | [(-> & _) | (-> & _)]]]].
      * congruence.
      * unfold float32_same. now rewrite Hx.
      * apply float32_same_refl.
      * apply float32_same_refl.
Qed.

Lemma Qsum_zip_opp (a b : list Q) :
  Qsum (zip_with Qmult (map Qopp a) b) == - Qsum (zip_with Qmult a b).
Proof.
  revert b. induction a as [| x a IH]; intros [| y b]; try reflexivity.
  cbn [map zip_with Qsum foldr].
  fold (Qsum (zip_with Qmult (map Qopp a) b)). fold (Qsum (zip_with Qmult a b)).
  rewrite IH. ring.
Qed.

Lemma Qsum_zip_comm (a b : list Q) :
  Qsum (zip_with Qmult a b) == Qsum (zip_with Qmult b a).
Proof.
  revert b. induction a as [| x a IH]; intros [| y b]; try reflexivity.
  cbn [zip_with Qsum foldr].
  fold (Qsum (zip_with Qmult a b)). fold (Qsum (zip_with Qmult b a)).
  rewrite IH. ring.
Qed.

(** X18. On two vectors of one length the loss changes its sign when
    every label does, and it does not tell the labels from the
    predictions. *)
Theorem wasserstein_loss_label_flip (y_true y_pred : list Q) :
  length y_true = length y_pred ->
  npfloat_eq (wasserstein_loss (map Qopp y_true) y_pred)
    (npfloat_opp (wasserstein_loss y_true y_pred))
  /\ npfloat_eq (wasserstein_loss y_true y_pred)
       (wasserstein_loss y_pred y_true).
Proof.
  intros Hlen. unfold wasserstein_loss. rewrite !mean_cases.
  rewrite !length_zip_with, length_map, Hlen, Nat.min_id.
  split.
  - pose proof (Qsum_zip_opp y_true y_pred) as Hs.
    destruct (length y_pred); cbn [npfloat_eq npfloat_opp]; [exact I |].
    rewrite Hs. unfold Qdiv. ring.
  - pose proof (Qsum_zip_comm y_true y_pred) as Hs.
    destruct (length y_pred); cbn [npfloat_eq]; [exact I |].
    now rewrite Hs.
Qed.


(** ** Instances *)

Lemma checkpoint_effects_witness :
  @summarize_performance Demo.still 0 (@generator Demo.still 3) 3 2
    (@ready Demo.still 3)
  = Err IndexError
      (mkState (heap (@ready Demo.still 3)) (rng_pos (@ready Demo.still 3) + 3 * 2)
         (calls (@ready Demo.still 3)) (trace (@ready Demo.still 3))).
Proof.
  pose proof (@checkpoint_effects Demo.still 0 (@generator Demo.still 3) 3 2
                (@ready Demo.still 3)) as H.
  destruct H as [Hsmall _]; [lazy; reflexivity | lazy; reflexivity |].
  apply Hsmall. lia.
Defined.

Lemma train_zero_batch_witness :
  @train Demo.still Runs.unbatched (@ready Demo.still 3)
  = Err ZeroDivisionError (@ready Demo.still 3).
Proof.
  apply (@train_zero_batch Demo.still Runs.unbatched (@ready Demo.still 3)).
  reflexivity.
Defined.

Lemma loss_plot_failure_witness :
  exists s1,
    @train Demo.no_curves Runs.uncharted (@ready Demo.no_curves 3)
    = Err OSError s1.
Proof.
  destruct (ok_eta
              (@train_loop Demo.no_curves Runs.uncharted
                 (shape0 (dataset Runs.uncharted) / n_batch Runs.uncharted)
                 (n_batch Runs.uncharted / 2) 0
                 (shape0 (dataset Runs.uncharted) / n_batch Runs.uncharted
                  * n_epochs Runs.uncharted)
                 (mkHistory [] [] []) (@ready Demo.no_curves 3)))
    as (hist & _ & Heq); [lazy; reflexivity |].
  eexists.
  apply (@loss_plot_failure Demo.no_curves Runs.uncharted _ _ _
           ltac:(lazy; lia) Heq).
  reflexivity.
Defined.

Lemma training_call_count_witness :
  exists hist s',
    @train Demo.still Runs.tiny (@ready Demo.still 3) = Ok hist s'
    /\ calls s' = calls (@ready Demo.still 3) + 3.
Proof.
  destruct (ok_eta (@train Demo.still Runs.tiny (@ready Demo.still 3)))
    as (hist & _ & Heq); [lazy; reflexivity |].
  exists hist, (final_state (@train Demo.still Runs.tiny (@ready Demo.still 3))).
  split; [exact Heq |].
  exact (@training_call_count Demo.still Runs.tiny _ _ _ Heq).
Defined.

Lemma step_without_critic_passes_witness :
  exists hist' s',
    @train_step Demo.still Runs.generator_only 1 1 0 (mkHistory [] [] [])
      (@ready Demo.still 3) = Ok hist' s'
    /\ c1_hist hist' = [NaN] /\ c2_hist hist' = [NaN]
    /\ calls s' = S (calls (@ready Demo.still 3)).
Proof.
  destruct (ok_eta (@train_step Demo.still Runs.generator_only 1 1 0
                      (mkHistory [] [] []) (@ready Demo.still 3)))
    as (hist' & _ & Heq); [lazy; reflexivity |].
  destruct (@step_without_critic_passes Demo.still Runs.generator_only 1 1 0
              _ _ _ _ eq_refl Heq)
    as (g_loss & g_ev & _ & H1 & H2 & _ & H4 & _).
  eexists _, _. split; [exact Heq |]. auto.
Defined.

Lemma critic_loop_spares_generator_witness :
  heap (final_state (@critic_loop Demo.push Runs.tiny_pushed 1 1 ([], [])
                       (@ready Demo.push 3))) !! 14
  = heap (@ready Demo.push 3) !! 14.
Proof.
  destruct (ok_eta (@critic_loop Demo.push Runs.tiny_pushed 1 1 ([], [])
                      (@ready Demo.push 3)))
    as (tmp' & _ & Heq); [lazy; reflexivity |].
  destruct (@critic_loop_spares_generator Demo.push _ _ _ _ _ _ _ Heq)
    as [_ Hgen].
  apply (Hgen 3 (Demo.black 2 [80; 80; 1]) 1 2 1 eq_refl).
  apply (bool_decide_unpack _). lazy. reflexivity.
Defined.

Lemma composite_moves_normalization_witness :
  exists c new,
    s_compiled (@wgan_model Demo.push 3) = Some c
    /\ @fit Demo.push (calls (@ready Demo.push 3)) (c_loss c)
         (resolve (heap (@ready Demo.push 3)) (s_layers (@wgan_model Demo.push 3)))
         [replicate 3 0%Q] (items (neg (ones_n1 1)))
       = Some (Finite 0, new).
Proof.
  destruct (ok_eta (@train_on_batch Demo.push (@wgan_model Demo.push 3)
                      (mkArray [3] [replicate 3 0%Q]) (neg (ones_n1 1))
                      (@ready Demo.push 3))) as (loss & Hv & Heq);
    [lazy; reflexivity |].
  assert (Hl : loss = Finite 0).
  { assert (Hv' : value_of
                    (@train_on_batch Demo.push (@wgan_model Demo.push 3)
                       (mkArray [3] [replicate 3 0%Q]) (neg (ones_n1 1))
                       (@ready Demo.push 3)) = Some (Finite 0))
      by (lazy; reflexivity).
    congruence. }
  subst loss.
  destruct (@composite_moves_normalization Demo.push 3 _ _ _ _ _ eq_refl Heq)
    as (c & new & Hc & Hfit & _).
  exists c, new. split; [exact Hc | exact Hfit].
Defined.

Lemma train_keeps_structure_witness :
  skeleton (heap (final_state
                    (@train Demo.push Runs.tiny_pushed (@ready Demo.push 3))))
  = skeleton (heap (@ready Demo.push 3)).
Proof.
  destruct (ok_eta (@train Demo.push Runs.tiny_pushed (@ready Demo.push 3)))
    as (hist & _ & Heq); [lazy; reflexivity |].
  apply (@train_keeps_structure Demo.push _ _ _ _ Heq).
Defined.

Lemma checkpoint_schedule_witness :
  exists hist s',
    @train Demo.still Runs.two_epochs (@ready Demo.still 10) = Ok hist s'
    /\ checkpoints (trace s') = [2; 4].
Proof.
  assert (Hf : fits Runs.two_epochs)
    by (unfold fits; apply (bool_decide_unpack _); lazy; reflexivity).
  destruct (@train_total Demo.still Runs.two_epochs Hf still_healthy
              (@ready Demo.still 10)) as (hist & s' & Heq).
  exists hist, s'. split; [exact Heq |].
  rewrite (@checkpoint_schedule Demo.still Runs.two_epochs _ _ _
             ltac:(lazy; lia) Heq).
  lazy. reflexivity.
Defined.

Lemma empty_half_batch_raises_witness :
  is_ok (@train Demo.still Runs.single (@ready Demo.still 3)) = false.
Proof.
  apply (@empty_half_batch_raises Demo.still Runs.single (@ready Demo.still 3)).
  - reflexivity.
  - change (1 <= 1). lia.
  - change (1 <= 2). lia.
  - change (1 <= 1). lia.
Defined.

Lemma clip_nonpositive_bound_witness :
  Forall2 (fun x r =>
             if is_nan x then is_nan r = true
             else float32_same r (float32_of_Q (1 # 10)))
    [float32_of_Z 3; SpecFloat.S754_nan; float32_of_Q (- (7 # 3))]
    (ClipConstraint_call {| clip_value := - (1 # 10) |}
       [float32_of_Z 3; SpecFloat.S754_nan; float32_of_Q (- (7 # 3))]).
Proof.
  apply (clip_nonpositive_bound {| clip_value := - (1 # 10) |}
           [float32_of_Z 3; SpecFloat.S754_nan; float32_of_Q (- (7 # 3))]).
  unfold Qle. cbn. lia.
Defined.

Lemma wasserstein_loss_label_flip_witness :
  npfloat_eq (wasserstein_loss (map Qopp [1; 1; 1]%Q) [3 # 4; - (1 # 2); 5 # 1]%Q)
    (npfloat_opp (wasserstein_loss [1; 1; 1]%Q [3 # 4; - (1 # 2); 5 # 1]%Q)).
Proof.
  apply (wasserstein_loss_label_flip [1; 1; 1]%Q [3 # 4; - (1 # 2); 5 # 1]%Q).
  reflexivity.
Defined.


(** ** Loading the images *)

Lemma mapM_total {A C} (f : A -> option C) (g : A -> C) (l : list A) :
  Forall (fun x => f x = Some (g x)) l -> mapM f l = Some (map g l).
Proof.
  induction 1 as [| x l Hx _ IH]; [reflexivity |].
  cbn. rewrite Hx. cbn. rewrite IH. reflexivity.
Qed.

Lemma lookup_concat_uniform {A} (rows : list (list A)) (d r c : nat) :
  Forall (fun row => length row = d) rows -> c < d ->
  concat rows !! (r * d + c) = rows !! r ≫= fun row => row !! c.
Proof.
  intros Hall Hc. revert r. induction Hall as [| row rows Hrow _ IH]; intros r.
  - reflexivity.
  - destruct r as [| r]; cbn [concat].
    + rewrite lookup_app_l by lia. reflexivity.
    + rewrite lookup_app_r by lia.
      replace (S r * d + c - length row) with (r * d + c) by lia.
      apply IH.
Qed.

Lemma length_concat_uniform {A} (rows : list (list A)) (d : nat) :
  Forall (fun row => length row = d) rows ->
  length (concat rows) = length rows * d.
Proof.
  induction 1 as [| row rows Hrow _ IH]; [reflexivity |].
  cbn. rewrite length_app, IH. lia.
Qed.

Lemma py_slice_length {A} (l : list A) :
  length l = 84 -> length (py_slice 1 81 l) = 80.
Proof. intros H. unfold py_slice. rewrite length_take, length_drop. lia. Qed.

Lemma py_slice_lookup {A} (l : list A) (i : nat) :
  i < 80 -> py_slice 1 81 l !! i = l !! (1 + i).
Proof.
  intros H. unfold py_slice.
  rewrite lookup_take, decide_True by lia. apply lookup_drop.
Qed.

(** The rows of the image before the rescaling, as the assignments to
    the first row and the first column leave them. *)
Lemma bordered (v : float32) (X : list (list float32)) :
  length X = 80 -> Forall (fun row => length row = 80) X ->
  exists X',
    (set_first_row v X ≫= set_first_column v) = Some X'
    /\ length X' = 80 /\ Forall (fun row => length row = 80) X'
    /\ forall r c, r < 80 -> c < 80 ->
         (X' !! r ≫= fun row => row !! c)
         = if (r =? 0) || (c =? 0) then Some v
           else X !! r ≫= fun row => row !! c.
Proof.
  intros HX Hall. destruct X as [| r0 rest]; [discriminate |].
  cbn [set_first_row]. cbn [mbind option_bind].
  apply Forall_cons in Hall as [H0 Hrest].
  set (X2 := map (fun _ => v) r0 :: rest).
  assert (Hall2 : Forall (fun row => length row = 80) X2).
  { apply Forall_cons. split; [now rewrite length_map | exact Hrest]. }
  exists (map (fun row => v :: drop 1 row) X2).
  split; [| split; [| split]].
  - unfold set_first_column. apply mapM_total.
    eapply Forall_impl; [exact Hall2 |]. intros [| x row] Hrow; [discriminate |].
    reflexivity.
  - rewrite length_map. exact HX.
  - apply Forall_fmap. eapply Forall_impl; [exact Hall2 |].
    intros row Hrow. unfold compose. cbn beta in Hrow. cbn [length].
    rewrite length_drop. lia.
  - intros r c Hr Hc. rewrite list_lookup_fmap.
    assert (Hcell : forall (row : list float32),
              (v :: drop 1 row) !! c
              = if c =? 0 then Some v else row !! c).
    { intros row. destruct c as [| c]; [reflexivity |].
      rewrite lookup_cons. cbn [Nat.eqb]. now rewrite lookup_drop. }
    destruct r as [| r].
    + change (X2 !! 0) with (Some (map (fun _ : float32 => v) r0)).
      cbn [fmap option_fmap option_map mbind option_bind Nat.eqb orb].
      rewrite Hcell. destruct (c =? 0); [reflexivity |].
      rewrite list_lookup_fmap.
      assert (Hlt : c < length r0) by lia.
      destruct (lookup_lt_is_Some_2 r0 c Hlt) as [x ->]. reflexivity.
    + change (X2 !! S r) with (rest !! r).
      change ((r0 :: rest) !! S r) with (rest !! r).
      cbn [Nat.eqb orb].
      assert (Hlt : r < length rest) by (cbn [length] in HX; lia).
      destruct (lookup_lt_is_Some_2 rest r Hlt) as [row ->].
      cbn [fmap option_fmap option_map mbind option_bind]. apply Hcell.
Qed.

Lemma lookup_rows_fmap {A C} (f : A -> C) (X : list (list A)) (r c : nat) :
  (map (map f) X !! r ≫= fun row => row !! c)
  = f <$> (X !! r ≫= fun row => row !! c).
Proof.
  rewrite list_lookup_fmap. destruct (X !! r) as [row |]; [| reflexivity].
  cbn. apply list_lookup_fmap.
Qed.

Lemma cropped (img : list (list Byte.byte)) :
  resized img ->
  let X := map (py_slice 1 81) (py_slice 1 81 img) in
  length X = 80 /\ Forall (fun row => length row = 80) X
  /\ forall r c, r < 80 -> c < 80 ->
       exists b,
         pixel img (1 + r) (1 + c) = Some b
         /\ (X !! r ≫= fun row => row !! c) = Some b.
Proof.
  intros [Hlen Hall] X. subst X. split; [| split].
  - rewrite length_map. now apply py_slice_length.
  - apply Forall_fmap, Forall_forall. intros row Hrow. unfold compose.
    apply py_slice_length. rewrite Forall_forall in Hall. apply Hall.
    unfold py_slice in Hrow.
    apply list_elem_of_lookup in Hrow as [i Hi].
    apply lookup_take_Some in Hi as [Hi _]. rewrite lookup_drop in Hi.
    apply list_elem_of_lookup. eauto.
  - intros r c Hr Hc. unfold pixel.
    rewrite list_lookup_fmap, py_slice_lookup by done.
    assert (Hlt : 1 + r < length img) by lia.
    destruct (lookup_lt_is_Some_2 img (1 + r) Hlt) as [row Hrow].
    rewrite Hrow. cbn [fmap option_fmap option_map mbind option_bind].
    rewrite py_slice_lookup by done.
    assert (Hrl : length row = 84).
    { rewrite Forall_forall in Hall. apply Hall. apply list_elem_of_lookup. eauto. }
    assert (Hlt' : 1 + c < length row) by lia.
    destruct (lookup_lt_is_Some_2 row (1 + c) Hlt') as [b Hb].
    exists b. now rewrite Hb.
Qed.

Lemma assign_image_ok (X : list (list Q)) :
  length X = 80 -> Forall (fun row => length row = 80) X ->
  assign_image X = Some (concat X).
Proof.
  intros Hlen Hall. unfold assign_image.
  rewrite (mapM_total _ (fun row => row)).
  - cbn [mbind option_bind]. rewrite map_id. unfold broadcast_to.
    now rewrite decide_True.
  - eapply Forall_impl; [exact Hall |]. intros row Hrow. unfold broadcast_to.
    now rewrite decide_True.
Qed.

Lemma prepare_image_ok (img : list (list Byte.byte)) (s : state) :
  resized img ->
  exists x, prepare_image img s = Ok x s /\ scaled_crop img x.
Proof.
  intros Himg. destruct (cropped img Himg) as (Hlen & Hall & Hpix).
  unfold prepare_image.
  set (X0 := map (py_slice 1 81) (py_slice 1 81 img)) in *.
  set (X1 := map (map astype_float32) X0).
  assert (Hlen1 : length X1 = 80) by (subst X1; now rewrite length_map).
  assert (Hall1 : Forall (fun row => length row = 80) X1).
  { subst X1. apply Forall_fmap. eapply Forall_impl; [exact Hall |].
    intros row Hrow. unfold compose. now rewrite length_map. }
  destruct (bordered (float32_of_Z 255) X1 Hlen1 Hall1)
    as (X' & Hb & Hlen' & Hall' & Hcell).
  destruct (set_first_row (float32_of_Z 255) X1) as [X2 |]; [| discriminate].
  cbn [mbind option_bind] in Hb. rewrite Hb.
  set (X5 := map (map float32_to_Q) (map (map rescale) X')).
  assert (Hlen5 : length X5 = 80) by (subst X5; now rewrite !length_map).
  assert (Hall5 : Forall (fun row => length row = 80) X5).
  { subst X5. apply Forall_fmap, Forall_fmap.
    eapply Forall_impl; [exact Hall' |].
    intros row Hrow. unfold compose. now rewrite !length_map. }
  rewrite (assign_image_ok X5 Hlen5 Hall5).
  exists (concat X5). split; [reflexivity |]. split.
  - rewrite (length_concat_uniform _ 80 Hall5), Hlen5. reflexivity.
  - intros r c Hr Hc. destruct (Hpix r c Hr Hc) as (b & Hb1 & Hb2).
    exists b. split; [exact Hb1 |].
    etrans; [exact (lookup_concat_uniform _ 80 r c Hall5 Hc) |].
    subst X5. rewrite !lookup_rows_fmap, (Hcell r c Hr Hc).
    destruct ((r =? 0) || (c =? 0)); [reflexivity |].
    subst X1. rewrite lookup_rows_fmap, Hb2. reflexivity.
Qed.

Lemma level_checked (b : Byte.byte) : level_check b = true.
Proof. destruct b; lazy; reflexivity. Qed.

Lemma level_facts (b : Byte.byte) :
  is_finite (rescale (astype_float32 b)) = true
  /\ (- (1) <= level b)%Q /\ (level b <= 1)%Q
  /\ (exact_level b - (1 # 33554432) <= level b)%Q
  /\ (level b <= exact_level b + (1 # 33554432))%Q.
Proof.
  pose proof (level_checked b) as H. unfold level_check in H.
  repeat (apply andb_prop in H as [H ?]).
  repeat split; try (apply Qle_bool_iff); assumption.
Qed.


Lemma prepare_image_error_state (img : list (list Byte.byte)) (s : state)
    (e : error) (s' : state) :
  prepare_image img s = Err e s' -> s' = s.
Proof.
  unfold prepare_image.
  destruct (set_first_row _ _) as [X2 |]; [| now intros [= _ ->]].
  destruct (set_first_column _ _) as [X3 |]; [| now intros [= _ ->]].
  destruct (assign_image _) as [y |]; [discriminate | now intros [= _ ->]].
Qed.

Lemma scaled_crop_within (img : list (list Byte.byte)) (x : tensor) :
  scaled_crop img x -> within 1 x.
Proof.
  intros [Hlen Hcell]. unfold within. apply Forall_lookup. intros k q Hk.
  assert (Hlt : k < 80 * 80) by (rewrite <- Hlen; eapply lookup_lt_Some, Hk).
  pose proof (Nat.div_mod_eq k 80) as Hdm.
  pose proof (Nat.mod_upper_bound k 80 ltac:(lia)) as Hm.
  assert (Hr : k / 80 < 80) by (apply Nat.Div0.div_lt_upper_bound; lia).
  destruct (Hcell (k / 80) (k mod 80) Hr Hm) as (b & _ & Hx).
  replace (k / 80 * 80 + k mod 80) with k in Hx by lia.
  pose proof (eq_trans (eq_sym Hk) Hx) as E. injection E as ->.
  destruct (_ || _).
  - destruct (level_facts Byte.xff) as (_ & H1 & H2 & _). now split.
  - destruct (level_facts b) as (_ & H1 & H2 & _). now split.
Qed.

Section Loader.
Context `{I : Imaging}.

Lemma load_images_ok (names : list string) (idx : list nat) (s : state) :
  Forall (readable names) idx ->
  exists xs,
    load_images names idx s = Ok xs s
    /\ Forall2 (fun i x =>
                  exists name img,
                    names !! i = Some name /\ open_gray name = Some img
                    /\ scaled_crop img x) idx xs.
Proof.
  induction 1 as [| i idx (name & img & Hn & Ho & Hr) _ (xs & IH & Hall)].
  - exists []. split; [reflexivity | constructor].
  - destruct (prepare_image_ok img s Hr) as (x & Hx & Hsc).
    exists (x :: xs). split.
    + cbn [load_images]. rewrite Hn, Ho.
      rewrite (bind_step _ _ _ _ _ Hx), (bind_step _ _ _ _ _ IH). reflexivity.
    + constructor; [| exact Hall]. eauto.
Qed.


Lemma load_images_stops (names : list string) (good : list nat) (i : nat)
    (rest : list nat) (s : state) :
  Forall (readable names) good ->
  load_images names (good ++ i :: rest) s
  = match names !! i with
    | None => Err IndexError s
    | Some name =>
        match open_gray name with
        | None => Err OSError s
        | Some _ => load_images names (good ++ i :: rest) s
        end
    end.
Proof.
  induction 1 as [| j good (name & img & Hn & Ho & Hr) _ IH].
  - cbn [app load_images]. destruct (names !! i) as [name |]; [| reflexivity].
    destruct (open_gray name); reflexivity.
  - destruct (prepare_image_ok img s Hr) as (x & Hx & _).
    cbn [app load_images]. rewrite Hn, Ho.
    rewrite (bind_step _ _ _ _ _ Hx).
    destruct (names !! i) as [name' |] eqn:Hi.
    + destruct (open_gray name') eqn:Ho'; [reflexivity |].
      unfold bind at 1. now rewrite IH.
    + unfold bind at 1. now rewrite IH.
Qed.

Lemma load_real_samples_ok (names : list string) (s : state) :
  listdir = Some names ->
  (forall i, i < 60 * 100 -> readable names i) ->
  exists X,
    load_real_samples s = Ok X s
    /\ shape0 X = 60 * 100 /\ item_shape X = [80; 80; 1]
    /\ forall i x,
         items X !! i = Some x ->
         within 1 x
         /\ exists name img,
              names !! i = Some name /\ open_gray name = Some img
              /\ scaled_crop img x.
Proof.
  intros Hdir Hall. unfold load_real_samples. rewrite Hdir.
  destruct (load_images_ok names (seq 0 (60 * 100)) s) as (xs & Hl & H2).
  { apply Forall_forall. intros i Hi. apply elem_of_seq in Hi. apply Hall. lia. }
  exists (mkArray [80; 80; 1] xs).
  rewrite (bind_step _ _ _ _ _ Hl). split; [reflexivity |].
  pose proof (Forall2_length _ _ _ H2) as Hlen. rewrite length_seq in Hlen.
  split; [unfold shape0; cbn [items]; now rewrite <- Hlen |].
  split; [reflexivity |].
  intros i x Hx. cbn [items] in Hx.
  destruct (Forall2_lookup_r _ _ _ _ _ H2 Hx) as (j & Hj & name & img & Hn & Ho & Hsc).
  apply lookup_seq in Hj as [-> _]. cbn [Nat.add] in Hn.
  split; [now apply (scaled_crop_within img) | eauto].
Qed.


(** X19. When the directory lists at least 6000 names and each of the
    first 6000 opens, [load_real_samples] returns 6000 images of shape
    [(80, 80, 1)] in the order of the listing, and changes nothing.
    Every entry lies in [[-1, 1]]; image [i] is the file at index [i]
    cut to its rows and columns 1 to 80, with its first row and first
    column overwritten with white, and every grey level rescaled. *)
Theorem load_real_samples_returns (names : list string) (s : state) :
  listdir = Some names ->
  (forall i, i < 60 * 100 -> readable names i) ->
  exists X,
    load_real_samples s = Ok X s
    /\ shape0 X = 60 * 100 /\ item_shape X = [80; 80; 1]
    /\ forall i x,
         items X !! i = Some x ->
         within 1 x
         /\ exists name img,
              names !! i = Some name /\ open_gray name = Some img
              /\ scaled_crop img x.
Proof. apply load_real_samples_ok. Qed.

(** X20. [load_real_samples] checks nothing and catches nothing: it
    raises the error of the file system when the directory cannot be
    listed, IndexError when the directory lists fewer than 6000 names
    (after it has read every file listed), and the error of PIL at the
    first file that does not open; the files listed after the first
    6000 are never read. *)
Theorem load_real_samples_failures (s : state) :
  (listdir = None -> load_real_samples s = Err OSError s)
  /\ (forall names,
        listdir = Some names -> length names < 60 * 100 ->
        (forall i, i < length names -> readable names i) ->
        load_real_samples s = Err IndexError s)
  /\ (forall names i name,
        listdir = Some names -> i < 60 * 100 ->
        names !! i = Some name -> open_gray name = None ->
        (forall j, j < i -> readable names j) ->
        load_real_samples s = Err OSError s)
  /\ (forall names extra X s',
        listdir = Some names -> length names = 60 * 100 ->
        load_real_samples s = Ok X s' ->
        @load_real_samples
          {| listdir := Some (names ++ extra); open_gray := open_gray |} s
        = Ok X s').
Proof.
  split; [| split; [| split]].
  - intros Hdir. unfold load_real_samples. now rewrite Hdir.
  - intros names Hdir Hlen Hall. unfold load_real_samples. rewrite Hdir.
    apply bind_fail.
    replace (60 * 100) with (length names + S (60 * 100 - S (length names)))
      by lia.
    rewrite seq_app. cbn [seq].
    rewrite load_images_stops.
    + now rewrite (lookup_ge_None_2 names) by (cbn; lia).
    + apply Forall_forall. intros i Hi. apply elem_of_seq in Hi. apply Hall. lia.
  - intros names i name Hdir Hi Hn Ho Hall. unfold load_real_samples.
    rewrite Hdir. apply bind_fail.
    replace (60 * 100) with (i + S (60 * 100 - S i)) by lia.
    rewrite seq_app. cbn [seq].
    rewrite load_images_stops.
    + cbn [Nat.add]. now rewrite Hn, Ho.
    + apply Forall_forall. intros j Hj. apply elem_of_seq in Hj. apply Hall. lia.
  - intros names extra X s' Hdir Hlen. unfold load_real_samples.
    rewrite Hdir. cbn [listdir].
    assert (Hsame : forall idx s0,
              Forall (fun i => i < length names) idx ->
              @load_images {| listdir := Some (names ++ extra);
                              open_gray := open_gray |} (names ++ extra) idx s0
              = load_images names idx s0).
    { induction idx as [| i idx IH]; intros s0 Hidx; [reflexivity |].
      apply Forall_cons in Hidx as [Hi Hidx].
      cbn [load_images open_gray]. rewrite lookup_app_l by done.
      destruct (names !! i) as [name |]; [| reflexivity].
      destruct (open_gray name) as [img |]; [| reflexivity].
      unfold bind. destruct (prepare_image img s0) as [x s1 | e s1];
        [| reflexivity].
      now rewrite IH. }
    unfold bind. rewrite Hsame; [done |].
    apply Forall_forall. intros i Hi. apply elem_of_seq in Hi. lia.
Qed.

End Loader.

(** X21. The grey levels after the rescaling, in single precision:
    every one is finite, lies in [[-1, 1]] and is within [2^-25] of
    [(127.5 - p) / 127.5]; black becomes exactly 1 and white exactly
    -1; a lighter grey gets a strictly smaller value. *)
Theorem grey_levels :
  (forall b,
      is_finite (rescale (astype_float32 b)) = true
      /\ (- (1) <= level b)%Q /\ (level b <= 1)%Q
      /\ (exact_level b - (1 # 33554432) <= level b)%Q
      /\ (level b <= exact_level b + (1 # 33554432))%Q)
  /\ (level Byte.x00 == 1)%Q /\ (level Byte.xff == - (1))%Q
  /\ (forall a b,
        (Byte.to_N a < Byte.to_N b)%N -> (level b < level a)%Q).
Proof.
  split; [exact level_facts |]. split; [reflexivity |]. split; [reflexivity |].
  intros a b Hab.
  destruct (level_facts a) as (_ & _ & _ & Ha & _).
  destruct (level_facts b) as (_ & _ & _ & _ & Hb).
  unfold exact_level in Ha, Hb.
  assert (Hz : (inject_Z (Z.of_N (Byte.to_N a)) + 1
                <= inject_Z (Z.of_N (Byte.to_N b)))%Q).
  { change 1%Q with (inject_Z 1). rewrite <- inject_Z_plus.
    rewrite <- Zle_Qle. lia. }
  set (pa := inject_Z (Z.of_N (Byte.to_N a))) in *.
  set (pb := inject_Z (Z.of_N (Byte.to_N b))) in *.
  assert (Ea : ((255 - 2 * pa) / 255 == 1 - (2 # 255) * pa)%Q) by field.
  assert (Eb : ((255 - 2 * pb) / 255 == 1 - (2 # 255) * pb)%Q) by field.
  rewrite Ea in Ha. rewrite Eb in Hb. lra.
Qed.

(** ** From the files to the training run *)

Section Pipeline.
Context `{B : Backend} `{I : Imaging}.



End Pipeline.

Lemma white_files_readable (n i : nat) :
  i < n -> @readable (white_files n) (replicate n "f.png"%string) i.
Proof.
  intros Hi. exists "f.png"%string, (replicate 84 (replicate 84 Byte.xff)).
  split; [now apply lookup_replicate_2 |]. split; [reflexivity |].
  split; [apply length_replicate |]. apply Forall_replicate, length_replicate.
Qed.

Lemma load_real_samples_returns_witness :
  exists X,
    @load_real_samples (white_files (60 * 100)) fresh = Ok X fresh
    /\ shape0 X = 60 * 100 /\ item_shape X = [80; 80; 1].
Proof.
  destruct (@load_real_samples_returns (white_files (60 * 100))
              (replicate (60 * 100) "f.png"%string) fresh eq_refl
              (white_files_readable (60 * 100)))
    as (X & H1 & H2 & H3 & _).
  exists X. auto.
Defined.

